(** * Call-center analytics: validation, cleaning, KPI and correlation core

    A shallow embedding of the analytics pipeline of [callcenter-analytics]
    ([src/data/validator.py], [src/data/cleaner.py], [src/analysis/kpi.py],
    [src/analysis/correlation.py], [src/analysis/statistics.py]) together
    with the properties its specification states about it.

    Numbers.  The Python code computes with [float64] values.  They are
    modelled by exact real numbers extended with the IEEE special values
    (NaN and the two infinities): rounding and signed zeros are not
    modelled, the special-value rules of division and comparison are.
    Where a property depends on a sum or a mean being the exact one (a
    guard on the sign of a sum, a deviation that has to vanish), it is
    stated for columns of integers small enough for [int64] and
    [float64] to add them without wrapping or rounding ([exact_sum],
    [exact_constant]).  The module [Binary64] computes the z-scores of
    the cleaner in binary64 itself, with the kernel's floats.

    Libraries.  The code calls pandas, numpy and scipy.  Each library
    primitive used by the modelled functions ([Series.mean],
    [DataFrame.corr], boolean-mask selection, ...) is modelled in the
    modules [Py] and [Pandas] after its documented behaviour; the functions
    of the repository are then translated line by line on top of them. *)

From Stdlib Require Import Reals Lra Lia List String Ascii ZArith.
From Stdlib Require Import Sorting.Sorted Sorting.Permutation.
From Stdlib Require PrimFloat.
From stdpp Require Import gmap strings pretty.

Open Scope string_scope.
Open Scope list_scope.
Open Scope nat_scope.

(** ** Decidable comparisons on real numbers *)

#[global] Instance R_eq_dec : EqDecision R := Req_dec_T.
#[global] Instance Rlt_decision (x y : R) : Decision (x < y)%R := Rlt_dec x y.
#[global] Instance Rle_decision (x y : R) : Decision (x <= y)%R := Rle_dec x y.

(** ** Floating-point values: reals with NaN and infinities *)

Module Float.

Local Open Scope R_scope.

Inductive float : Type :=
| Fin (r : R)
| PInf
| NInf
| NaN.

#[global] Instance float_eq_dec : EqDecision float.
Proof. solve_decision. Defined.

Definition neg (x : float) : float :=
  match x with
  | Fin r => Fin (- r)
  | PInf => NInf
  | NInf => PInf
  | NaN => NaN
  end.

Definition abs (x : float) : float :=
  match x with
  | Fin r => Fin (Rabs r)
  | PInf | NInf => PInf
  | NaN => NaN
  end.

Definition add (x y : float) : float :=
  match x, y with
  | NaN, _ | _, NaN => NaN
  | Fin a, Fin b => Fin (a + b)
  | PInf, NInf | NInf, PInf => NaN
  | PInf, _ | _, PInf => PInf
  | NInf, _ | _, NInf => NInf
  end.

Definition sub (x y : float) : float := add x (neg y).

(** The sign of an infinite result: [pos] tells whether the finite
    operand is positive. *)
Definition signed_inf (pos : bool) : float := if pos then PInf else NInf.

Definition mul (x y : float) : float :=
  match x, y with
  | NaN, _ | _, NaN => NaN
  | Fin a, Fin b => Fin (a * b)
  | Fin a, PInf | PInf, Fin a =>
      if decide (a = 0) then NaN else signed_inf (bool_decide (0 < a))
  | Fin a, NInf | NInf, Fin a =>
      if decide (a = 0) then NaN else signed_inf (bool_decide (a < 0))
  | PInf, PInf | NInf, NInf => PInf
  | PInf, NInf | NInf, PInf => NInf
  end.

(** IEEE division: a finite non-zero value over zero is infinite, zero
    over zero and infinity over infinity are NaN.  No case raises. *)
Definition div (x y : float) : float :=
  match x, y with
  | NaN, _ | _, NaN => NaN
  | Fin a, Fin b =>
      if decide (b = 0)
      then (if decide (a = 0) then NaN else signed_inf (bool_decide (0 < a)))
      else Fin (a / b)
  | Fin _, (PInf | NInf) => Fin 0
  | PInf, Fin b => signed_inf (bool_decide (0 <= b))
  | NInf, Fin b => signed_inf (bool_decide (b < 0))
  | (PInf | NInf), (PInf | NInf) => NaN
  end.

Definition sqrt (x : float) : float :=
  match x with
  | Fin r => if decide (r < 0) then NaN else Fin (R_sqrt.sqrt r)
  | PInf => PInf
  | NInf | NaN => NaN
  end.

(** Comparisons: every comparison with NaN is false, except [!=]. *)
Definition ltb (x y : float) : bool :=
  match x, y with
  | NaN, _ | _, NaN => false
  | Fin a, Fin b => bool_decide (a < b)
  | NInf, (Fin _ | PInf) => true
  | Fin _, PInf => true
  | _, _ => false
  end.

Definition leb (x y : float) : bool :=
  match x, y with
  | NaN, _ | _, NaN => false
  | Fin a, Fin b => bool_decide (a <= b)
  | NInf, _ => true
  | _, PInf => true
  | _, _ => false
  end.

Definition gtb (x y : float) : bool := ltb y x.
Definition geb (x y : float) : bool := leb y x.

Definition eqb (x y : float) : bool :=
  match x, y with
  | NaN, _ | _, NaN => false
  | _, _ => bool_decide (x = y)
  end.

Definition neb (x y : float) : bool := negb (eqb x y).

(** A column cell ([None] is NaN) as a float, and back. *)
Definition of_cell (c : option R) : float :=
  match c with Some r => Fin r | None => NaN end.

(** The value stored when a float is written into a column.  Columns
    hold finite numbers or NaN, and a reduction of such a column (mean,
    median) is never infinite. *)
Definition to_cell (x : float) : option R :=
  match x with Fin r => Some r | _ => None end.

(** [np.clip(x, lo, hi)], that is [minimum(maximum(x, lo), hi)]; NaN
    stays NaN. *)
Definition clip (lo hi : R) (x : float) : float :=
  match x with
  | Fin r => Fin (Rmin hi (Rmax lo r))
  | PInf => Fin hi
  | NInf => Fin (Rmin hi lo)
  | NaN => NaN
  end.

End Float.

Export Float(float, Fin, PInf, NInf, NaN).

(** ** Python values: exceptions, results, strings, sorting *)

Module Py.

(** The exceptions the modelled code can raise. *)
Inductive exn : Type :=
| ValueError (msg : string)
| TypeError
| KeyError (key : string)
| IndexError
| ZeroDivisionError.

#[global] Instance exn_eq_dec : EqDecision exn.
Proof. solve_decision. Defined.

(** The outcome of a call: a returned value or a raised exception. *)
Inductive result (A : Type) : Type :=
| Ok (a : A)
| Raise (e : exn).

Arguments Ok {A} a.
Arguments Raise {A} e.

#[global] Instance result_ret : MRet result := @Ok.
#[global] Instance result_bind : MBind result :=
  λ A B k m, match m with Ok a => k a | Raise e => Raise e end.

(** [for x in l: acc = body(x, acc)], stopping at the first exception. *)
Fixpoint for_each {A S} (l : list A) (body : A → S → result S) (acc : S)
  : result S :=
  match l with
  | [] => Ok acc
  | x :: l' => acc' ← body x acc; for_each l' body acc'
  end.

(** [[f(x) for x in l]], stopping at the first exception. *)
Fixpoint map_result {A B} (f : A → result B) (l : list A) : result (list B) :=
  match l with
  | [] => Ok []
  | x :: l' =>
      y ← f x; ys ← map_result f l'; Ok (y :: ys)
  end.

(** [range(lo, hi)]. *)
Definition range (lo hi : nat) : list nat := seq lo (hi - lo).

(** [s.replace(old, new)]: every non-overlapping occurrence of [old],
    scanning from the left.  [skip] counts the characters of a matched
    occurrence still to be dropped. *)
Fixpoint replace_from (old new : string) (skip : nat) (s : string) : string :=
  match s with
  | EmptyString => EmptyString
  | String c s' =>
      match skip with
      | S k => replace_from old new k s'
      | O =>
          if String.prefix old s
          then new +:+ replace_from old new (String.length old - 1) s'
          else String c (replace_from old new 0 s')
      end
  end.

Fixpoint intersperse_all (new : string) (s : string) : string :=
  match s with
  | EmptyString => new
  | String c s' => new +:+ String c (intersperse_all new s')
  end.

Definition replace (old new s : string) : string :=
  match old with
  | EmptyString => intersperse_all new s
  | _ => replace_from old new 0 s
  end.

(** [l.sort(key=key, reverse=True)]: a stable sort, greatest key first;
    elements with equal keys keep their relative order.  [x] is placed
    before the first element whose key is not greater than its own. *)
Section Sort.
Context {A : Type} (key : A → float).

Fixpoint insert_desc (x : A) (l : list A) : list A :=
  match l with
  | [] => [x]
  | y :: l' =>
      if Float.gtb (key y) (key x) then y :: insert_desc x l'
      else x :: y :: l'
  end.

Fixpoint sort_desc (l : list A) : list A :=
  match l with
  | [] => []
  | x :: l' => insert_desc x (sort_desc l')
  end.
End Sort.

(** [s.lower()] on ASCII text: the letters A-Z become a-z, every other
    character stays.  (Python also lowercases the letters outside
    ASCII; [ascii_text] marks the strings on which the two agree.) *)
Definition lower_char (c : ascii) : ascii :=
  if decide (65 ≤ nat_of_ascii c ≤ 90)
  then ascii_of_nat (nat_of_ascii c + 32) else c.

Fixpoint lower (s : string) : string :=
  match s with
  | EmptyString => EmptyString
  | String c s' => String (lower_char c) (lower s')
  end.

Fixpoint ascii_text (s : string) : bool :=
  match s with
  | EmptyString => true
  | String c s' => bool_decide (nat_of_ascii c < 128) && ascii_text s'
  end.

End Py.

Export Py(exn, ValueError, TypeError, KeyError, IndexError, ZeroDivisionError,
          result, Ok, Raise).


(** ** pandas: series, frames and the reductions used by the pipeline *)

Module Pandas.

Local Open Scope R_scope.

(** One entry of a column.  A numeric entry is a finite number or NaN
    ([None]), a text entry is a string or a missing entry ([None]). *)
Inductive cell : Type :=
| CNum (x : option R)
| CObj (s : option string)
| CBool (b : bool).

#[global] Instance cell_eq_dec : EqDecision cell.
Proof. solve_decision. Defined.

(** A column with its dtype: [int64]/[float64], [object] or [bool]. *)
Inductive Series : Type :=
| NumSeries (xs : list (option R))
| ObjSeries (xs : list (option string))
| BoolSeries (xs : list bool).

Definition cells (s : Series) : list cell :=
  match s with
  | NumSeries xs => CNum <$> xs
  | ObjSeries xs => CObj <$> xs
  | BoolSeries xs => CBool <$> xs
  end.

Definition series_len (s : Series) : nat := length (cells s).

(** [select_dtypes(include=[np.number])] keeps the first kind only,
    [select_dtypes(include=['object'])] the second;
    [pd.api.types.is_numeric_dtype] also accepts [bool]. *)
Definition is_number (s : Series) : bool :=
  match s with NumSeries _ => true | _ => false end.

Definition is_object (s : Series) : bool :=
  match s with ObjSeries _ => true | _ => false end.

Definition is_numeric_dtype (s : Series) : bool :=
  match s with NumSeries _ | BoolSeries _ => true | ObjSeries _ => false end.

Definition is_none {A} (o : option A) : bool :=
  match o with None => true | Some _ => false end.

(** The values of a column as numbers: a [bool] column counts as 0/1,
    an entry of an [object] column that is missing as NaN. *)
Definition values (s : Series) : list (option R) :=
  match s with
  | NumSeries xs => xs
  | BoolSeries bs => (λ b : bool, Some (if b then 1 else 0)) <$> bs
  | ObjSeries xs => (λ _, None) <$> xs
  end.

(** The values a numeric reduction works on.  An [object] column
    holding a string makes the reduction raise [TypeError]; one with
    missing entries only reduces like an all-NaN column. *)
Definition numeric_values (s : Series) : result (list (option R)) :=
  match s with
  | ObjSeries xs =>
      if forallb is_none xs then Ok (values s) else Raise TypeError
  | _ => Ok (values s)
  end.

(** *** Reductions, all with [skipna=True] *)

Fixpoint nansum (xs : list (option R)) : R :=
  match xs with
  | [] => 0
  | Some x :: l => x + nansum l
  | None :: l => nansum l
  end.

Fixpoint count (xs : list (option R)) : nat :=
  match xs with
  | [] => 0%nat
  | Some _ :: l => S (count l)
  | None :: l => count l
  end.

Definition nanmean (xs : list (option R)) : float :=
  if decide (count xs = 0%nat) then NaN
  else Fin (nansum xs / INR (count xs)).

Fixpoint sum_sq_dev (avg : R) (xs : list (option R)) : R :=
  match xs with
  | [] => 0
  | Some x :: l => (avg - x) * (avg - x) + sum_sq_dev avg l
  | None :: l => sum_sq_dev avg l
  end.

(** Variance with [ddof] delta degrees of freedom; NaN when the number
    of values does not exceed [ddof]. *)
Definition nanvar (ddof : nat) (xs : list (option R)) : float :=
  let n := count xs in
  if decide (n ≤ ddof)%nat then NaN
  else Fin (sum_sq_dev (nansum xs / INR n) xs / (INR n - INR ddof)).

Definition nanstd (ddof : nat) (xs : list (option R)) : float :=
  Float.sqrt (nanvar ddof xs).

Definition dropna (xs : list (option R)) : list R :=
  omap (λ c : option R, c) xs.

Fixpoint insert_asc (x : R) (l : list R) : list R :=
  match l with
  | [] => [x]
  | y :: l' => if decide (x <= y) then x :: y :: l' else y :: insert_asc x l'
  end.

Definition sort_asc (l : list R) : list R := foldr insert_asc [] l.

Definition nanmedian (xs : list (option R)) : float :=
  let s := sort_asc (dropna xs) in
  let n := length s in
  if decide (n = 0%nat) then NaN
  else if Nat.odd n then Fin (nth (n / 2) s 0)
  else Fin ((nth (n / 2 - 1) s 0 + nth (n / 2) s 0) / 2).

Definition nanmin (xs : list (option R)) : float :=
  match dropna xs with
  | [] => NaN
  | v :: vs => Fin (foldr Rmin v vs)
  end.

Definition nanmax (xs : list (option R)) : float :=
  match dropna xs with
  | [] => NaN
  | v :: vs => Fin (foldr Rmax v vs)
  end.

(** [s.quantile(num/den)] with linear interpolation between the two
    nearest order statistics. *)
Definition nanquantile (num den : nat) (xs : list (option R)) : float :=
  let s := sort_asc (dropna xs) in
  let n := length s in
  if decide (n = 0%nat) then NaN
  else
    let h := ((n - 1) * num)%nat in
    let lo := (h / den)%nat in
    let frac := INR (h mod den) / INR den in
    let a := nth lo s 0 in
    let b := nth (Nat.min (S lo) (n - 1)) s 0 in
    Fin (a + (b - a) * frac).

(** The methods of a [Series].  Of a text column that holds strings
    [sum()] does not raise: it returns their concatenation, a [str],
    and [TypeError] is raised where that value meets a number, in a
    comparison or a quotient.  [series_sum] stands for the sum at that
    point: a caller that computes a sum before it uses it binds it
    where it is used. *)
Definition series_sum (s : Series) : result float :=
  xs ← numeric_values s; Ok (Fin (nansum xs)).
Definition series_mean (s : Series) : result float :=
  xs ← numeric_values s; Ok (nanmean xs).
Definition series_median (s : Series) : result float :=
  xs ← numeric_values s; Ok (nanmedian xs).
Definition series_std (s : Series) : result float :=
  xs ← numeric_values s; Ok (nanstd 1 xs).
Definition series_min (s : Series) : result float :=
  xs ← numeric_values s; Ok (nanmin xs).
Definition series_max (s : Series) : result float :=
  xs ← numeric_values s; Ok (nanmax xs).

(** [s < v] and [s > v] for a scalar [v] ([op] is the comparison).
    Against a NaN scalar pandas answers [False] for every row without
    comparing the entries; otherwise the entries are compared one by
    one, which raises [TypeError] on a string. *)
Definition series_compare (op : float → float → bool) (s : Series) (v : float)
  : result (list bool) :=
  match v with
  | NaN => Ok (replicate (series_len s) false)
  | _ =>
      xs ← numeric_values s;
      Ok ((λ c, op (Float.of_cell c) v) <$> (xs : list (option R)))
  end.

(** [mask.sum()] of a boolean mask *)
Definition mask_sum (mask : list bool) : nat :=
  length (filter (λ b, b = true) mask).

(** [s.isnull().sum()] *)
Definition isnull_sum (s : Series) : nat :=
  match s with
  | NumSeries xs => length (filter (λ c, c = None) xs)
  | ObjSeries xs => length (filter (λ c, c = None) xs)
  | BoolSeries _ => 0%nat
  end.

(** [s.dropna()] *)
Definition series_dropna (s : Series) : Series :=
  match s with
  | NumSeries xs => NumSeries (Some <$> dropna xs)
  | ObjSeries xs => ObjSeries (Some <$> omap (λ c : option string, c) xs)
  | BoolSeries bs => BoolSeries bs
  end.

(** Selection by a boolean mask over the same index. *)
Fixpoint mask_select {A} (mask : list bool) (xs : list A) : list A :=
  match mask, xs with
  | b :: mask', x :: xs' =>
      if b then x :: mask_select mask' xs' else mask_select mask' xs'
  | _, _ => []
  end.

Definition series_select (mask : list bool) (s : Series) : Series :=
  match s with
  | NumSeries xs => NumSeries (mask_select mask xs)
  | ObjSeries xs => ObjSeries (mask_select mask xs)
  | BoolSeries xs => BoolSeries (mask_select mask xs)
  end.

(** *** Frames *)

(** A frame: its columns in insertion order and the length of its
    index.  Rows are addressed by position. *)
Record DataFrame : Type := {
  data : list (string * Series);
  index_len : nat
}.

(** [df.columns] and [len(df)] *)
Definition columns (df : DataFrame) : list string := (data df).*1.
Definition len (df : DataFrame) : nat := index_len df.

(** Column names are unique and every column spans the index. *)
Definition wf (df : DataFrame) : Prop :=
  NoDup (columns df) ∧
  Forall (λ p, series_len p.2 = index_len df) (data df).

Fixpoint assoc {A} (k : string) (l : list (string * A)) : option A :=
  match l with
  | [] => None
  | (k', v) :: l' => if decide (k' = k) then Some v else assoc k l'
  end.

(** [c in df.columns] and [df[c]] *)
Definition has_column (df : DataFrame) (c : string) : bool :=
  bool_decide (c ∈ columns df).

Definition getitem (df : DataFrame) (c : string) : result Series :=
  match assoc c (data df) with
  | Some s => Ok s
  | None => Raise (KeyError c)
  end.

(** [df.iloc[i, j]]: row [i] of the [j]-th column. *)
Definition iloc (df : DataFrame) (i j : nat) : result cell :=
  match data df !! j with
  | Some (_, s) =>
      match cells s !! i with
      | Some c => Ok c
      | None => Raise IndexError
      end
  | None => Raise IndexError
  end.

(** The [i]-th row, as the list of its cells in column order. *)
Definition row (df : DataFrame) (i : nat) : list cell :=
  (λ p, default (CNum None) (cells p.2 !! i)) <$> data df.

Definition rows (df : DataFrame) : list (list cell) :=
  row df <$> seq 0 (index_len df).

(** [df[mask]] for a boolean mask over the index of [df]. *)
Definition select_rows (mask : list bool) (df : DataFrame) : DataFrame :=
  {| data := (λ p, (p.1, series_select mask p.2)) <$> data df;
     index_len := length (mask_select mask (seq 0 (index_len df))) |}.

Fixpoint assoc_set {A} (k : string) (v : A) (l : list (string * A))
  : list (string * A) :=
  match l with
  | [] => [(k, v)]
  | (k', v') :: l' =>
      if decide (k' = k) then (k, v) :: l' else (k', v') :: assoc_set k v l'
  end.

(** [df[c] = values] for an array of values (no index of its own): the
    lengths must agree.  (On an empty index pandas adopts the length of
    the value instead; no caller below assigns a value longer than the
    index.) *)
Definition setitem (df : DataFrame) (c : string) (s : Series)
  : result DataFrame :=
  if decide (series_len s = index_len df)
  then Ok {| data := assoc_set c s (data df); index_len := index_len df |}
  else Raise (ValueError
                ("Length of values (" +:+ pretty (series_len s) +:+
                 ") does not match length of index (" +:+
                 pretty (index_len df) +:+ ")")).

(** [df.duplicated().sum()]: the rows equal to an earlier row (NaN
    entries compare equal here); 0 for a frame without columns. *)
Fixpoint count_seen (seen : list (list cell)) (rs : list (list cell)) : nat :=
  match rs with
  | [] => 0
  | r :: rs' =>
      ((if bool_decide (r ∈ seen) then 1 else 0) + count_seen (r :: seen) rs')%nat
  end.

Definition duplicated_sum (df : DataFrame) : nat :=
  match data df with
  | [] => 0%nat
  | _ => count_seen [] (rows df)
  end.

(** [df.select_dtypes(include=[np.number]).columns] and
    [df.select_dtypes(include=['object']).columns] *)
Definition select_dtypes_number (df : DataFrame) : list string :=
  (filter (λ p, is_number p.2 = true) (data df)).*1.

Definition select_dtypes_object (df : DataFrame) : list string :=
  (filter (λ p, is_object p.2 = true) (data df)).*1.

(** [df[names]] for a list of column names. *)
Definition getitems (df : DataFrame) (names : list string) : result DataFrame :=
  cols ← Py.map_result (λ c, s ← getitem df c; Ok (c, s)) names;
  Ok {| data := cols; index_len := index_len df |}.

(** *** [DataFrame.corr] *)

Definition sumR (l : list R) : R := foldr Rplus 0 l.
Definition meanR (l : list R) : R := sumR l / INR (length l).

(** The observations on which both columns have a value. *)
Definition paired (xs ys : list (option R)) : list (R * R) :=
  omap (λ p : option R * option R,
          match p with
          | (Some a, Some b) => Some (a, b)
          | _ => None
          end) (zip xs ys).

(** Pearson's coefficient of the paired observations: the co-moment over
    the square root of the product of the two sums of squared deviations.
    NaN ([None]) without observations and when that divisor is zero. *)
Definition pearson (ps : list (R * R)) : option R :=
  if decide (length ps = 0%nat) then None
  else
    let mx := meanR ps.*1 in
    let my := meanR ps.*2 in
    let ssx := sumR ((λ p, (p.1 - mx) * (p.1 - mx)) <$> ps) in
    let ssy := sumR ((λ p, (p.2 - my) * (p.2 - my)) <$> ps) in
    let cov := sumR ((λ p, (p.1 - mx) * (p.2 - my)) <$> ps) in
    let divisor := sqrt (ssx * ssy) in
    if decide (divisor = 0) then None else Some (cov / divisor).

(** Average rank of [v] among [l]. *)
Definition rank (l : list R) (v : R) : R :=
  INR (length (filter (λ w, w < v) l)) +
  (INR (length (filter (λ w, w = v) l)) + 1) / 2.

(** Spearman: Pearson's coefficient of the ranks. *)
Definition spearman (ps : list (R * R)) : option R :=
  pearson (zip (rank ps.*1 <$> ps.*1) (rank ps.*2 <$> ps.*2)).

Fixpoint all_pairs {A} (l : list A) : list (A * A) :=
  match l with
  | [] => []
  | x :: l' => (pair x <$> l') ++ all_pairs l'
  end.

Definition clip (v : R) : R := Rmin 1 (Rmax (-1) v).

(** Kendall's tau-b ([scipy.stats.kendalltau]): NaN when all pairs are
    tied in one of the variables (in particular with fewer than two
    observations). *)
Definition kendall (ps : list (R * R)) : option R :=
  let prs := all_pairs ps in
  let tot := length prs in
  let xtie := length (filter (λ q, q.1.1 = q.2.1) prs) in
  let ytie := length (filter (λ q, q.1.2 = q.2.2) prs) in
  let con := length (filter (λ q, 0 < (q.1.1 - q.2.1) * (q.1.2 - q.2.2)) prs) in
  let dis := length (filter (λ q, (q.1.1 - q.2.1) * (q.1.2 - q.2.2) < 0) prs) in
  if decide (xtie = tot ∨ ytie = tot) then None
  else Some (clip ((INR con - INR dis)
                   / sqrt (INR tot - INR xtie) / sqrt (INR tot - INR ytie))).

Inductive corr_method : Type := Pearson | Spearman | Kendall.

Definition parse_method (method : string) : result corr_method :=
  if decide (method = "pearson") then Ok Pearson
  else if decide (method = "spearman") then Ok Spearman
  else if decide (method = "kendall") then Ok Kendall
  else Raise (ValueError
                ("method must be either 'pearson', 'spearman', 'kendall', or a callable, '"
                 +:+ method +:+ "' was supplied")).

(** The coefficient pandas computes for the columns at positions
    [lo <= hi].  Pearson and Spearman pass the later column first;
    Kendall sets the diagonal to 1.0 without computing it.  With no
    paired observation ([min_periods] is 1) the entry is NaN. *)
Definition coefficient (m : corr_method) (lo hi : nat)
    (col_lo col_hi : list (option R)) : option R :=
  match m with
  | Pearson => pearson (paired col_hi col_lo)
  | Spearman => spearman (paired col_hi col_lo)
  | Kendall =>
      if decide (length (paired col_lo col_hi) = 0%nat) then None
      else if decide (lo = hi) then Some 1
      else kendall (paired col_lo col_hi)
  end.

(** The numeric columns of a frame, and [df.corr(method=method)]: each
    coefficient is computed once, for the column pair in increasing
    order, and written to both [M[i][j]] and [M[j][i]]. *)
Definition numeric_data (df : DataFrame) : list (string * list (option R)) :=
  omap (λ p : string * Series,
          match p.2 with
          | NumSeries xs => Some (p.1, xs)
          | _ => None
          end) (data df).

Definition corr_entry (m : corr_method)
    (cols : list (string * list (option R))) (i j : nat) : option R :=
  let col k := default [] (cols.*2 !! k) in
  coefficient m (Nat.min i j) (Nat.max i j)
              (col (Nat.min i j)) (col (Nat.max i j)).

Definition corr (method : string) (df : DataFrame) : result DataFrame :=
  m ← parse_method method;
  let cols := numeric_data df in
  let K := length cols in
  Ok {| data := imap (λ j p, (p.1, NumSeries ((λ i, corr_entry m cols i j) <$> seq 0 K))) cols;
        index_len := K |}.

(** *** Missing entries of a frame *)

Definition cell_isnull (c : cell) : bool :=
  match c with
  | CNum None | CObj None => true
  | _ => false
  end.

(** [df.isnull().sum()]: the number of missing entries per column. *)
Definition isnull_report (df : DataFrame) : list (string * nat) :=
  (λ p, (p.1, isnull_sum p.2)) <$> data df.

(** [df.dropna()]: the rows without a missing entry. *)
Definition complete_mask (df : DataFrame) : list bool :=
  (λ r, forallb (λ c, negb (cell_isnull c)) r) <$> rows df.

Definition frame_dropna (df : DataFrame) : DataFrame :=
  select_rows (complete_mask df) df.

(** [s.fillna(v)]: a missing entry takes the fill value; filling with a
    missing value (NaN) changes nothing. *)
Definition fill_cell {A} (v : option A) (c : option A) : option A :=
  match c with
  | None => v
  | Some _ => c
  end.

(** [df.mean()] and [df.median()]: one value per column label. *)
Definition frame_reduce (stat : Series → result float) (df : DataFrame)
  : result (list (string * float)) :=
  Py.map_result (λ p : string * Series, v ← stat p.2; Ok (p.1, v)) (data df).

Definition frame_mean : DataFrame → result (list (string * float)) :=
  frame_reduce series_mean.

Definition frame_median : DataFrame → result (list (string * float)) :=
  frame_reduce series_median.

(** [df.fillna(value)] for a series of fill values indexed by column
    label, on a frame of numeric columns: each column is filled with the
    value under its own label; a column without one is left alone. *)
Definition frame_fillna (value : list (string * float)) (df : DataFrame)
  : DataFrame :=
  {| data := (λ p : string * Series,
                match p.2, assoc p.1 value with
                | NumSeries xs, Some v =>
                    (p.1, NumSeries (fill_cell (Float.to_cell v) <$> xs))
                | _, _ => p
                end) <$> data df;
     index_len := index_len df |}.

(** [df.fillna(text)] on a frame of [object] columns. *)
Definition frame_fillna_str (value : string) (df : DataFrame) : DataFrame :=
  {| data := (λ p : string * Series,
                match p.2 with
                | ObjSeries xs => (p.1, ObjSeries (fill_cell (Some value) <$> xs))
                | _ => p
                end) <$> data df;
     index_len := index_len df |}.

(** [df.fillna(method='ffill')]: a missing entry takes the last value
    above it in its column, and stays missing when there is none. *)
Fixpoint ffill {A} (last : option A) (xs : list (option A)) : list (option A) :=
  match xs with
  | [] => []
  | Some x :: l => Some x :: ffill (Some x) l
  | None :: l => last :: ffill last l
  end.

Definition frame_ffill (df : DataFrame) : DataFrame :=
  {| data := (λ p : string * Series,
                match p.2 with
                | NumSeries xs => (p.1, NumSeries (ffill None xs))
                | ObjSeries xs => (p.1, ObjSeries (ffill None xs))
                | BoolSeries _ => p
                end) <$> data df;
     index_len := index_len df |}.

(** [df[names] = value] for a frame [value] over the index of [df]: the
    i-th name receives the i-th column of [value]. *)
Definition setitems (df : DataFrame) (names : list string) (value : DataFrame)
  : result DataFrame :=
  if decide (length names = length (data value))
  then Py.for_each (zip names (data value))
         (λ (kv : string * (string * Series)) df, setitem df kv.1 kv.2.2) df
  else Raise (ValueError "Columns must be same length as key").

(** *** Duplicated rows *)

(** [df.duplicated()]: a row is marked when an earlier row is equal to
    it (NaN entries compare equal here). *)
Fixpoint duplicated_from (seen : list (list cell)) (rs : list (list cell))
  : list bool :=
  match rs with
  | [] => []
  | r :: rs' => bool_decide (r ∈ seen) :: duplicated_from (r :: seen) rs'
  end.

Definition duplicated (df : DataFrame) : list bool :=
  match data df with
  | [] => []
  | _ => duplicated_from [] (rows df)
  end.

(** [df.drop_duplicates()] (all columns, [keep='first']): an empty frame
    (no column or no row) is returned as it is, otherwise the marked
    rows are dropped. *)
Definition drop_duplicates (df : DataFrame) : DataFrame :=
  if bool_decide (length (data df) = 0 ∨ index_len df = 0)%nat then df
  else select_rows (negb <$> duplicated df) df.

(** *** [Series.corr] *)

(** [np.cov] of two samples ([ddof = 1]): the co-moment times
    [1 / (N - 1)], where a non-positive [N - 1] counts as 0. *)
Definition np_cov (ps : list (R * R)) (f g : R * R → R) : float :=
  let mf := meanR (f <$> ps) in
  let mg := meanR (g <$> ps) in
  let fact := INR (length ps) - 1 in
  let fact := if decide (fact <= 0) then 0 else fact in
  Float.mul (Fin (sumR ((λ p, (f p - mf) * (g p - mg)) <$> ps)))
            (Float.div (Fin 1) (Fin fact)).

(** [np.corrcoef(x, y)[0, 1]]: the covariance divided by the two
    standard deviations, one after the other, and clipped to [-1, 1]. *)
Definition np_corrcoef (ps : list (R * R)) : float :=
  let c := np_cov ps fst snd in
  let stddev_x := Float.sqrt (np_cov ps fst fst) in
  let stddev_y := Float.sqrt (np_cov ps snd snd) in
  Float.clip (-1) 1 (Float.div (Float.div c stddev_x) stddev_y).

(** [nanops.nancorr(a, b, method='pearson', min_periods=1)]: the
    coefficient of the observations present in both arrays. *)
Definition nancorr (a b : list (option R)) : float :=
  let ps := paired a b in
  if decide (length ps < 1)%nat then NaN else np_corrcoef ps.

End Pandas.

Export Pandas(cell, CNum, CObj, CBool, Series, NumSeries, ObjSeries, BoolSeries,
              DataFrame).

(** ** scipy *)

Module Scipy.

Local Open Scope R_scope.

(** [stats.zscore(a)] ([ddof=0], [nan_policy='propagate']): the input is
    taken as an array and the scores come back as an array of the same
    length, addressed by position. *)
Definition zscore (a : list (option R)) : list float :=
  if bool_decide (None ∈ a) then (λ _, NaN) <$> a
  else
    let v := Pandas.dropna a in
    let mn := Pandas.meanR v in
    let sd := sqrt (Pandas.sumR ((λ x, (x - mn) * (x - mn)) <$> v)
                    / INR (length v)) in
    (λ x, Float.div (Fin (x - mn)) (Fin sd)) <$> v.

End Scipy.

(** ** Configuration ([config.yaml] as loaded by [ConfigManager]) *)

(** The settings the core reads; an absent key is [None] and each
    component falls back to its own default. *)
Record Config : Type := {
  kpi_thresholds : option (gmap string (gmap string float));
  analysis_correlation_threshold : option float;
  analysis_outlier_std : option float;
  analysis_min_data_points : option Z
}.

(** ** [data/validator.py] *)

Module DataValidator.
Import Pandas.

Record t : Type := { min_data_points : Z }.

Definition init (config : Config) : t :=
  {| min_data_points := default 30%Z (analysis_min_data_points config) |}.

(** One entry of [report['numeric_stats']]. *)
Record NumericStats : Type := {
  mean : float;
  median : float;
  std : float;
  min : float;
  max : float
}.

Record QualityReport : Type := {
  total_rows : nat;
  total_columns : nat;
  missing_values : gmap string nat;
  missing_percentage : gmap string float;
  duplicate_rows : nat;
  numeric_columns : list string;
  categorical_columns : list string;
  numeric_stats : gmap string NumericStats
}.

Definition describe_column (df : DataFrame) (col : string) : result NumericStats :=
  s ← getitem df col;
  a ← series_mean s;
  m ← series_median s;
  sd ← series_std s;
  lo ← series_min s;
  hi ← series_max s;
  Ok {| mean := a; median := m; std := sd; min := lo; max := hi |}.

Definition check_data_quality (self : t) (df : DataFrame) : result QualityReport :=
  let isnull_sums : list (string * nat) :=
    (λ p, (p.1, isnull_sum p.2)) <$> data df in
  let numeric_cols := select_dtypes_number df in
  numeric_stats ←
    Py.for_each numeric_cols
      (λ col stats, st ← describe_column df col; Ok (<[col := st]> stats))
      (∅ : gmap string NumericStats);
  Ok {| total_rows := len df;
        total_columns := length (columns df);
        missing_values := list_to_map isnull_sums;
        missing_percentage :=
          list_to_map
            ((λ p : string * nat,
                (p.1, Float.mul (Float.div (Fin (INR p.2)) (Fin (INR (len df))))
                                (Fin 100%R))) <$> isnull_sums);
        duplicate_rows := duplicated_sum df;
        numeric_columns := numeric_cols;
        categorical_columns := select_dtypes_object df;
        numeric_stats := numeric_stats |}.

Definition validate_sufficient_data (self : t) (df : DataFrame) : bool * string :=
  let row_count := Z.of_nat (len df) in
  if decide (row_count < min_data_points self)%Z
  then (false,
        "Insufficient data: " +:+ pretty row_count +:+ " rows (minimum: "
        +:+ pretty (min_data_points self) +:+ ")")
  else (true, "Sufficient data: " +:+ pretty row_count +:+ " rows").

Definition validate_schema (self : t) (df : DataFrame)
    (required_columns : list string) : bool * list string :=
  let missing := filter (λ col, col ∉ columns df) required_columns in
  let is_valid := bool_decide (length missing = 0) in
  (is_valid, missing).

(** Whether the dtype of a column meets the expected type.
    [is_numeric_dtype] accepts numbers and booleans; a text column has
    dtype [object]; no column of the frames modelled here has a
    datetime dtype; under any other expectation [is_valid] stays
    [False]. *)
Definition type_valid (expected_type : string) (s : Series) : bool :=
  if decide (expected_type = "numeric") then is_numeric_dtype s
  else if decide (expected_type = "string") then is_object s
  else if decide (expected_type = "datetime") then false
  else if decide (expected_type = "boolean")
       then match s with BoolSeries _ => true | _ => false end
  else false.

Section DataTypes.
(** The name of a column's dtype as a message prints it ([float64],
    [int64], [object], [bool]). *)
Variable dtype_name : Series → string.

Definition validate_data_types (self : t) (df : DataFrame)
    (type_spec : list (string * string)) : bool * gmap string string :=
  let mismatches :=
    foldl (λ (mismatches : gmap string string) (item : string * string),
             let col := item.1 in
             let expected_type := item.2 in
             match assoc col (data df) with
             | None => mismatches
             | Some s =>
                 if type_valid expected_type s then mismatches
                 else <[col := "Expected " +:+ expected_type +:+ ", got "
                               +:+ dtype_name s]> mismatches
             end) ∅ type_spec in
  (bool_decide (size mismatches = 0), mismatches).
End DataTypes.

(** [((df[col] < min_val) | (df[col] > max_val)).sum()] *)
Definition validate_value_ranges (self : t) (df : DataFrame)
    (range_spec : list (string * (float * float)))
  : result (bool * gmap string nat) :=
  violations ←
    Py.for_each range_spec
      (λ (item : string * (float * float)) (violations : gmap string nat),
         let col := item.1 in
         let min_val := item.2.1 in
         let max_val := item.2.2 in
         if negb (has_column df col) then Ok violations
         else
           s ← getitem df col;
           below ← series_compare Float.ltb s min_val;
           above ← series_compare Float.gtb s max_val;
           let out_of_range := mask_sum (zip_with orb below above) in
           if decide (0 < out_of_range)
           then Ok (<[col := out_of_range]> violations)
           else Ok violations)
      (∅ : gmap string nat);
  Ok (bool_decide (size violations = 0), violations).

(** The results of [validate_all]; the entry [schema_valid] exists only
    when required columns were given. *)
Record ValidationResults : Type := {
  quality_report : QualityReport;
  sufficient_data : bool * string;
  schema_valid : option (bool * list string)
}.

Definition validate_all (self : t) (df : DataFrame)
    (required_columns : option (list string)) : result ValidationResults :=
  quality_report ← check_data_quality self df;
  let sufficient_data := validate_sufficient_data self df in
  (* [if required_columns:] holds for a list that is not empty *)
  let schema_valid :=
    match required_columns with
    | Some (col :: cols) => Some (validate_schema self df (col :: cols))
    | _ => None
    end in
  Ok {| quality_report := quality_report;
        sufficient_data := sufficient_data;
        schema_valid := schema_valid |}.

End DataValidator.

(** ** [data/cleaner.py] *)

Module DataCleaner.
Import Pandas.

Record t : Type := { outlier_std : float }.

Definition init (config : Config) : t :=
  {| outlier_std := default (Fin 3%R) (analysis_outlier_std config) |}.

(** [np.abs((df[col] - df[col].mean()) / df[col].std())] *)
Definition z_scores (xs : list (option R)) : list float :=
  (λ c, Float.abs (Float.div (Float.sub (Float.of_cell c) (nanmean xs))
                             (nanstd 1 xs))) <$> xs.

Definition outlier_mask (self : t) (xs : list (option R)) : list bool :=
  (λ z, Float.gtb z (outlier_std self)) <$> z_scores xs.

Definition detect_outliers (self : t) (df : DataFrame)
    (columns : option (list string)) : gmap string (list bool) :=
  let columns := default (select_dtypes_number df) columns in
  foldl (λ (outliers : gmap string (list bool)) col,
           match assoc col (data df) with
           | Some s =>
               if is_numeric_dtype s
               then <[col := outlier_mask self (values s)]> outliers
               else outliers
           | None => outliers
           end) ∅ columns.

Definition remove_outliers (self : t) (df : DataFrame)
    (columns : option (list string)) : DataFrame :=
  let outliers := detect_outliers self df columns in
  let mask :=
    map_fold (λ (col : string) (outlier_mask : list bool) (mask : list bool),
                zip_with andb mask (negb <$> outlier_mask))
             (replicate (len df) true) outliers in
  select_rows mask df.

(** [df_copy[numeric_cols] =
       df_copy[numeric_cols].fillna(df_copy[numeric_cols].mean())],
    and the same with [median()]: [stat] is the reduction. *)
Definition fill_numeric (stat : DataFrame → result (list (string * float)))
    (df_copy : DataFrame) : result DataFrame :=
  let numeric_cols := select_dtypes_number df_copy in
  sub ← getitems df_copy numeric_cols;
  value ← stat sub;
  setitems df_copy numeric_cols (frame_fillna value sub).

(** [df_copy[categorical_cols] =
       df_copy[categorical_cols].fillna('Unknown')] *)
Definition fill_categorical (df_copy : DataFrame) : result DataFrame :=
  let categorical_cols := select_dtypes_object df_copy in
  sub ← getitems df_copy categorical_cols;
  setitems df_copy categorical_cols (frame_fillna_str "Unknown" sub).

Definition handle_missing_values (self : t) (df : DataFrame)
    (strategy : string) : result DataFrame :=
  let df_copy := df in
  let missing_report := isnull_report df_copy in
  if decide (sum_list missing_report.*2 = 0) then Ok df_copy
  else if decide (strategy = "drop") then Ok (frame_dropna df_copy)
  else if decide (strategy = "mean") then fill_numeric frame_mean df_copy
  else if decide (strategy = "median") then fill_numeric frame_median df_copy
  else if decide (strategy = "forward_fill") then Ok (frame_ffill df_copy)
  else if decide (strategy = "auto") then
    df_copy ← fill_numeric frame_median df_copy;
    fill_categorical df_copy
  else Ok df_copy.

(** [remove_duplicates] with its default [subset=None]: whole rows are
    compared. *)
Definition remove_duplicates (self : t) (df : DataFrame) : DataFrame :=
  drop_duplicates df.

(** [df.columns.str.lower().str.replace(' ', '_').str.replace('-', '_')] *)
Definition standard_name (name : string) : string :=
  Py.replace "-" "_" (Py.replace " " "_" (Py.lower name)).

Definition standardize_column_names (self : t) (df : DataFrame) : DataFrame :=
  let df_copy := df in
  {| data := (λ p : string * Series, (standard_name p.1, p.2)) <$> data df_copy;
     index_len := index_len df_copy |}.

(** The flag [remove_outliers'] is the parameter [remove_outliers] of
    the source, which there hides the method of the same name. *)
Definition clean_data (self : t) (df : DataFrame) (remove_outliers' : bool)
  : result DataFrame :=
  let df_clean := standardize_column_names self df in
  let df_clean := remove_duplicates self df_clean in
  df_clean ← handle_missing_values self df_clean "auto";
  let df_clean :=
    if remove_outliers' then remove_outliers self df_clean None
    else df_clean in
  Ok df_clean.

End DataCleaner.

(** *** The z-scores in binary64

    The line [np.abs((df[col] - df[col].mean()) / df[col].std())] of
    [detect_outliers] and the comparison with [outlier_std], computed
    with the kernel's binary64 floats for a column without missing
    entries.  The mean is the running sum of the values over their
    number; the variance is the sum of the squared differences from
    the mean over the number of values less one ([ddof = 1]), as
    pandas computes both; with fewer than eight values numpy adds a
    column from left to right. *)

Module Binary64.
Import PrimFloat.

(** The number of values as a float (exact for the sizes used). *)
Definition of_nat (n : nat) : float := Nat.iter n (λ x, x + 1)%float 0%float.

(** [values.sum()] *)
Definition np_sum (xs : list float) : float := foldl add 0%float xs.

(** [df[col].mean()] *)
Definition mean (xs : list float) : float :=
  (np_sum xs / of_nat (length xs))%float.

(** [nanops.nanvar]: [avg = values.sum() / count],
    [sqr = (avg - values) ** 2], [sqr.sum() / (count - ddof)] *)
Definition var (ddof : nat) (xs : list float) : float :=
  let avg := mean xs in
  let sqr := (λ x, (avg - x) * (avg - x))%float <$> xs in
  (np_sum sqr / of_nat (length xs - ddof))%float.

(** [df[col].std()] *)
Definition std (xs : list float) : float := sqrt (var 1 xs).

(** [np.abs((df[col] - df[col].mean()) / df[col].std())] *)
Definition z_scores (xs : list float) : list float :=
  (λ x, abs ((x - mean xs) / std xs))%float <$> xs.

(** [z_scores > self.outlier_std] *)
Definition outlier_mask (outlier_std : float) (xs : list float) : list bool :=
  (λ z, ltb outlier_std z) <$> z_scores xs.


End Binary64.

(** ** [analysis/kpi.py] *)

Module KPIAnalyzer.
Import Pandas.

Record t : Type := { thresholds : gmap string (gmap string float) }.

Definition init (config : Config) : t :=
  {| thresholds := default ∅ (kpi_thresholds config) |}.

(** The body of [calculate_performance_kpis], one definition per block
    of the function; each block adds its indicators to [kpis]. *)

(* Average Handle Time (AHT) *)
Definition handle_time_kpis (df : DataFrame) (kpis : gmap string float)
  : result (gmap string float) :=
  if has_column df "handle_time" then
    s ← getitem df "handle_time";
    aht ← series_mean s;
    aht_median ← series_median s;
    aht_std ← series_std s;
    Ok (<["aht_std" := aht_std]>
          (<["aht_median" := aht_median]> (<["aht" := aht]> kpis)))
  else Ok kpis.

(* First Call Resolution (FCR) *)
Definition fcr_kpis (df : DataFrame) (kpis : gmap string float)
  : result (gmap string float) :=
  if has_column df "first_call_resolution" then
    s ← getitem df "first_call_resolution";
    fcr_rate ← series_mean s;
    Ok (<["fcr_rate" := fcr_rate]> kpis)
  else Ok kpis.

(* Service Level: the condition of the conditional expression is
   evaluated first, the quotient only when it holds. *)
Definition service_level_kpis (df : DataFrame) (kpis : gmap string float)
  : result (gmap string float) :=
  if has_column df "calls_offered" && has_column df "calls_answered" then
    offered ← getitem df "calls_offered";
    sum_offered ← series_sum offered;
    if Float.gtb sum_offered (Fin 0%R) then
      answered ← getitem df "calls_answered";
      sum_answered ← series_sum answered;
      sum_offered' ← series_sum offered;
      Ok (<["service_level" := Float.div sum_answered sum_offered']> kpis)
    else Ok (<["service_level" := Fin 0%R]> kpis)
  else Ok kpis.

(* Occupancy Rate: both sums are computed first; the sum of the
   logged time is used in the comparison, that of the productive time
   only in the quotient. *)
Definition occupancy_kpis (df : DataFrame) (kpis : gmap string float)
  : result (gmap string float) :=
  if has_column df "logged_time" && has_column df "productive_time" then
    logged ← getitem df "logged_time";
    let total_logged := series_sum logged in
    productive ← getitem df "productive_time";
    let total_productive := series_sum productive in
    total_logged ← total_logged;
    if Float.gtb total_logged (Fin 0%R) then
      total_productive ← total_productive;
      Ok (<["occupancy_rate" := Float.div total_productive total_logged]> kpis)
    else Ok (<["occupancy_rate" := Fin 0%R]> kpis)
  else Ok kpis.

(* Adherence (if available) *)
Definition adherence_kpis (df : DataFrame) (kpis : gmap string float)
  : result (gmap string float) :=
  if has_column df "scheduled_time" && has_column df "actual_time" then
    scheduled ← getitem df "scheduled_time";
    sum_scheduled ← series_sum scheduled;
    if Float.gtb sum_scheduled (Fin 0%R) then
      actual ← getitem df "actual_time";
      sum_actual ← series_sum actual;
      sum_scheduled' ← series_sum scheduled;
      Ok (<["adherence" := Float.div sum_actual sum_scheduled']> kpis)
    else Ok (<["adherence" := Fin 0%R]> kpis)
  else Ok kpis.

Definition calculate_performance_kpis (self : t) (df : DataFrame)
  : result (gmap string float) :=
  let kpis : gmap string float := ∅ in
  kpis ← handle_time_kpis df kpis;
  kpis ← fcr_kpis df kpis;
  kpis ← service_level_kpis df kpis;
  kpis ← occupancy_kpis df kpis;
  kpis ← adherence_kpis df kpis;
  Ok kpis.

(** One entry of the comparison returned by [compare_to_targets]. *)
Record Comparison : Type := {
  actual : float;
  target : float;
  delta : float;
  pct_delta : float;
  meets_target : bool
}.

(** [kpi_name.replace('_avg', '').replace('_rate', '')] *)
Definition target_key (kpi_name : string) : string :=
  Py.replace "_rate" "" (Py.replace "_avg" "" kpi_name).

Definition compare (value target : float) : Comparison :=
  let delta := Float.sub value target in
  let pct_delta :=
    if Float.neb target (Fin 0%R)
    then Float.mul (Float.div delta target) (Fin 100%R)
    else Fin 0%R in
  {| actual := value;
     target := target;
     delta := delta;
     pct_delta := pct_delta;
     meets_target := Float.geb value target |}.

Definition compare_to_targets (self : t) (kpis : gmap string float)
    (kpi_type : string) : gmap string Comparison :=
  let targets := default ∅ (thresholds self !! kpi_type) in
  map_fold (λ (kpi_name : string) (value : float)
              (comparisons : gmap string Comparison),
              let target_key := target_key kpi_name in
              match targets !! target_key with
              | Some target => <[kpi_name := compare value target]> comparisons
              | None => comparisons
              end) ∅ kpis.

(** The spec's reading of the key resolution: a trailing [_avg], then a
    trailing [_rate], is cut off the indicator name. *)
Definition strip_suffix (suffix s : string) : string :=
  let n := String.length s in
  let k := String.length suffix in
  if decide ((k ≤ n)%nat ∧ String.substring (n - k) k s = suffix)
  then String.substring 0 (n - k) s
  else s.

Definition suffix_stripped (kpi_name : string) : string :=
  strip_suffix "_rate" (strip_suffix "_avg" kpi_name).

Section Trends.
(** The pandas time-series pipeline that follows the column check
    ([to_datetime], [set_index], [resample(period).agg], [rolling]) is
    taken as a parameter. *)
Variable resample_trend : DataFrame → string → string → string → result DataFrame.

Definition analyze_trends (self : t) (df : DataFrame)
    (date_column metric_column period : string) : result DataFrame :=
  if negb (has_column df date_column) || negb (has_column df metric_column)
  then Raise (ValueError ("Columns " +:+ date_column +:+ " or "
                          +:+ metric_column +:+ " not found"))
  else resample_trend df date_column metric_column period.
End Trends.

(** The body of [calculate_quality_kpis], block by block. *)

(* QA Score *)
Definition qa_score_kpis (df : DataFrame) (kpis : gmap string float)
  : result (gmap string float) :=
  if has_column df "qa_score" then
    s ← getitem df "qa_score";
    qa_score_avg ← series_mean s;
    qa_score_median ← series_median s;
    qa_score_std ← series_std s;
    Ok (<["qa_score_std" := qa_score_std]>
          (<["qa_score_median" := qa_score_median]>
             (<["qa_score_avg" := qa_score_avg]> kpis)))
  else Ok kpis.

(* CSAT Score *)
Definition csat_kpis (df : DataFrame) (kpis : gmap string float)
  : result (gmap string float) :=
  if has_column df "csat_score" then
    s ← getitem df "csat_score";
    csat_avg ← series_mean s;
    csat_median ← series_median s;
    Ok (<["csat_median" := csat_median]> (<["csat_avg" := csat_avg]> kpis))
  else Ok kpis.

(* NPS Score *)
Definition nps_kpis (df : DataFrame) (kpis : gmap string float)
  : result (gmap string float) :=
  if has_column df "nps_score" then
    s ← getitem df "nps_score";
    nps_avg ← series_mean s;
    Ok (<["nps_avg" := nps_avg]> kpis)
  else Ok kpis.

(* Compliance Rate *)
Definition compliance_kpis (df : DataFrame) (kpis : gmap string float)
  : result (gmap string float) :=
  if has_column df "compliance_pass" then
    s ← getitem df "compliance_pass";
    compliance_rate ← series_mean s;
    Ok (<["compliance_rate" := compliance_rate]> kpis)
  else Ok kpis.

(* Error Rate: both sums are computed first; the sum of the
   interactions is used in the comparison, that of the errors only in
   the quotient. *)
Definition error_rate_kpis (df : DataFrame) (kpis : gmap string float)
  : result (gmap string float) :=
  if has_column df "error_count" && has_column df "total_interactions" then
    errors ← getitem df "error_count";
    let total_errors := series_sum errors in
    interactions ← getitem df "total_interactions";
    let total_interactions := series_sum interactions in
    total_interactions ← total_interactions;
    if Float.gtb total_interactions (Fin 0%R) then
      total_errors ← total_errors;
      Ok (<["error_rate" := Float.div total_errors total_interactions]> kpis)
    else Ok (<["error_rate" := Fin 0%R]> kpis)
  else Ok kpis.

Definition calculate_quality_kpis (self : t) (df : DataFrame)
  : result (gmap string float) :=
  let kpis : gmap string float := ∅ in
  kpis ← qa_score_kpis df kpis;
  kpis ← csat_kpis df kpis;
  kpis ← nps_kpis df kpis;
  kpis ← compliance_kpis df kpis;
  kpis ← error_rate_kpis df kpis;
  Ok kpis.

Definition calculate_all_kpis (self : t) (df : DataFrame)
  : result (gmap string (gmap string float)) :=
  performance ← calculate_performance_kpis self df;
  quality ← calculate_quality_kpis self df;
  Ok (<["quality" := quality]> (<["performance" := performance]> ∅)).

End KPIAnalyzer.

(** ** [analysis/correlation.py] *)

Module CorrelationAnalyzer.
Import Pandas.

Record t : Type := { correlation_threshold : float }.

Definition init (config : Config) : t :=
  {| correlation_threshold :=
       default (Fin 0.3%R) (analysis_correlation_threshold config) |}.

Definition calculate_correlation_matrix (self : t) (df : DataFrame)
    (method : string) : result DataFrame :=
  let numeric_cols := select_dtypes_number df in
  sub ← getitems df numeric_cols;
  corr method sub.

(** The value read from the matrix as a number; [abs] of a string or of
    a missing text entry raises. *)
Definition corr_value (c : cell) : result float :=
  match c with
  | CNum x => Ok (Float.of_cell x)
  | CBool b => Ok (Fin (if b then 1%R else 0%R))
  | CObj _ => Raise TypeError
  end.

Definition find_strong_correlations (self : t) (corr_matrix : DataFrame)
    (threshold : option float) : result (list (string * string * float)) :=
  let threshold := default (correlation_threshold self) threshold in
  let cols := columns corr_matrix in
  strong_correlations ←
    Py.for_each (Py.range 0 (length cols))
      (λ i (acc : list (string * string * float)),
         Py.for_each (Py.range (i + 1) (length cols))
           (λ j (acc : list (string * string * float)),
              c ← iloc corr_matrix i j;
              corr_value ← corr_value c;
              if Float.geb (Float.abs corr_value) threshold
              then Ok (acc ++ [(default "" (cols !! i),
                                default "" (cols !! j), corr_value)])%list
              else Ok acc) acc) [];
  (* Sort by absolute correlation value *)
  Ok (Py.sort_desc (λ x, Float.abs x.2) strong_correlations).

Section Drivers.
(** What [Series.corr] does with a text column on the left (a
    conversion error, or the coefficient of the numbers its strings
    spell) is left open; the right-hand column is always numeric. *)
Variable corr_of_text : list (option string) → list (option R) → result float.

(** [a.corr(b)] for two columns of one frame: NaN on an empty index,
    else the Pearson coefficient of the rows where both have a value. *)
Definition series_corr (a b : Series) : result float :=
  if decide (series_len a = 0) then Ok NaN
  else
    match a with
    | ObjSeries xs => corr_of_text xs (values b)
    | _ => Ok (nancorr (values a) (values b))
    end.

Definition identify_kpi_drivers (self : t) (df : DataFrame)
    (target_kpi : string) (min_correlation : float)
  : result (list (string * float)) :=
  if negb (has_column df target_kpi)
  then Raise (ValueError ("Target KPI '" +:+ target_kpi
                          +:+ "' not found in DataFrame"))
  else
    let numeric_cols := select_dtypes_number df in
    correlations ←
      Py.for_each numeric_cols
        (λ col (correlations : list (string * float)),
           if decide (col ≠ target_kpi) then
             target ← getitem df target_kpi;
             other ← getitem df col;
             corr ← series_corr target other;
             if Float.geb (Float.abs corr) min_correlation
             then Ok (correlations ++ [(col, corr)])%list
             else Ok correlations
           else Ok correlations) [];
    (* Sort by absolute correlation *)
    Ok (Py.sort_desc (λ x, Float.abs x.2) correlations).
End Drivers.

Section Relationships.
(** [perform_pca] (scikit-learn) is a parameter. *)
Context {PCA : Type}.
Variable perform_pca : DataFrame → nat → result PCA.

Record Relationships : Type := {
  correlation_matrix : DataFrame;
  strong_correlations : list (string * string * float);
  pca : option PCA
}.

Definition analyze_relationships (self : t) (df : DataFrame)
  : result Relationships :=
  correlation_matrix ← calculate_correlation_matrix self df "pearson";
  strong_correlations ← find_strong_correlations self correlation_matrix None;
  (* PCA if enough variables *)
  let numeric_cols := select_dtypes_number df in
  pca ← (if decide (3 ≤ length numeric_cols)
         then results ← perform_pca df 3; Ok (Some results)
         else Ok None);
  Ok {| correlation_matrix := correlation_matrix;
        strong_correlations := strong_correlations;
        pca := pca |}.
End Relationships.

End CorrelationAnalyzer.

(** ** [analysis/statistics.py] *)

Module StatisticalAnalyzer.
Import Pandas.

Definition detect_anomalies (df : DataFrame) (column method : string)
    (threshold : float) : result DataFrame :=
  let df_copy := df in
  df_copy ←
    (if decide (method = "zscore") then
       s ← getitem df_copy column;
       a ← numeric_values (series_dropna s);
       let z_scores := Float.abs <$> Scipy.zscore a in
       setitem df_copy "is_anomaly"
               (BoolSeries ((λ z, Float.gtb z threshold) <$> z_scores))
     else if decide (method = "iqr") then
       s ← getitem df_copy column;
       xs ← numeric_values s;
       let Q1 := nanquantile 1 4 xs in
       let Q3 := nanquantile 3 4 xs in
       let IQR := Float.sub Q3 Q1 in
       let lower_bound := Float.sub Q1 (Float.mul threshold IQR) in
       let upper_bound := Float.add Q3 (Float.mul threshold IQR) in
       setitem df_copy "is_anomaly"
               (BoolSeries ((λ c, Float.ltb (Float.of_cell c) lower_bound
                                  || Float.gtb (Float.of_cell c) upper_bound)
                            <$> xs))
     else Ok df_copy);
  flags ← getitem df_copy "is_anomaly";
  anomaly_count ← series_sum flags;
  Ok df_copy.

End StatisticalAnalyzer.

(** ** [utils/config.py] *)

Module ConfigManager.
Import Pandas.

(** A configuration value as [yaml.safe_load] builds it: a scalar, a
    list, or a dict with its items in insertion order.  The tree has no
    shared sub-objects. *)
#[warnings="-register-all"] Inductive value : Type :=
| VNone
| VBool (b : bool)
| VInt (n : Z)
| VFloat (x : float)
| VStr (s : string)
| VList (l : list value)
| VDict (items : list (string * value)).

(** The exceptions of [set] and [update]. *)
Inductive error : Type :=
| IndexError
| AttributeError
| TypeError.

(** [get] with its keys and its default *)
Fixpoint get (config : value) (keys : list string) (default : value) : value :=
  match keys with
  | [] => config
  | key :: keys' =>
      match config with
      | VDict items =>
          match assoc key items with
          | None | Some VNone => default
          | Some value => get value keys' default
          end
      | _ => default
      end
  end.

(** The methods that modify [self.config] return the configuration
    after the call, together with the exception raised, if any. *)

(** [config[key] = value] *)
Definition setitem (config : value) (key : string) (v : value)
  : value * option error :=
  match config with
  | VDict items => (VDict (assoc_set key v items), None)
  | _ => (config, Some TypeError)
  end.

(** [for key in keys: config = config.setdefault(key, {})], then
    [config[last] = value]. *)
Fixpoint set_from (config : value) (keys : list string) (last : string)
    (v : value) : value * option error :=
  match keys with
  | [] => setitem config last v
  | key :: keys' =>
      match config with
      | VDict items =>
          let child := default (VDict []) (assoc key items) in
          let r := set_from child keys' last v in
          (VDict (assoc_set key r.1 items), r.2)
      | _ => (config, Some AttributeError)
      end
  end.

(** [set]: the keys but the last are walked, the last one is
    assigned; without keys [keys[-1]] raises. *)
Definition set (config : value) (v : value) (keys : list string)
  : value * option error :=
  match reverse keys with
  | [] => (config, Some IndexError)
  | last :: init => set_from config (reverse init) last v
  end.

(** [deep_update(base_dict, update_dict)], by recursion on the update. *)
Fixpoint deep_update_with (upd : value) (base_dict : value) {struct upd}
  : value * option error :=
  match upd with
  | VDict update_dict =>
      (fix loop (update_dict : list (string * value)) (base_dict : value)
         {struct update_dict} : value * option error :=
         match update_dict with
         | [] => (base_dict, None)
         | (key, value) :: rest =>
             match base_dict with
             | VDict items =>
                 match value, assoc key items with
                 | VDict _, Some child =>
                     let r := deep_update_with value child in
                     let base_dict := VDict (assoc_set key r.1 items) in
                     match r.2 with
                     | Some e => (base_dict, Some e)
                     | None => loop rest base_dict
                     end
                 | _, _ => loop rest (VDict (assoc_set key value items))
                 end
             | _ => (base_dict, Some TypeError)
             end
         end) update_dict base_dict
  | _ => (base_dict, None)
  end.

Definition deep_update (base_dict : value) (update_dict : list (string * value))
  : value * option error :=
  deep_update_with (VDict update_dict) base_dict.

(** [update(updates)] *)
Definition update (config : value) (updates : list (string * value))
  : value * option error :=
  deep_update config updates.

End ConfigManager.

(** * Properties

    The vocabulary used to state the properties comes first, then the
    tables and settings of the worked scenarios, then the proofs. *)

Import Pandas.

Section Vocabulary.
Local Open Scope R_scope.

(** The columns [calculate_performance_kpis] reads. *)
Definition performance_columns : list string :=
  ["handle_time"; "first_call_resolution"; "calls_offered"; "calls_answered";
   "logged_time"; "productive_time"; "scheduled_time"; "actual_time"].

(** Every column of [cols] present in [df] has a numeric dtype. *)
Definition numeric_if_present (df : DataFrame) (cols : list string) : Prop :=
  ∀ c s, c ∈ cols → getitem df c = Ok s → is_numeric_dtype s = true.

(** A block that succeeds and leaves the entries outside [keys] alone. *)
Definition adds_only (keys : list string)
    (block : gmap string float → result (gmap string float)) : Prop :=
  ∀ kpis, ∃ kpis',
    block kpis = Ok kpis' ∧ ∀ k, k ∉ keys → kpis' !! k = kpis !! k.

(** A call whose only exceptions are those of column access. *)
Definition raises_only_type_or_key {A} (m : result A) : Prop :=
  ∀ e, m = Raise e → e = TypeError ∨ ∃ c, e = KeyError c.

(** The mask [detect_outliers] stores for column [c], if it checks it,
    and the columns it goes through. *)
Definition column_mask (self : DataCleaner.t) (df : DataFrame) (c : string)
  : option (list bool) :=
  s ← assoc c (data df);
  if is_numeric_dtype s
  then Some (DataCleaner.outlier_mask self (values s)) else None.

Definition checked_columns (df : DataFrame) (columns : option (list string))
  : list string := default (select_dtypes_number df) columns.

(** Row [i] is flagged in at least one of the masks. *)
Definition flagged (outliers : gmap string (list bool)) (i : nat) : Prop :=
  map_Exists (λ _ mask, mask !! i = Some true) outliers.

#[global] Instance flagged_dec outliers i : Decision (flagged outliers i).
Proof. unfold flagged. apply _. Defined.

(** The mask [remove_outliers] folds out of the outlier masks. *)
Definition keep_mask (n : nat) (outliers : gmap string (list bool)) : list bool :=
  map_fold (λ (col : string) (outlier_mask : list bool) (mask : list bool),
              zip_with andb mask (negb <$> outlier_mask))
           (replicate n true) outliers.

(** The number read at [M.iloc[i, j]], and the matrices all of whose
    entries above the diagonal can be read as numbers. *)
Definition read (M : DataFrame) (i j : nat) : result float :=
  c ← iloc M i j; CorrelationAnalyzer.corr_value c.

Definition readable (M : DataFrame) : Prop :=
  ∀ i j, (i < j < length (columns M))%nat → ∃ v, read M i j = Ok v.

Definition name_at (M : DataFrame) (i : nat) : string :=
  default "" (columns M !! i).

(** What the two loops of [find_strong_correlations] collect. *)
Definition strong_at (M : DataFrame) (thr : float) (i j : nat)
  : list (string * string * float) :=
  match read M i j with
  | Ok v =>
      if Float.geb (Float.abs v) thr then [(name_at M i, name_at M j, v)]
      else []
  | Raise _ => []
  end.

Definition strong_pairs (M : DataFrame) (thr : float)
  : list (string * string * float) :=
  Py.range 0 (length (columns M)) ≫= λ i,
    Py.range (i + 1) (length (columns M)) ≫= strong_at M thr i.

Definition key_ge {A} (key : A → float) (x y : A) : Prop :=
  Float.geb (key x) (key y) = true.

(** The statistics [check_data_quality] reports for a numeric column. *)
Definition stats_of (xs : list (option R)) : DataValidator.NumericStats :=
  {| DataValidator.mean := nanmean xs;
     DataValidator.median := nanmedian xs;
     DataValidator.std := nanstd 1 xs;
     DataValidator.min := nanmin xs;
     DataValidator.max := nanmax xs |}.

(** The flags the z-score branch of [detect_anomalies] assigns. *)
Definition zscore_flags (xs : list (option R)) (threshold : float) : list bool :=
  (λ z, Float.gtb z threshold)
    <$> (Float.abs <$> Scipy.zscore (Some <$> dropna xs)).

(** A column paired with itself, and its sum of squared deviations. *)
Definition diag (l : list R) : list (R * R) := (λ x, (x, x)) <$> l.

Definition sum_sq (l : list R) : R :=
  sumR ((λ x, (x - meanR l) * (x - meanR l)) <$> l).

End Vocabulary.

Section Scenarios.
Local Open Scope R_scope.

(** The settings of [_get_default_config]. *)
Definition default_config : Config :=
  {| kpi_thresholds :=
       Some {[ "performance" :=
                 {[ "aht_target" := Fin 300; "fcr_target" := Fin 0.85;
                    "service_level_target" := Fin 0.80 ]};
               "quality" :=
                 {[ "qa_score_target" := Fin 90; "csat_target" := Fin 4;
                    "nps_target" := Fin 50 ]} ]};
     analysis_correlation_threshold := Some (Fin 0.3);
     analysis_outlier_std := Some (Fin 3);
     analysis_min_data_points := Some 30%Z |}.

(** Ten rows with the same handle time. *)
Definition ten_rows : DataFrame :=
  {| data := [("handle_time", NumSeries (replicate 10 (Some 300)))];
     index_len := 10 |}.

(** [calls_offered = [100, 50]], [calls_answered = [90, 50]]. *)
Definition calls_table : DataFrame :=
  {| data := [("calls_offered", NumSeries [Some 100; Some 50]);
              ("calls_answered", NumSeries [Some 90; Some 50])];
     index_len := 2 |}.

(** A correction row: more calls taken back than offered. *)
Definition correction_table : DataFrame :=
  {| data := [("calls_offered", NumSeries [Some (-2)]);
              ("calls_answered", NumSeries [Some 1])];
     index_len := 1 |}.

(** Two rows with the same handle time. *)
Definition constant_table : DataFrame :=
  {| data := [("handle_time", NumSeries [Some 300; Some 300])];
     index_len := 2 |}.

(** Two rows, one of them without a handle time. *)
Definition gap_table : DataFrame :=
  {| data := [("handle_time", NumSeries [Some 300; None]);
              ("qa_score", NumSeries [Some 90; Some 80])];
     index_len := 2 |}.

(** A 2x2 correlation matrix. *)
Definition small_matrix : DataFrame :=
  {| data := [("handle_time", NumSeries [Some 1; Some (-0.5)]);
              ("qa_score", NumSeries [Some (-0.5); Some 1])];
     index_len := 2 |}.

(** An indicator whose name carries [_avg] in the middle. *)
Definition weekly_kpis : gmap string float :=
  {[ "csat_avg_weekly" := Fin 4.5 ]}.

Definition weekly_targets : KPIAnalyzer.t :=
  {| KPIAnalyzer.thresholds := {[ "quality" := {[ "csat_weekly" := Fin 4 ]} ]} |}.

End Scenarios.

Section ValidationVocabulary.

(** The expected types [validate_data_types] knows. *)
Definition known_types : list string :=
  ["numeric"; "string"; "datetime"; "boolean"].

(** The entries of a column that a range check counts: those below
    the minimum or above the maximum. *)
Definition out_of_range (min_val max_val : float) (xs : list (option R)) : nat :=
  length (filter (λ c, Float.ltb (Float.of_cell c) min_val
                       || Float.gtb (Float.of_cell c) max_val = true) xs).

(** A value within the bounds of a range check: neither below the
    minimum nor above the maximum. *)
Definition within (min_val max_val : float) (x : R) : Prop :=
  Float.ltb (Fin x) min_val = false ∧ Float.gtb (Fin x) max_val = false.

(** Three rows of a small contact-center extract: a numeric, a text
    and a boolean column. *)
Definition typed_table : DataFrame :=
  {| data := [("qa_score", NumSeries [Some 90%R; Some 120%R; None]);
              ("agent", ObjSeries [Some "ann"; Some "bob"; None]);
              ("compliance_pass", BoolSeries [true; false; true])];
     index_len := 3 |}.

End ValidationVocabulary.

Section CleaningVocabulary.
Local Open Scope R_scope.

(** Four calls, the third a repetition of the first. *)
Definition repeated_table : DataFrame :=
  {| data := [("handle_time", NumSeries [Some 300; Some 280; Some 300; None]);
              ("agent", ObjSeries [Some "ann"; Some "bob"; Some "ann"; None])];
     index_len := 4 |}.

End CleaningVocabulary.

Section MissingValueVocabulary.

(** The strategies [handle_missing_values] knows. *)
Definition known_strategies : list string :=
  ["drop"; "mean"; "median"; "forward_fill"; "auto"].

(** The number of missing entries of a table. *)
Definition missing_total (df : DataFrame) : nat :=
  sum_list (isnull_report df).*2.

(** The table in which every numeric column has its missing entries
    replaced by the column's own statistic [stat]. *)
Definition fill_numbers (stat : list (option R) → float) (df : DataFrame)
  : DataFrame :=
  {| data := (λ p : string * Series,
                match p.2 with
                | NumSeries xs =>
                    (p.1, NumSeries (fill_cell (Float.to_cell (stat xs)) <$> xs))
                | _ => p
                end) <$> data df;
     index_len := index_len df |}.

(** The same kind of column: numbers, text or booleans. *)
Definition same_dtype (s s' : Series) : Prop :=
  match s, s' with
  | NumSeries _, NumSeries _ | ObjSeries _, ObjSeries _
  | BoolSeries _, BoolSeries _ => True
  | _, _ => False
  end.

End MissingValueVocabulary.

Section NamingVocabulary.
Local Open Scope R_scope.

(** The characters a standardized column name is free of: the space,
    the hyphen and the ASCII capitals. *)
Definition plain_char (c : ascii) : Prop :=
  c ≠ " "%char ∧ c ≠ "-"%char ∧ ¬ (65 ≤ nat_of_ascii c ≤ 90)%nat.

(** [DataCleaner.standard_name], character by character. *)
Definition standard_char (c : ascii) : ascii :=
  let c := Py.lower_char c in
  let c := if decide (c = " "%char) then "_"%char else c in
  if decide (c = "-"%char) then "_"%char else c.

(** Column names in ASCII, the names on which [Py.lower] is Python's
    [lower]. *)
Definition ascii_names (df : DataFrame) : Prop :=
  Forall (λ c, Py.ascii_text c = true) (columns df).

(** An export with display names: two calls, the second a repetition
    of the first, a third one without agent. *)
Definition export_table : DataFrame :=
  {| data := [("Handle Time", NumSeries [Some 300; Some 300; None]);
              ("Agent-Name", ObjSeries [Some "ann"; Some "ann"; None])];
     index_len := 3 |}.

End NamingVocabulary.

Section IndicatorVocabulary.
Local Open Scope R_scope.

(** The columns [calculate_quality_kpis] reads, and the indicators the
    two KPI functions produce. *)
Definition quality_columns : list string :=
  ["qa_score"; "csat_score"; "nps_score"; "compliance_pass";
   "error_count"; "total_interactions"].

Definition performance_indicators : list string :=
  ["aht"; "aht_median"; "aht_std"; "fcr_rate"; "service_level";
   "occupancy_rate"; "adherence"].

Definition quality_indicators : list string :=
  ["qa_score_avg"; "qa_score_median"; "qa_score_std"; "csat_avg";
   "csat_median"; "nps_avg"; "compliance_rate"; "error_rate"].

(** The threshold names of the default configuration. *)
Definition default_target_names : list string :=
  ["aht_target"; "fcr_target"; "service_level_target";
   "qa_score_target"; "csat_target"; "nps_target"].

(** A block that only adds indicators among [keys]. *)
Definition adds_among (keys : list string)
    (block : gmap string float → result (gmap string float)) : Prop :=
  ∀ kpis kpis' k,
    block kpis = Ok kpis' → is_Some (kpis' !! k) →
    is_Some (kpis !! k) ∨ k ∈ keys.

(** Quality figures of three evaluations, with 4 errors in 200
    interactions. *)
Definition quality_table : DataFrame :=
  {| data := [("qa_score", NumSeries [Some 90; Some 80; None]);
              ("error_count", NumSeries [Some 1; Some 3; Some 0]);
              ("total_interactions", NumSeries [Some 50; Some 100; Some 50])];
     index_len := 3 |}.

End IndicatorVocabulary.

Section DriverVocabulary.
Local Open Scope R_scope.

(** What one round of the loop of [identify_kpi_drivers] collects for
    the numeric column [col], given the values of the target. *)
Definition driver_of (df : DataFrame) (target_kpi : string)
    (target : list (option R)) (min_correlation : float) (col : string)
  : list (string * float) :=
  match assoc col (data df) with
  | Some other =>
      if decide (col ≠ target_kpi) then
        if Float.geb (Float.abs (nancorr target (values other))) min_correlation
        then [(col, nancorr target (values other))]
        else []
      else []
  | None => []
  end.

(** Handle times against QA scores and a constant queue number. *)
Definition driver_table : DataFrame :=
  {| data := [("handle_time", NumSeries [Some 300; Some 200; Some 100]);
              ("qa_score", NumSeries [Some 70; Some 80; Some 90]);
              ("queue", NumSeries [Some 1; Some 1; Some 1])];
     index_len := 3 |}.

End DriverVocabulary.

Section MatrixVocabulary.
Local Open Scope R_scope.

(** The methods [DataFrame.corr] knows by name. *)
Definition known_methods : list string := ["pearson"; "spearman"; "kendall"].

(** A coefficient: NaN, or a number between -1 and 1. *)
Definition is_coefficient (c : result cell) : Prop :=
  c = Ok (CNum None) ∨ ∃ x, c = Ok (CNum (Some x)) ∧ -1 <= x <= 1.

End MatrixVocabulary.

Section AnomalyVocabulary.
Local Open Scope R_scope.

(** The flags the inter-quartile branch of [detect_anomalies]
    assigns: one per row. *)
Definition iqr_flags (xs : list (option R)) (threshold : float) : list bool :=
  let Q1 := nanquantile 1 4 xs in
  let Q3 := nanquantile 3 4 xs in
  let IQR := Float.sub Q3 Q1 in
  let lower_bound := Float.sub Q1 (Float.mul threshold IQR) in
  let upper_bound := Float.add Q3 (Float.mul threshold IQR) in
  (λ c, Float.ltb (Float.of_cell c) lower_bound
        || Float.gtb (Float.of_cell c) upper_bound) <$> xs.

(** The methods [detect_anomalies] implements. *)
Definition anomaly_methods : list string := ["zscore"; "iqr"].

(** Handle times with a gap and one long call. *)
Definition long_call_table : DataFrame :=
  {| data := [("handle_time",
               NumSeries [Some 100; Some 110; None; Some 120; Some 130; Some 900])];
     index_len := 6 |}.

End AnomalyVocabulary.

Section ConfigVocabulary.
Import ConfigManager.

(** What [get] returns for a stored value: the default in place of
    [None]. *)
Definition or_default (default v : value) : value :=
  match v with VNone => default | _ => v end.

(** Two paths that part at some key. *)
Definition diverge (ks keys : list string) : Prop :=
  ∃ p k ks' k' keys', ks = p ++ k :: ks' ∧ keys = p ++ k' :: keys' ∧ k ≠ k'.

(** The update has something to say about the path [ks]: walking [ks]
    through the nested dicts of the update ends inside the update, at a
    dict or at a value that replaces what was there. *)
Fixpoint mentions (upd : value) (ks : list string) {struct upd} : bool :=
  match ks, upd with
  | [], _ => true
  | k :: ks', VDict u =>
      existsb (λ p : string * value,
                 let '(k', v) := p in String.eqb k' k && mentions v ks') u
  | _ :: _, _ => true
  end.

(** The loop of [deep_update]. *)
Definition update_loop : list (string * value) → value → value * option error :=
  fix loop (update_dict : list (string * value)) (base_dict : value)
      {struct update_dict} : value * option error :=
    match update_dict with
    | [] => (base_dict, None)
    | (key, value) :: rest =>
        match base_dict with
        | VDict items =>
            match value, assoc key items with
            | VDict _, Some child =>
                let r := deep_update_with value child in
                let base_dict := VDict (assoc_set key r.1 items) in
                match r.2 with
                | Some e => (base_dict, Some e)
                | None => loop rest base_dict
                end
            | _, _ => loop rest (VDict (assoc_set key value items))
            end
        | _ => (base_dict, Some TypeError)
        end
    end.

(** The update gives the path [ks] the value [v]: the nested dicts of
    the update lead along [ks], each key once, to [v], which is no
    dict. *)
Inductive leaf_at : value → list string → value → Prop :=
| leaf_here v : (∀ u, v ≠ VDict u) → leaf_at v [] v
| leaf_below u1 k c u2 ks v :
    k ∉ u1.*1 → k ∉ u2.*1 → leaf_at c ks v →
    leaf_at (VDict (u1 ++ (k, c) :: u2)) (k :: ks) v.

(** The analysis section of the default configuration. *)
Definition analysis_config : value :=
  VDict [("analysis",
          VDict [("correlation_threshold", VFloat (Fin 0.3));
                 ("outlier_std_threshold", VInt 3)]);
         ("data", VDict [("min_records", VInt 10)])].

End ConfigVocabulary.

Section ExactnessVocabulary.
Local Open Scope R_scope.

(** A column that [int64] and [float64] add without wrapping or
    rounding: its values are integers and their absolute values add up
    to less than 2^53, so that every partial sum, in any order, is an
    integer below 2^53 in absolute value. *)
Definition exact_sum (xs : list (option R)) : Prop :=
  (∀ x, Some x ∈ xs → ∃ z : Z, x = IZR z) ∧
  nansum ((λ c : option R, Rabs <$> c) <$> xs) < 9007199254740992.

(** The columns of [cols] that the table has are added exactly. *)
Definition exactly_summed (df : DataFrame) (cols : list string) : Prop :=
  ∀ c s, c ∈ cols → assoc c (data df) = Some s → exact_sum (values s).

(** The columns behind the three ratios of the performance indicators
    and behind the error rate. *)
Definition performance_ratio_columns : list string :=
  ["calls_offered"; "calls_answered"; "logged_time"; "productive_time";
   "scheduled_time"; "actual_time"].

Definition error_rate_columns : list string :=
  ["error_count"; "total_interactions"].


End ExactnessVocabulary.

(** ** Shared facts *)

Section ColumnAccess.

Lemma assoc_Some_elem {A} (k : string) (l : list (string * A)) v :
  assoc k l = Some v → k ∈ l.*1.
Proof.
  induction l as [|[k' v'] l IH]; simpl; [done|].
  case_decide; subst; intros; [left | right; auto].
Qed.

Lemma assoc_None_not_elem {A} (k : string) (l : list (string * A)) :
  assoc k l = None ↔ k ∉ l.*1.
Proof.
  induction l as [|[k' v'] l IH]; simpl.
  - split; [intros _; apply not_elem_of_nil | done].
  - case_decide; subst.
    + split; [done | intros H; exfalso; apply H; left].
    + rewrite not_elem_of_cons, IH. naive_solver.
Qed.

Lemma assoc_elem {A} (l : list (string * A)) k v :
  assoc k l = Some v → (k, v) ∈ l.
Proof.
  induction l as [|[k' v'] l IH]; simpl; [done|].
  case_decide; intros; simplify_eq; [left | right; auto].
Qed.

Lemma assoc_NoDup {A} (l : list (string * A)) k v :
  NoDup l.*1 → (k, v) ∈ l → assoc k l = Some v.
Proof.
  induction l as [|[k' v'] l IH]; simpl; intros Hnd Hin;
    [by apply elem_of_nil in Hin|].
  apply NoDup_cons in Hnd as [Hk Hnd].
  apply elem_of_cons in Hin as [[= -> ->]|Hin].
  - by rewrite decide_True.
  - rewrite decide_False; [by apply IH|].
    intros ->. apply Hk. apply list_elem_of_fmap. by exists (k, v).
Qed.

Lemma assoc_set_lookup {A} k (v : A) l : assoc k (assoc_set k v l) = Some v.
Proof.
  induction l as [|[k' v'] l IH]; simpl.
  - by rewrite decide_True.
  - case_decide; simpl; [by rewrite decide_True | by rewrite decide_False].
Qed.

Lemma has_column_getitem df c :
  has_column df c = true ↔ ∃ s, getitem df c = Ok s.
Proof.
  unfold has_column, getitem, columns. rewrite bool_decide_eq_true.
  destruct (assoc c (data df)) as [s|] eqn:E.
  - split; [eauto | intros _; by eapply assoc_Some_elem].
  - apply assoc_None_not_elem in E. split; [done | intros [s Hs]; done].
Qed.

Lemma getitem_assoc df c s : assoc c (data df) = Some s → getitem df c = Ok s.
Proof. intros H. unfold getitem. by rewrite H. Qed.

Lemma getitem_error df c e : getitem df c = Raise e → e = KeyError c.
Proof. unfold getitem. case_match; naive_solver. Qed.

Lemma values_length s : length (values s) = series_len s.
Proof. destruct s; unfold series_len; simpl; by rewrite ?length_fmap. Qed.

Lemma numeric_values_numeric s :
  is_numeric_dtype s = true → numeric_values s = Ok (values s).
Proof. by destruct s. Qed.

Lemma numeric_values_error s e : numeric_values s = Raise e → e = TypeError.
Proof. destruct s; simpl; try done. case_match; naive_solver. Qed.

Lemma series_sum_numeric s :
  is_numeric_dtype s = true → series_sum s = Ok (Fin (nansum (values s))).
Proof. intros H. unfold series_sum. by rewrite numeric_values_numeric. Qed.

Lemma series_reduce_error s e :
  series_sum s = Raise e ∨ series_mean s = Raise e ∨ series_median s = Raise e
  ∨ series_std s = Raise e ∨ series_min s = Raise e ∨ series_max s = Raise e →
  e = TypeError.
Proof.
  unfold series_sum, series_mean, series_median, series_std, series_min,
    series_max.
  destruct (numeric_values s) eqn:E; simpl; [naive_solver|].
  apply numeric_values_error in E. naive_solver.
Qed.

Lemma bind_Raise_inv {A B} (m : result A) (k : A → result B) e :
  m ≫= k = Raise e → m = Raise e ∨ ∃ a, m = Ok a ∧ k a = Raise e.
Proof. destruct m; simpl; [eauto | intros [= ->]; auto]. Qed.

End ColumnAccess.

Section SkipNa.
Local Open Scope R_scope.

Lemma dropna_cons_Some x xs : dropna (Some x :: xs) = x :: dropna xs.
Proof. done. Qed.

Lemma dropna_cons_None xs : dropna (None :: xs) = dropna xs.
Proof. done. Qed.

Lemma dropna_present (l : list R) : dropna (Some <$> l) = l.
Proof.
  induction l as [|x l IH]; [done|].
  rewrite fmap_cons, dropna_cons_Some. by rewrite IH.
Qed.

Lemma dropna_elem xs x : x ∈ dropna xs ↔ Some x ∈ xs.
Proof.
  unfold dropna. rewrite list_elem_of_omap. split.
  - by intros (c & Hc & ->).
  - intros H. by exists (Some x).
Qed.

Lemma nansum_dropna xs : nansum (Some <$> dropna xs) = nansum xs.
Proof.
  induction xs as [|[x|] xs IH]; [done| |done].
  rewrite dropna_cons_Some, fmap_cons. simpl. by rewrite IH.
Qed.

Lemma count_dropna xs : count (Some <$> dropna xs) = count xs.
Proof.
  induction xs as [|[x|] xs IH]; [done| |done].
  rewrite dropna_cons_Some, fmap_cons. simpl. by rewrite IH.
Qed.

Lemma count_length_dropna xs : count xs = length (dropna xs).
Proof.
  induction xs as [|[x|] xs IH]; [done| |done].
  rewrite dropna_cons_Some. simpl. by rewrite IH.
Qed.

Lemma sum_sq_dev_dropna avg xs :
  sum_sq_dev avg (Some <$> dropna xs) = sum_sq_dev avg xs.
Proof.
  induction xs as [|[x|] xs IH]; [done| |done].
  rewrite dropna_cons_Some, fmap_cons. simpl. by rewrite IH.
Qed.

Lemma nanmean_dropna xs : nanmean (Some <$> dropna xs) = nanmean xs.
Proof. unfold nanmean. by rewrite nansum_dropna, count_dropna. Qed.

Lemma nanstd_dropna ddof xs : nanstd ddof (Some <$> dropna xs) = nanstd ddof xs.
Proof.
  unfold nanstd, nanvar.
  by rewrite nansum_dropna, count_dropna, sum_sq_dev_dropna.
Qed.

Lemma nanmedian_dropna xs : nanmedian (Some <$> dropna xs) = nanmedian xs.
Proof. unfold nanmedian. by rewrite dropna_present. Qed.

Lemma nanmin_dropna xs : nanmin (Some <$> dropna xs) = nanmin xs.
Proof. unfold nanmin. by rewrite dropna_present. Qed.

Lemma nanmax_dropna xs : nanmax (Some <$> dropna xs) = nanmax xs.
Proof. unfold nanmax. by rewrite dropna_present. Qed.

Lemma reductions_all_missing xs :
  dropna xs = [] →
  nanmean xs = NaN ∧ nanmedian xs = NaN ∧ nanstd 1 xs = NaN
  ∧ nanmin xs = NaN ∧ nanmax xs = NaN.
Proof.
  intros H. unfold nanmean, nanmedian, nanstd, nanvar, nanmin, nanmax.
  rewrite count_length_dropna, H. simpl. done.
Qed.

Lemma dropna_length_le xs : (length (dropna xs) ≤ length xs)%nat.
Proof.
  induction xs as [|[x|] xs IH]; [done| |].
  - rewrite dropna_cons_Some. simpl. lia.
  - rewrite dropna_cons_None. simpl. lia.
Qed.

Lemma dropna_length_missing xs :
  None ∈ xs → (length (dropna xs) < length xs)%nat.
Proof.
  induction xs as [|[x|] xs IH]; intros H.
  - by apply elem_of_nil in H.
  - apply elem_of_cons in H as [?|H]; [done|].
    rewrite dropna_cons_Some. simpl. apply IH in H. lia.
  - rewrite dropna_cons_None. simpl. pose proof (dropna_length_le xs). lia.
Qed.

Lemma dropna_length_complete xs : None ∉ xs → length (dropna xs) = length xs.
Proof.
  induction xs as [|[x|] xs IH]; intros H; [done| |].
  - rewrite dropna_cons_Some. simpl. f_equal. apply IH.
    intros Hin. apply H. by right.
  - exfalso. apply H. left.
Qed.

End SkipNa.

(** Well-formedness of the scenario tables. *)
Ltac solve_wf :=
  split;
  [ unfold columns; simpl; repeat (apply NoDup_cons; split; [set_solver|]);
    apply NoDup_nil_2
  | repeat constructor ].

(** A column given by its entries is added exactly; so are the listed
    columns of a table given by its columns. *)
Ltac solve_exact_sum :=
  unfold exact_sum; split;
  [ let x := fresh "x" in
    let Hx := fresh "Hx" in
    intros x Hx; cbn [values] in Hx;
    repeat (apply elem_of_cons in Hx as [Hx|Hx];
            [injection Hx as ->; eexists; reflexivity|]);
    by apply elem_of_nil in Hx
  | cbn [values fmap list_fmap option_fmap option_map nansum];
    rewrite ?Rabs_pos_eq by lra; lra ].

Ltac solve_exactly_summed :=
  let c := fresh "c" in
  let s := fresh "s" in
  let Hc := fresh "Hc" in
  let Hs := fresh "Hs" in
  intros c s Hc Hs;
  unfold performance_ratio_columns, error_rate_columns in Hc;
  repeat (apply elem_of_cons in Hc as [->|Hc]);
  try (by apply elem_of_nil in Hc);
  cbv -[IZR R0 R1] in Hs;
  first [discriminate Hs | injection Hs as <-; solve_exact_sum].

Lemma ten_rows_wf : wf ten_rows.
Proof. solve_wf. Qed.

Lemma calls_table_wf : wf calls_table.
Proof. solve_wf. Qed.

Lemma constant_table_wf : wf constant_table.
Proof. solve_wf. Qed.

Lemma gap_table_wf : wf gap_table.
Proof. solve_wf. Qed.

(** ** Validator: the sufficiency gate *)

Section Sufficiency.
Import DataValidator.

(** C9.  Below the configured minimum [validate_sufficient_data] returns
    [False] with the message "Insufficient data: <rows> rows (minimum:
    <minimum>)"; from the minimum on it returns [True]; with a minimum
    of 30 and 10 rows the message is "Insufficient data: 10 rows
    (minimum: 30)". *)
Theorem validate_sufficient_data_gate (self : DataValidator.t) (df : DataFrame) :
  ((Z.of_nat (len df) < min_data_points self)%Z →
   validate_sufficient_data self df =
     (false, "Insufficient data: " +:+ pretty (Z.of_nat (len df))
             +:+ " rows (minimum: " +:+ pretty (min_data_points self) +:+ ")"))
  ∧ ((min_data_points self ≤ Z.of_nat (len df))%Z →
     (validate_sufficient_data self df).1 = true)
  ∧ (len df = 10 → min_data_points self = 30%Z →
     validate_sufficient_data self df =
       (false, "Insufficient data: 10 rows (minimum: 30)")).
Proof.
  unfold validate_sufficient_data. repeat split.
  - intros H. by rewrite decide_True.
  - intros H. by rewrite decide_False by lia.
  - intros Hlen Hmin. rewrite Hlen, Hmin. rewrite decide_True by lia.
    vm_compute. done.
Qed.

Lemma validate_sufficient_data_gate_witness :
  validate_sufficient_data (DataValidator.init default_config) ten_rows
  = (false, "Insufficient data: 10 rows (minimum: 30)").
Proof.
  apply (validate_sufficient_data_gate (DataValidator.init default_config) ten_rows);
    reflexivity.
Defined.

End Sufficiency.

(** ** KPI analyzer: trends need both columns *)

Section Trends.
Import KPIAnalyzer.

(** C6.  When the date column or the metric column is not a column of
    the table, [analyze_trends] raises the error of a missing column
    (a [ValueError] naming both columns), whatever the resampling
    pipeline would do. *)
Theorem analyze_trends_missing_column
    (resample_trend : DataFrame → string → string → string → result DataFrame)
    (self : KPIAnalyzer.t) (df : DataFrame)
    (date_column metric_column period : string) :
  date_column ∉ columns df ∨ metric_column ∉ columns df →
  analyze_trends resample_trend self df date_column metric_column period
  = Raise (ValueError ("Columns " +:+ date_column +:+ " or "
                       +:+ metric_column +:+ " not found")).
Proof.
  intros H. unfold analyze_trends, has_column.
  destruct H as [H|H]; rewrite (bool_decide_eq_false_2 _ H);
    [done | by rewrite orb_true_r].
Qed.

Lemma analyze_trends_missing_column_witness :
  analyze_trends (λ df _ _ _, Ok df) (KPIAnalyzer.init default_config)
                 ten_rows "date" "handle_time" "D"
  = Raise (ValueError "Columns date or handle_time not found").
Proof.
  apply (analyze_trends_missing_column (λ df _ _ _, Ok df)
           (KPIAnalyzer.init default_config) ten_rows "date" "handle_time" "D").
  left. unfold columns, ten_rows. simpl.
  rewrite list_elem_of_singleton. discriminate.
Defined.

End Trends.

(** ** KPI analyzer: the service level *)

Section ServiceLevel.
Import KPIAnalyzer.
Local Open Scope R_scope.

Ltac present df c Hnum s Hs Hn :=
  let Hc := fresh "Hc" in
  destruct (has_column df c) eqn:Hc; simpl;
  [ apply has_column_getitem in Hc as [s Hs];
    assert (Hn : is_numeric_dtype s = true)
      by (apply (Hnum c s); [unfold performance_columns; set_solver | done]);
    rewrite ?Hs; simpl
  | ].

Ltac lookup_other :=
  intros; rewrite ?lookup_insert_ne by (intros ?; subst; set_solver); done.

Lemma handle_time_adds df :
  numeric_if_present df performance_columns →
  adds_only ["aht"; "aht_median"; "aht_std"] (handle_time_kpis df).
Proof.
  intros Hnum kpis. unfold handle_time_kpis.
  present df "handle_time" Hnum s Hs Hn; [|eauto].
  unfold series_mean, series_median, series_std.
  rewrite (numeric_values_numeric s Hn). simpl.
  eexists; split; [done|]. lookup_other.
Qed.

Lemma fcr_adds df :
  numeric_if_present df performance_columns →
  adds_only ["fcr_rate"] (fcr_kpis df).
Proof.
  intros Hnum kpis. unfold fcr_kpis.
  present df "first_call_resolution" Hnum s Hs Hn; [|eauto].
  unfold series_mean. rewrite (numeric_values_numeric s Hn). simpl.
  eexists; split; [done|]. lookup_other.
Qed.

Lemma occupancy_adds df :
  numeric_if_present df performance_columns →
  adds_only ["occupancy_rate"] (occupancy_kpis df).
Proof.
  intros Hnum kpis. unfold occupancy_kpis.
  present df "logged_time" Hnum s Hs Hn; [|eauto].
  present df "productive_time" Hnum s' Hs' Hn'; [|eauto].
  rewrite !series_sum_numeric by done. simpl.
  case_match; simpl.
  - eexists; split; [done|]. lookup_other.
  - eexists; split; [done|]. lookup_other.
Qed.

Lemma adherence_adds df :
  numeric_if_present df performance_columns →
  adds_only ["adherence"] (adherence_kpis df).
Proof.
  intros Hnum kpis. unfold adherence_kpis.
  present df "scheduled_time" Hnum s Hs Hn; [|eauto].
  present df "actual_time" Hnum s' Hs' Hn'; [|eauto].
  rewrite !series_sum_numeric by done. simpl.
  case_match; simpl.
  - rewrite ?series_sum_numeric by done. simpl.
    eexists; split; [done|]. lookup_other.
  - eexists; split; [done|]. lookup_other.
Qed.

Lemma service_level_sets df offered answered kpis :
  getitem df "calls_offered" = Ok offered →
  getitem df "calls_answered" = Ok answered →
  is_numeric_dtype offered = true → is_numeric_dtype answered = true →
  ∃ kpis', service_level_kpis df kpis = Ok kpis' ∧
    kpis' !! "service_level"
    = Some (if decide (0 < nansum (values offered))
            then Fin (nansum (values answered) / nansum (values offered))
            else Fin 0).
Proof.
  intros Ho Ha Hno Hna. unfold service_level_kpis.
  assert (Hco : has_column df "calls_offered" = true)
    by (apply has_column_getitem; eauto).
  assert (Hca : has_column df "calls_answered" = true)
    by (apply has_column_getitem; eauto).
  rewrite Hco, Hca, Ho. simpl. rewrite series_sum_numeric by done. simpl.
  unfold Float.gtb, Float.ltb.
  destruct (decide (0 < nansum (values offered))) as [Hpos|Hneg].
  - rewrite bool_decide_eq_true_2 by done. rewrite Ha. simpl.
    rewrite !series_sum_numeric by done. simpl.
    eexists; split; [done|]. rewrite lookup_insert_eq.
    unfold Float.div. rewrite decide_False by lra. done.
  - rewrite bool_decide_eq_false_2 by done.
    eexists; split; [done|]. by rewrite lookup_insert_eq.
Qed.

Lemma service_level_run (self : KPIAnalyzer.t) (df : DataFrame)
    (offered answered : Series) :
  getitem df "calls_offered" = Ok offered →
  getitem df "calls_answered" = Ok answered →
  numeric_if_present df performance_columns →
  ∃ kpis, calculate_performance_kpis self df = Ok kpis ∧
    kpis !! "service_level"
    = Some (if decide (0 < nansum (values offered))
            then Fin (nansum (values answered) / nansum (values offered))
            else Fin 0).
Proof.
  intros Ho Ha Hnum.
  assert (Hno : is_numeric_dtype offered = true)
    by (apply (Hnum "calls_offered");
        [unfold performance_columns; set_solver | done]).
  assert (Hna : is_numeric_dtype answered = true)
    by (apply (Hnum "calls_answered");
        [unfold performance_columns; set_solver | done]).
  unfold calculate_performance_kpis.
  destruct (handle_time_adds df Hnum ∅) as (k1 & -> & _). simpl.
  destruct (fcr_adds df Hnum k1) as (k2 & -> & _). simpl.
  destruct (service_level_sets df offered answered k2 Ho Ha Hno Hna)
    as (k3 & -> & H3). simpl.
  destruct (occupancy_adds df Hnum k3) as (k4 & -> & H4). simpl.
  destruct (adherence_adds df Hnum k4) as (k5 & -> & H5). simpl.
  eexists; split; [done|].
  rewrite H5, H4 by set_solver. done.
Qed.

(** No block divides: the only exceptions of the function are those of
    the column reductions. *)
Ltac reduction_error H := left; eapply series_reduce_error; eauto 10.

Ltac step_error :=
  repeat match goal with
  | H : _ ≫= _ = Raise _ |- _ => apply bind_Raise_inv in H as [H | (? & ? & H)]
  | H : getitem _ _ = Raise _ |- _ => apply getitem_error in H; eauto
  | H : series_sum _ = Raise _ |- _ => reduction_error H
  | H : series_mean _ = Raise _ |- _ => reduction_error H
  | H : series_median _ = Raise _ |- _ => reduction_error H
  | H : series_std _ = Raise _ |- _ => reduction_error H
  | H : (if ?b then _ else _) = Raise _ |- _ => destruct b
  | H : Ok _ = Raise _ |- _ => discriminate H
  end.

Lemma performance_kpis_errors self df :
  raises_only_type_or_key (calculate_performance_kpis self df).
Proof.
  intros e H. unfold calculate_performance_kpis in H.
  unfold handle_time_kpis, fcr_kpis, service_level_kpis, occupancy_kpis,
    adherence_kpis in H.
  step_error.
Qed.

(** C1 (as amended).  When [calls_offered] and [calls_answered] are
    present (the columns the function reads being numeric) and hold
    integers that are added exactly (their absolute values sum to less
    than 2^53, so that neither an [int64] sum wraps nor a [float64] sum
    rounds), [calculate_performance_kpis] returns, never raising a
    division error, and [service_level] is the sum of the answered
    calls over the sum of the offered calls when that sum is positive,
    and exactly 0 when it is zero or negative. *)
Theorem service_level_guarded (self : KPIAnalyzer.t) (df : DataFrame)
    (offered answered : Series) :
  getitem df "calls_offered" = Ok offered →
  getitem df "calls_answered" = Ok answered →
  numeric_if_present df performance_columns →
  exact_sum (values offered) →
  exact_sum (values answered) →
  calculate_performance_kpis self df ≠ Raise ZeroDivisionError ∧
  ∃ kpis, calculate_performance_kpis self df = Ok kpis ∧
    kpis !! "service_level"
    = Some (if decide (0 < nansum (values offered))
            then Fin (nansum (values answered) / nansum (values offered))
            else Fin 0).
Proof.
  intros Ho Ha Hnum _ _. split.
  - intros H. apply performance_kpis_errors in H as [H | [c H]]; discriminate.
  - by apply service_level_run.
Qed.

Ltac solve_columns :=
  intros c s _ Hs; unfold getitem in Hs; simpl in Hs;
  repeat case_decide; by simplify_eq.

(** The scenario of the specification: 140 answered of 150 offered. *)
Lemma service_level_guarded_witness :
  ∃ kpis, calculate_performance_kpis (KPIAnalyzer.init default_config) calls_table
          = Ok kpis ∧
          kpis !! "service_level" = Some (Fin (140 / 150)).
Proof.
  destruct (service_level_guarded (KPIAnalyzer.init default_config) calls_table
              (NumSeries [Some 100; Some 50]) (NumSeries [Some 90; Some 50]))
    as [_ (kpis & Hrun & Hsl)];
    [reflexivity | reflexivity | solve_columns | solve_exact_sum
    | solve_exact_sum |].
  exists kpis. split; [done|]. rewrite Hsl. simpl.
  rewrite decide_True by lra. do 2 f_equal. lra.
Defined.

(** C1, as stated, fails when the offered calls sum to a negative
    number: the sum is not 0, yet the function returns 0 and not the
    quotient. *)
Lemma service_level_negative_sum :
  nansum [Some (-2)] ≠ 0 ∧
  ∃ kpis, calculate_performance_kpis (KPIAnalyzer.init default_config)
            correction_table = Ok kpis ∧
          kpis !! "service_level" = Some (Fin 0) ∧
          kpis !! "service_level"
          ≠ Some (Fin (nansum [Some 1] / nansum [Some (-2)])).
Proof.
  split; [simpl; lra|].
  destruct (service_level_run (KPIAnalyzer.init default_config) correction_table
              (NumSeries [Some (-2)]) (NumSeries [Some 1]))
    as (kpis & Hrun & Hsl); [reflexivity | reflexivity | solve_columns |].
  exists kpis. split; [done|]. rewrite Hsl. simpl.
  rewrite decide_False by lra. split; [done|].
  intros [= H]. lra.
Qed.

End ServiceLevel.

(** ** KPI analyzer: comparison with the targets *)

Section Targets.
Import KPIAnalyzer.
Local Open Scope R_scope.

(** The key resolution on the indicator names the analyzer produces. *)
Example target_key_qa_score : target_key "qa_score_avg" = "qa_score".
Proof. vm_compute. reflexivity. Qed.

Example target_key_fcr : target_key "fcr_rate" = "fcr".
Proof. vm_compute. reflexivity. Qed.

Example target_key_weekly : target_key "csat_avg_weekly" = "csat_weekly".
Proof. vm_compute. reflexivity. Qed.

Example suffix_stripped_weekly :
  suffix_stripped "csat_avg_weekly" = "csat_avg_weekly".
Proof. vm_compute. reflexivity. Qed.

Lemma compare_to_targets_lookup (self : KPIAnalyzer.t)
    (kpis : gmap string float) (kpi_type name : string) :
  compare_to_targets self kpis kpi_type !! name
  = (value ← kpis !! name;
     target ← default ∅ (thresholds self !! kpi_type) !! target_key name;
     Some (compare value target)).
Proof.
  unfold compare_to_targets.
  set (targets := default ∅ (thresholds self !! kpi_type)).
  revert name.
  apply (map_fold_weak_ind
           (λ (r : gmap string Comparison) (m : gmap string float),
              ∀ name, r !! name
                      = (value ← m !! name;
                         target ← targets !! target_key name;
                         Some (compare value target)))).
  - intros name. by rewrite !lookup_empty.
  - intros k v m r Hk IH name.
    destruct (decide (k = name)) as [->|Hne].
    + rewrite lookup_insert_eq. simpl.
      destruct (targets !! target_key name) as [t|] eqn:Ht; simpl.
      * by rewrite lookup_insert_eq.
      * by rewrite IH, Hk.
    + rewrite lookup_insert_ne by done.
      destruct (targets !! target_key k);
        [rewrite lookup_insert_ne by done|]; apply IH.
Qed.

(** C7 (as amended).  The result of [compare_to_targets] has an entry
    for exactly the indicators whose name, with every occurrence of
    [_avg] and then of [_rate] removed, is a key of the thresholds of
    the category; the entry holds the value, the target of that key,
    their difference, the percentage difference (0 when the target is
    0) and whether the value reaches the target. *)
Theorem compare_to_targets_resolved (self : KPIAnalyzer.t)
    (kpis : gmap string float) (kpi_type name : string) (r : Comparison) :
  compare_to_targets self kpis kpi_type !! name = Some r ↔
  ∃ value targets tgt,
    kpis !! name = Some value ∧
    thresholds self !! kpi_type = Some targets ∧
    targets !! Py.replace "_rate" "" (Py.replace "_avg" "" name) = Some tgt ∧
    actual r = value ∧ target r = tgt ∧
    delta r = Float.sub value tgt ∧
    pct_delta r = (if Float.neb tgt (Fin 0)
                   then Float.mul (Float.div (Float.sub value tgt) tgt) (Fin 100)
                   else Fin 0) ∧
    (tgt = Fin 0 → pct_delta r = Fin 0) ∧
    meets_target r = Float.geb value tgt.
Proof.
  rewrite compare_to_targets_lookup. fold (target_key name). split.
  - destruct (kpis !! name) as [value|]; simpl; [|done].
    destruct (thresholds self !! kpi_type) as [targets|] eqn:Ht; simpl;
      [|by rewrite lookup_empty].
    destruct (targets !! target_key name) as [tgt|] eqn:Hk; simpl; [|done].
    intros [= <-]. exists value, targets, tgt. repeat split; try done.
    intros ->. simpl. unfold Float.neb, Float.eqb.
    by rewrite bool_decide_eq_true_2.
  - intros (value & targets & tgt & -> & -> & Hk & Ha & Ht & Hd & Hp & _ & Hm).
    simpl. rewrite Hk. simpl. f_equal. destruct r; simpl in *.
    unfold compare. by subst.
Qed.

(** An average NPS of 12 against a target of 0 under the key [nps]. *)
Lemma compare_to_targets_resolved_witness :
  compare_to_targets {| thresholds := {[ "quality" := {[ "nps" := Fin 0 ]} ]} |}
                     {[ "nps_avg" := Fin 12 ]} "quality" !! "nps_avg"
  = Some {| actual := Fin 12; target := Fin 0;
            delta := Float.sub (Fin 12) (Fin 0); pct_delta := Fin 0;
            meets_target := Float.geb (Fin 12) (Fin 0) |}.
Proof.
  apply (compare_to_targets_resolved
           {| thresholds := {[ "quality" := {[ "nps" := Fin 0 ]} ]} |}
           {[ "nps_avg" := Fin 12 ]} "quality" "nps_avg").
  exists (Fin 12), {[ "nps" := Fin 0 ]}, (Fin 0). simpl.
  repeat split; try reflexivity.
  unfold Float.neb, Float.eqb. by rewrite bool_decide_eq_true_2.
Defined.

(** C7, as stated, fails on an indicator that carries [_avg] inside its
    name: cutting suffixes leaves ["csat_avg_weekly"], which is no
    threshold key, yet the function compares the indicator with the
    target of ["csat_weekly"]. *)
Lemma compare_to_targets_interior_match :
  suffix_stripped "csat_avg_weekly" = "csat_avg_weekly"
  ∧ ({[ "csat_weekly" := Fin 4 ]} : gmap string float)
      !! suffix_stripped "csat_avg_weekly" = None
  ∧ compare_to_targets weekly_targets weekly_kpis "quality" !! "csat_avg_weekly"
    = Some (compare (Fin 4.5) (Fin 4)).
Proof.
  split; [|split].
  - apply suffix_stripped_weekly.
  - rewrite suffix_stripped_weekly. reflexivity.
  - rewrite compare_to_targets_lookup. rewrite target_key_weekly. reflexivity.
Qed.

End Targets.

(** ** Cleaner: outlier detection *)

Section Outliers.
Import DataCleaner.
Local Open Scope R_scope.

Lemma detect_outliers_lookup self df columns c :
  detect_outliers self df columns !! c
  = if bool_decide (c ∈ checked_columns df columns) then column_mask self df c
    else None.
Proof.
  unfold detect_outliers. fold (checked_columns df columns).
  generalize (checked_columns df columns) as cols. intros cols.
  cut (∀ acc : gmap string (list bool),
         foldl (λ (outliers : gmap string (list bool)) col,
                  match assoc col (data df) with
                  | Some s => if is_numeric_dtype s
                              then <[col := outlier_mask self (values s)]> outliers
                              else outliers
                  | None => outliers
                  end) acc cols !! c
         = if bool_decide (c ∈ cols)
           then (match column_mask self df c with
                 | Some m => Some m
                 | None => acc !! c
                 end)
           else acc !! c).
  { intros H. rewrite H, lookup_empty. by destruct (column_mask self df c). }
  induction cols as [|col cols IH]; intros acc; cbn [foldl].
  - rewrite bool_decide_eq_false_2 by apply not_elem_of_nil. done.
  - rewrite IH. destruct (decide (c = col)) as [->|Hne].
    + rewrite (bool_decide_eq_true_2 (col ∈ col :: cols)) by left.
      unfold column_mask.
      destruct (assoc col (data df)) as [s|]; simpl; [|by case_bool_decide].
      destruct (is_numeric_dtype s); [|by case_bool_decide].
      rewrite lookup_insert_eq. by case_bool_decide.
    + assert (Hacc : ∀ m, (<[col:=m]> acc) !! c = acc !! c)
        by (intros; by rewrite lookup_insert_ne).
      assert (Hin : bool_decide (c ∈ col :: cols) = bool_decide (c ∈ cols)).
      { apply bool_decide_ext. rewrite elem_of_cons. naive_solver. }
      rewrite Hin. destruct (assoc col (data df)) as [s|]; [|done].
      destruct (is_numeric_dtype s); [|done]. by rewrite Hacc.
Qed.









Lemma outlier_mask_length self xs : length (outlier_mask self xs) = length xs.
Proof. unfold outlier_mask, z_scores. by rewrite !length_fmap. Qed.





End Outliers.

(** ** Cleaner: outlier removal *)

Section RowSelection.

Lemma filter_ext_elem {A} (P Q : A → Prop)
    `{!∀ x, Decision (P x), !∀ x, Decision (Q x)} (l : list A) :
  (∀ x, x ∈ l → P x ↔ Q x) → filter P l = filter Q l.
Proof.
  induction l as [|a l IH]; intros Hext; [done|].
  assert (Hl : filter P l = filter Q l)
    by (apply IH; intros; apply Hext; by right).
  destruct (decide (P a)) as [Ha|Ha].
  - rewrite !filter_cons_True; [by rewrite Hl | by apply Hext; [left|] | done].
  - rewrite !filter_cons_False; [done | | done].
    intros HQ. apply Ha, Hext; [left | done].
Qed.

(** Selecting positions by a mask is filtering them by the mask. *)
Lemma mask_select_seq_filter (mask : list bool) (k : nat) :
  mask_select mask (seq k (length mask))
  = filter (λ i, mask !! (i - k) = Some true) (seq k (length mask)).
Proof.
  revert k. induction mask as [|b mask IH]; intros k; [done|].
  cbn [length seq mask_select]. rewrite IH.
  assert (Hrest :
    filter (λ i, (b :: mask) !! (i - k) = Some true) (seq (S k) (length mask))
    = filter (λ i, mask !! (i - S k) = Some true) (seq (S k) (length mask))).
  { apply filter_ext_elem. intros i Hi. apply elem_of_seq in Hi.
    replace (i - k) with (S (i - S k)) by lia. done. }
  destruct b.
  - rewrite filter_cons_True by (by rewrite Nat.sub_diag). by rewrite Hrest.
  - rewrite filter_cons_False by (by rewrite Nat.sub_diag). by rewrite Hrest.
Qed.

Lemma mask_select_lookup {A} (mask : list bool) (xs : list A) (k j i : nat) :
  length xs = length mask →
  mask_select mask (seq k (length mask)) !! j = Some i →
  mask_select mask xs !! j = xs !! (i - k).
Proof.
  revert xs k j. induction mask as [|b mask IH]; intros xs k j Hlen Hj; [done|].
  destruct xs as [|x xs]; [done|]. injection Hlen as Hlen.
  cbn [length seq mask_select] in *.
  assert (Hge : ∀ j', mask_select mask (seq (S k) (length mask)) !! j' = Some i →
                      S k ≤ i).
  { intros j' Hj'. apply list_elem_of_lookup_2 in Hj'.
    rewrite mask_select_seq_filter in Hj'.
    apply list_elem_of_filter in Hj' as [_ Hj'].
    apply elem_of_seq in Hj'. lia. }
  destruct b.
  - destruct j as [|j]; simpl in *.
    + injection Hj as <-. by rewrite Nat.sub_diag.
    + rewrite (IH xs (S k) j Hlen Hj). pose proof (Hge j Hj).
      by replace (i - k) with (S (i - S k)) by lia.
  - rewrite (IH xs (S k) j Hlen Hj). pose proof (Hge j Hj).
    by replace (i - k) with (S (i - S k)) by lia.
Qed.

Lemma mask_select_fmap {A B} (f : A → B) (l : list A) (mask : list bool) :
  f <$> mask_select mask l = mask_select mask (f <$> l).
Proof.
  revert mask. induction l as [|x l IH]; intros [|[] mask]; simpl; try done.
  by rewrite IH.
Qed.

Lemma cells_series_select mask s :
  cells (series_select mask s) = mask_select mask (cells s).
Proof. destruct s; simpl; apply mask_select_fmap. Qed.

(** The rows of [df[mask]] are the rows of [df] the mask selects, in
    their order. *)
Lemma rows_select_rows (mask : list bool) (df : DataFrame) :
  wf df → length mask = index_len df →
  rows (select_rows mask df)
  = row df <$> mask_select mask (seq 0 (index_len df)).
Proof.
  intros [_ Hwf] Hlen. unfold rows. cbn [select_rows index_len].
  set (kept := mask_select mask (seq 0 (index_len df))).
  apply list_eq. intros j. rewrite !list_lookup_fmap.
  destruct (kept !! j) as [i|] eqn:Hj; simpl.
  - rewrite lookup_seq_lt by (by eapply lookup_lt_Some). simpl. f_equal.
    unfold row. cbn [data select_rows]. rewrite <- list_fmap_compose.
    apply list_fmap_ext. intros n p Hp. simpl.
    rewrite cells_series_select.
    assert (Hpl : length (cells p.2) = length mask).
    { rewrite Forall_forall in Hwf. rewrite Hlen. apply Hwf.
      by eapply list_elem_of_lookup_2. }
    rewrite (mask_select_lookup mask (cells p.2) 0 j i Hpl)
      by (by rewrite Hlen).
    by rewrite Nat.sub_0_r.
  - rewrite lookup_seq_ge; [done|]. by apply lookup_ge_None.
Qed.

End RowSelection.

Section Removal.
Import DataCleaner.

(** The mask folded out of the outlier masks keeps exactly the rows no
    mask flags. *)
Lemma keep_mask_spec (n : nat) (outliers : gmap string (list bool)) :
  map_Forall (λ _ mask, length mask = n) outliers →
  length (keep_mask n outliers) = n ∧
  ∀ i, i < n →
       keep_mask n outliers !! i = Some (bool_decide (¬ flagged outliers i)).
Proof.
  unfold keep_mask.
  refine (map_fold_weak_ind
            (λ (r : list bool) (m : gmap string (list bool)),
               map_Forall (λ _ mask, length mask = n) m →
               length r = n ∧
               ∀ i, i < n → r !! i = Some (bool_decide (¬ flagged m i)))
            _ _ _ _ outliers).
  - intros _. split; [apply length_replicate|]. intros i Hi.
    rewrite lookup_replicate_2 by done.
    f_equal; symmetry; apply bool_decide_eq_true_2, map_Exists_empty.
  - intros c mk m r Hc IH Hall.
    apply map_Forall_insert in Hall as [Hmk Hall]; [|done].
    destruct (IH Hall) as [Hlen Hr]. split.
    + rewrite length_zip_with, length_fmap. lia.
    + intros i Hi. rewrite lookup_zip_with, (Hr i Hi), list_lookup_fmap. simpl.
      destruct (lookup_lt_is_Some_2 mk i ltac:(lia)) as [b Hb]. rewrite Hb. simpl.
      f_equal. unfold flagged.
      destruct b; simpl.
      * rewrite andb_false_r. symmetry. apply bool_decide_eq_false_2.
        intros Hn. apply Hn. apply map_Exists_insert; [done|]. by left.
      * rewrite andb_true_r. apply bool_decide_ext.
        rewrite (map_Exists_insert _ m c mk Hc). rewrite Hb. naive_solver.
Qed.

Lemma detect_outliers_lengths self df columns :
  wf df →
  map_Forall (λ _ mask, length mask = index_len df)
             (detect_outliers self df columns).
Proof.
  intros [_ Hwf] c mask Hc. rewrite detect_outliers_lookup in Hc.
  case_bool_decide; [|done]. unfold column_mask in Hc.
  destruct (assoc c (data df)) as [s|] eqn:Hs; simpl in Hc; [|done].
  destruct (is_numeric_dtype s); [|done]. injection Hc as <-.
  rewrite outlier_mask_length, values_length.
  rewrite Forall_forall in Hwf. apply (Hwf (c, s)). by apply assoc_elem.
Qed.

(** C5.  The rows of the table [remove_outliers] returns are the rows
    of the input, in their original order, at exactly the positions
    that no mask of [detect_outliers] (same table, same columns) flags:
    a row is removed if and only if some checked column flags it. *)
Theorem remove_outliers_keeps_unflagged (self : DataCleaner.t) (df : DataFrame)
    (columns : option (list string)) :
  wf df →
  rows (remove_outliers self df columns)
  = row df <$>
      filter (λ i, ¬ ∃ col mask,
                detect_outliers self df columns !! col = Some mask ∧
                mask !! i = Some true)
             (seq 0 (len df)).
Proof.
  intros Hwf. unfold remove_outliers.
  fold (keep_mask (len df) (detect_outliers self df columns)).
  destruct (keep_mask_spec (len df) _
              (detect_outliers_lengths self df columns Hwf)) as [Hlen Hmask].
  rewrite rows_select_rows by done. f_equal. unfold len in *.
  set (mask := keep_mask (index_len df) (detect_outliers self df columns)) in *.
  pose proof (mask_select_seq_filter mask 0) as Hsel. rewrite Hlen in Hsel.
  rewrite Hsel. apply filter_ext_elem. intros i Hi. apply elem_of_seq in Hi.
  rewrite Nat.sub_0_r, Hmask by lia.
  split.
  - intros [= H]. by apply bool_decide_eq_true in H.
  - intros H. f_equal. by apply bool_decide_eq_true_2.
Qed.

(** Ten identical handle times: every row stays. *)
Lemma remove_outliers_keeps_unflagged_witness :
  rows (remove_outliers (DataCleaner.init default_config) ten_rows None)
  = row ten_rows <$>
      filter (λ i, ¬ ∃ col mask,
                detect_outliers (DataCleaner.init default_config) ten_rows None
                  !! col = Some mask ∧ mask !! i = Some true)
             (seq 0 10).
Proof.
  apply (remove_outliers_keeps_unflagged (DataCleaner.init default_config)
           ten_rows None ten_rows_wf).
Defined.

End Removal.

(** ** Correlation analyzer: strong correlations *)

Section FloatOrder.
Local Open Scope R_scope.

Lemma leb_not_nan x y : Float.leb x y = true → x ≠ NaN ∧ y ≠ NaN.
Proof. by destruct x, y. Qed.

Lemma leb_trans x y z :
  Float.leb x y = true → Float.leb y z = true → Float.leb x z = true.
Proof.
  destruct x, y, z; simpl; try done.
  rewrite !bool_decide_eq_true. lra.
Qed.

Lemma ltb_false_leb x y :
  x ≠ NaN → y ≠ NaN → Float.ltb x y = false → Float.leb y x = true.
Proof.
  destruct x, y; simpl; try done.
  rewrite bool_decide_eq_false, bool_decide_eq_true. lra.
Qed.

Lemma ltb_leb x y : Float.ltb x y = true → Float.leb x y = true.
Proof.
  destruct x, y; simpl; try done.
  rewrite !bool_decide_eq_true. lra.
Qed.

End FloatOrder.

Section SortFacts.
Context {A : Type} (key : A → float).

Lemma insert_desc_perm x l : Py.insert_desc key x l ≡ₚ x :: l.
Proof.
  induction l as [|y l IH]; simpl; [done|].
  case_match; [|done]. rewrite IH. apply Permutation_swap.
Qed.

Lemma sort_desc_perm l : Py.sort_desc key l ≡ₚ l.
Proof.
  induction l as [|x l IH]; simpl; [done|].
  by rewrite insert_desc_perm, IH.
Qed.

Lemma insert_desc_sorted x l :
  key x ≠ NaN → Forall (λ y, key y ≠ NaN) l →
  StronglySorted (key_ge key) l →
  StronglySorted (key_ge key) (Py.insert_desc key x l).
Proof.
  intros Hx Hl Hs. induction Hs as [|y l Hs IH Hy]; simpl.
  - repeat constructor.
  - apply Forall_cons in Hl as [Hyn Hl].
    destruct (Float.gtb (key y) (key x)) eqn:Hgt.
    + constructor; [by apply IH|].
      rewrite insert_desc_perm. constructor; [|done].
      unfold key_ge, Float.geb. by apply ltb_leb.
    + constructor; [by constructor|].
      assert (Hxy : key_ge key x y) by (by apply ltb_false_leb).
      constructor; [done|].
      eapply Forall_impl; [exact Hy|]. intros z Hz.
      unfold key_ge, Float.geb in *. by eapply leb_trans.
Qed.

Lemma sort_desc_sorted l :
  Forall (λ y, key y ≠ NaN) l → StronglySorted (key_ge key) (Py.sort_desc key l).
Proof.
  induction l as [|x l IH]; intros Hl; simpl; [constructor|].
  apply Forall_cons in Hl as [Hx Hl].
  apply insert_desc_sorted; [done| |by apply IH].
  by rewrite sort_desc_perm.
Qed.

End SortFacts.

Section Loops.

(** A loop that only appends collects what each round appends. *)
Lemma for_each_append {A B} (l : list A) (body : A → list B → result (list B))
    (f : A → list B) :
  (∀ x acc, x ∈ l → body x acc = Ok (acc ++ f x)) →
  ∀ acc, Py.for_each l body acc = Ok (acc ++ (l ≫= f)).
Proof.
  induction l as [|x l IH]; intros Hbody acc; csimpl.
  - by rewrite app_nil_r.
  - rewrite Hbody by left. simpl.
    rewrite IH by (intros; apply Hbody; by right).
    by rewrite app_assoc.
Qed.

Lemma bind_length_mono {A B} (l : list A) (f g : A → list B) :
  (∀ x, x ∈ l → length (f x) ≤ length (g x)) →
  length (l ≫= f) ≤ length (l ≫= g).
Proof.
  induction l as [|x l IH]; intros H; csimpl; [done|].
  rewrite !length_app. pose proof (H x ltac:(left)).
  assert (length (l ≫= f) ≤ length (l ≫= g))
    by (apply IH; intros; apply H; by right).
  lia.
Qed.

Lemma elem_of_range lo hi k : k ∈ Py.range lo hi ↔ lo ≤ k < hi.
Proof. unfold Py.range. rewrite elem_of_seq. lia. Qed.

End Loops.

Section Strong.
Import CorrelationAnalyzer.
Local Open Scope R_scope.

Lemma find_strong_correlations_run self M threshold :
  readable M →
  find_strong_correlations self M threshold
  = Ok (Py.sort_desc (λ x, Float.abs x.2)
          (strong_pairs M (default (correlation_threshold self) threshold))).
Proof.
  intros Hread. unfold find_strong_correlations.
  set (thr := default (correlation_threshold self) threshold).
  rewrite (for_each_append _ _
             (λ i, Py.range (i + 1) (length (columns M)) ≫= strong_at M thr i)).
  { done. }
  intros i acc Hi. apply for_each_append. intros j acc' Hj.
  apply elem_of_range in Hi, Hj.
  destruct (Hread i j ltac:(lia)) as [v Hv].
  unfold strong_at. rewrite Hv. unfold read in Hv.
  destruct (iloc M i j) as [c|]; simpl in *; [|done]. rewrite Hv. simpl.
  by destruct (Float.geb (Float.abs v) thr); rewrite ?app_nil_r.
Qed.

Lemma strong_pairs_elem M thr a b v :
  (a, b, v) ∈ strong_pairs M thr →
  ∃ i j, (i < j < length (columns M))%nat ∧
         columns M !! i = Some a ∧ columns M !! j = Some b ∧
         read M i j = Ok v ∧ Float.geb (Float.abs v) thr = true.
Proof.
  unfold strong_pairs. intros H.
  apply list_elem_of_bind in H as (i & H & Hi).
  apply list_elem_of_bind in H as (j & H & Hj).
  apply elem_of_range in Hi, Hj. exists i, j. split; [lia|].
  unfold strong_at in H.
  destruct (read M i j) as [w|]; [|by apply elem_of_nil in H].
  destruct (Float.geb (Float.abs w) thr) eqn:Hge; [|by apply elem_of_nil in H].
  apply list_elem_of_singleton in H. injection H as -> -> ->.
  unfold name_at.
  destruct (lookup_lt_is_Some_2 (columns M) i ltac:(lia)) as [ci ->].
  destruct (lookup_lt_is_Some_2 (columns M) j ltac:(lia)) as [cj ->].
  done.
Qed.

Lemma strong_pairs_mono M t t' :
  Float.leb t t' = true →
  (length (strong_pairs M t') ≤ length (strong_pairs M t))%nat.
Proof.
  intros Hle. unfold strong_pairs.
  apply bind_length_mono. intros i _. apply bind_length_mono. intros j _.
  unfold strong_at. destruct (read M i j) as [v|]; [|done].
  destruct (Float.geb (Float.abs v) t') eqn:H'; [|simpl; lia].
  unfold Float.geb in *. by rewrite (leb_trans _ _ _ Hle H').
Qed.

(** C4.  On a correlation matrix [find_strong_correlations] returns a
    list in which every triple names two columns at distinct positions
    [i < j] (distinct names when the column names are) together with
    the coefficient read at [(i, j)], whose absolute value is at least
    the threshold; the list is sorted by absolute value, greatest
    first; and a threshold at least as large never gives a longer
    list. *)
Theorem find_strong_correlations_sorted_monotone (self : CorrelationAnalyzer.t)
    (M : DataFrame) (threshold : option float) :
  readable M →
  let thr := default (correlation_threshold self) threshold in
  ∃ l, find_strong_correlations self M threshold = Ok l ∧
    (∀ a b v, (a, b, v) ∈ l →
       ∃ i j, (i < j < length (columns M))%nat ∧
              columns M !! i = Some a ∧ columns M !! j = Some b ∧
              read M i j = Ok v ∧ Float.geb (Float.abs v) thr = true) ∧
    (NoDup (columns M) → ∀ a b v, (a, b, v) ∈ l → a ≠ b) ∧
    StronglySorted
      (λ x y, Float.geb (Float.abs x.2) (Float.abs y.2) = true) l ∧
    (∀ t' l', Float.geb t' thr = true →
              find_strong_correlations self M (Some t') = Ok l' →
              (length l' ≤ length l)%nat).
Proof.
  intros Hread thr. eexists. split; [by apply find_strong_correlations_run|].
  fold thr.
  assert (Helem : ∀ a b v,
            (a, b, v) ∈ Py.sort_desc (λ x, Float.abs x.2) (strong_pairs M thr) →
            ∃ i j, (i < j < length (columns M))%nat ∧
                   columns M !! i = Some a ∧ columns M !! j = Some b ∧
                   read M i j = Ok v ∧ Float.geb (Float.abs v) thr = true).
  { intros a b v H. rewrite sort_desc_perm in H. by apply strong_pairs_elem. }
  split; [done|]. split; [|split].
  - intros Hnd a b v H. destruct (Helem a b v H) as (i & j & Hij & Ha & Hb & _).
    intros ->. pose proof (NoDup_lookup _ _ _ _ Hnd Ha Hb). lia.
  - apply (sort_desc_sorted (λ x : string * string * float, Float.abs x.2)).
    apply Forall_forall. intros [[a b] v] H.
    apply strong_pairs_elem in H as (i & j & _ & _ & _ & _ & Hge).
    unfold Float.geb in Hge. by apply leb_not_nan in Hge as [_ ?].
  - intros t' l' Hge Hrun. rewrite find_strong_correlations_run in Hrun by done.
    injection Hrun as <-. simpl.
    rewrite (Permutation_length (sort_desc_perm _ (strong_pairs M t'))).
    rewrite (Permutation_length (sort_desc_perm _ (strong_pairs M thr))).
    by apply strong_pairs_mono.
Qed.

Lemma small_matrix_readable : readable small_matrix.
Proof.
  intros i j Hij. unfold columns in Hij. simpl in Hij.
  assert (i = 0%nat ∧ j = 1%nat) as [-> ->] by lia.
  eexists. reflexivity.
Qed.

(** A 2x2 matrix with coefficient -0.5 and the default threshold 0.3. *)
Lemma find_strong_correlations_sorted_monotone_witness :
  ∃ l, find_strong_correlations
         (CorrelationAnalyzer.init default_config) small_matrix None = Ok l ∧
       StronglySorted
         (λ x y, Float.geb (Float.abs x.2) (Float.abs y.2) = true) l ∧
       ∀ a b v, (a, b, v) ∈ l → Float.geb (Float.abs v) (Fin 0.3) = true.
Proof.
  destruct (find_strong_correlations_sorted_monotone
              (CorrelationAnalyzer.init default_config) small_matrix None
              small_matrix_readable) as (l & Hrun & Helem & _ & Hsort & _).
  exists l. split; [exact Hrun|]. split; [exact Hsort|].
  intros a b v H. destruct (Helem a b v H) as (i & j & _ & _ & _ & _ & Hge).
  exact Hge.
Defined.

(** The same matrix, evaluated: the one pair above the diagonal passes
    the threshold. *)
Example find_strong_correlations_small :
  find_strong_correlations (CorrelationAnalyzer.init default_config)
                           small_matrix None
  = Ok [("handle_time", "qa_score", Fin (-0.5))].
Proof.
  rewrite find_strong_correlations_run by apply small_matrix_readable.
  f_equal.
  assert (Hge : Float.geb (Float.abs (Fin (-0.5))) (Fin 0.3) = true).
  { simpl. apply bool_decide_eq_true_2. rewrite Rabs_left by lra. lra. }
  unfold strong_pairs, columns. cbn [small_matrix data fmap list_fmap fst length].
  unfold Py.range. cbn [seq Nat.sub Nat.add]. csimpl.
  unfold strong_at.
  change (read small_matrix 0 1) with (Ok (Fin (-0.5)) : result float).
  cbn [init default_config default correlation_threshold].
  rewrite Hge. reflexivity.
Qed.

End Strong.

(** ** Validator: the quality report *)

Section Quality.
Import DataValidator.

Lemma select_dtypes_number_elem df c :
  wf df →
  c ∈ select_dtypes_number df ↔ ∃ xs, assoc c (data df) = Some (NumSeries xs).
Proof.
  intros [Hnd _]. unfold select_dtypes_number. rewrite list_elem_of_fmap. split.
  - intros ([k s] & -> & H). apply list_elem_of_filter in H as [Hnum H].
    destruct s; try done. eexists. by apply assoc_NoDup.
  - intros [xs H]. exists (c, NumSeries xs). split; [done|].
    apply list_elem_of_filter. split; [done|]. by apply assoc_elem.
Qed.

Lemma describe_column_numeric df c xs :
  assoc c (data df) = Some (NumSeries xs) →
  describe_column df c = Ok (stats_of xs).
Proof. intros H. unfold describe_column, getitem. by rewrite H. Qed.

(** A loop that stores one computed entry per column. *)
Lemma for_each_insert {V} (cols : list string) (f : string → result V)
    (g : string → V) (acc : gmap string V) :
  (∀ c, c ∈ cols → f c = Ok (g c)) →
  ∃ m, Py.for_each cols (λ col stats, st ← f col; Ok (<[col := st]> stats)) acc
       = Ok m ∧
       ∀ c, m !! c = if bool_decide (c ∈ cols) then Some (g c) else acc !! c.
Proof.
  revert acc. induction cols as [|col cols IH]; intros acc Hf; cbn [Py.for_each].
  - eexists. split; [done|]. intros c.
    by rewrite bool_decide_eq_false_2 by apply not_elem_of_nil.
  - rewrite Hf by left. simpl.
    destruct (IH (<[col := g col]> acc)) as (m & -> & Hm);
      [intros; apply Hf; by right|].
    exists m. split; [done|]. intros c. rewrite Hm.
    destruct (decide (c = col)) as [->|Hne].
    + rewrite (bool_decide_eq_true_2 (col ∈ col :: cols)) by left.
      case_bool_decide; [done|]. by rewrite lookup_insert_eq.
    + rewrite lookup_insert_ne by done.
      assert (Hin : bool_decide (c ∈ col :: cols) = bool_decide (c ∈ cols)).
      { apply bool_decide_ext. rewrite elem_of_cons. naive_solver. }
      by rewrite Hin.
Qed.

(** C8.  [check_data_quality] returns a report for every table.  The
    report has statistics for exactly the numeric columns; each of
    mean, median, std, min and max of a column equals the statistic of
    the column with its missing values removed; and for a column with
    no value at all each of them is NaN, not zero. *)
Theorem check_data_quality_total (self : DataValidator.t) (df : DataFrame) :
  wf df →
  ∃ report, check_data_quality self df = Ok report ∧
    total_rows report = len df ∧
    numeric_columns report = select_dtypes_number df ∧
    (∀ c, is_Some (numeric_stats report !! c) ↔ c ∈ select_dtypes_number df) ∧
    (∀ c xs, assoc c (data df) = Some (NumSeries xs) →
       ∃ st, numeric_stats report !! c = Some st ∧
         mean st = nanmean (Some <$> dropna xs) ∧
         median st = nanmedian (Some <$> dropna xs) ∧
         std st = nanstd 1 (Some <$> dropna xs) ∧
         min st = nanmin (Some <$> dropna xs) ∧
         max st = nanmax (Some <$> dropna xs) ∧
         (dropna xs = [] →
          mean st = NaN ∧ median st = NaN ∧ std st = NaN ∧
          min st = NaN ∧ max st = NaN)).
Proof.
  intros Hwf. unfold check_data_quality.
  set (g := λ c, match assoc c (data df) with
                 | Some (NumSeries xs) => stats_of xs
                 | _ => stats_of []
                 end).
  destruct (for_each_insert (select_dtypes_number df) (describe_column df) g ∅)
    as (m & -> & Hm).
  { intros c Hc. apply select_dtypes_number_elem in Hc as [xs Hxs]; [|done].
    unfold g. rewrite Hxs. by apply describe_column_numeric. }
  simpl. eexists. split; [done|]. simpl. repeat split; try done.
  - intros Hs. rewrite Hm in Hs. case_bool_decide; [done|].
    rewrite lookup_empty in Hs. by destruct Hs.
  - intros Hc. rewrite Hm. by rewrite bool_decide_eq_true_2.
  - intros c xs Hxs. exists (stats_of xs). rewrite Hm.
    rewrite bool_decide_eq_true_2
      by (apply select_dtypes_number_elem; [done | by exists xs]).
    unfold g. rewrite Hxs. simpl.
    rewrite nanmean_dropna, nanmedian_dropna, nanstd_dropna, nanmin_dropna,
      nanmax_dropna.
    repeat split; try done; by apply reductions_all_missing.
Qed.

(** The table with a gap: the report exists and counts its two rows. *)
Lemma check_data_quality_total_witness :
  ∃ report, check_data_quality (DataValidator.init default_config) gap_table
            = Ok report ∧
            total_rows report = 2 ∧
            numeric_columns report = ["handle_time"; "qa_score"].
Proof.
  destruct (check_data_quality_total (DataValidator.init default_config)
              gap_table gap_table_wf) as (report & Hrun & Hrows & Hcols & _).
  exists report. split; [exact Hrun|]. split; [exact Hrows | exact Hcols].
Defined.

(** The handle times [300, NaN] of that table: the mean is taken over
    the one value present. *)
Example nanmean_gap : nanmean [Some 300%R; None] = Fin 300.
Proof.
  unfold nanmean. cbn [count nansum]. rewrite decide_False by done.
  f_equal. simpl. lra.
Qed.

End Quality.

(** ** Statistical analyzer: z-score anomalies *)

Section Anomalies.
Import StatisticalAnalyzer.

Lemma zscore_length (vs : list R) :
  length (Scipy.zscore (Some <$> vs)) = length vs.
Proof.
  unfold Scipy.zscore. case_bool_decide as Hin.
  - by rewrite !length_fmap.
  - by rewrite length_fmap, dropna_present.
Qed.

Lemma zscore_flags_length xs threshold :
  length (zscore_flags xs threshold) = length (dropna xs).
Proof. unfold zscore_flags. by rewrite !length_fmap, zscore_length. Qed.

(** The z-score branch: the flags of the non-missing values are
    assigned as the column [is_anomaly]. *)
Lemma detect_anomalies_zscore_run df column threshold xs :
  assoc column (data df) = Some (NumSeries xs) →
  detect_anomalies df column "zscore" threshold
  = (df_copy ← setitem df "is_anomaly" (BoolSeries (zscore_flags xs threshold));
     flags ← getitem df_copy "is_anomaly";
     anomaly_count ← series_sum flags;
     Ok df_copy).
Proof.
  intros Hcol. apply getitem_assoc in Hcol.
  unfold detect_anomalies. rewrite decide_True by done.
  rewrite Hcol. done.
Qed.

(** C10.  With the z-score method the flags are computed for the
    non-missing values of the column only.  When the column has a
    missing value they are fewer than the rows of the table and the
    assignment of the flag column raises; when it has none, the table
    is returned with the boolean column [is_anomaly] added. *)
Theorem detect_anomalies_zscore_missing (df : DataFrame) (column : string)
    (threshold : float) (xs : list (option R)) :
  wf df →
  assoc column (data df) = Some (NumSeries xs) →
  length (zscore_flags xs threshold) = count xs ∧
  (None ∈ xs →
   count xs < len df ∧
   detect_anomalies df column "zscore" threshold
   = Raise (ValueError ("Length of values (" +:+ pretty (count xs) +:+
                        ") does not match length of index (" +:+
                        pretty (len df) +:+ ")"))) ∧
  (None ∉ xs →
   count xs = len df ∧
   detect_anomalies df column "zscore" threshold
   = Ok {| data := assoc_set "is_anomaly"
                     (BoolSeries (zscore_flags xs threshold)) (data df);
           index_len := index_len df |}).
Proof.
  intros [_ Hwf] Hcol.
  assert (Hlen : length xs = index_len df).
  { rewrite Forall_forall in Hwf. specialize (Hwf _ (assoc_elem _ _ _ Hcol)).
    simpl in Hwf. unfold series_len in Hwf. simpl in Hwf.
    by rewrite length_fmap in Hwf. }
  rewrite (detect_anomalies_zscore_run df column threshold xs Hcol).
  unfold setitem, series_len. simpl.
  rewrite length_fmap, zscore_flags_length, count_length_dropna.
  split; [done|]. split.
  - intros Hmiss. apply dropna_length_missing in Hmiss.
    unfold len. split; [lia|].
    rewrite decide_False by lia. done.
  - intros Hfull. apply dropna_length_complete in Hfull.
    unfold len. split; [lia|].
    rewrite decide_True by lia. simpl.
    unfold getitem. simpl. rewrite assoc_set_lookup. done.
Qed.

(** One handle time of two is missing: one flag for two rows. *)
Lemma detect_anomalies_zscore_missing_witness :
  detect_anomalies gap_table "handle_time" "zscore" (Fin 3)
  = Raise (ValueError "Length of values (1) does not match length of index (2)").
Proof.
  destruct (detect_anomalies_zscore_missing gap_table "handle_time" (Fin 3)
              [Some 300%R; None] gap_table_wf eq_refl) as (_ & Hmiss & _).
  destruct Hmiss as [_ Hrun]; [right; left|].
  rewrite Hrun. reflexivity.
Defined.

End Anomalies.

(** ** Correlation analyzer: the correlation matrix *)

Section Pearson.
Local Open Scope R_scope.

Lemma sumR_sq_nonneg (m : R) (l : list R) :
  0 <= sumR ((λ x, (x - m) * (x - m)) <$> l).
Proof.
  unfold sumR. induction l as [|x l IH]; [simpl; lra|].
  rewrite fmap_cons. cbn [foldr].
  pose proof (Rle_0_sqr (x - m)) as Hsq. unfold Rsqr in Hsq. lra.
Qed.

Lemma sumR_sq_zero (m : R) (l : list R) x :
  sumR ((λ x, (x - m) * (x - m)) <$> l) = 0 → x ∈ l → x = m.
Proof.
  pose proof (sumR_sq_nonneg m) as Hnn. unfold sumR in *.
  induction l as [|y l IH]; intros Hz Hin; [by apply elem_of_nil in Hin|].
  rewrite fmap_cons in Hz. cbn [foldr] in Hz.
  pose proof (Hnn l) as Hn.
  pose proof (Rle_0_sqr (y - m)) as Hsq. unfold Rsqr in Hsq.
  apply elem_of_cons in Hin as [->|Hin].
  - assert (Hy : (y - m) * (y - m) = 0) by lra.
    apply Rmult_integral in Hy. lra.
  - apply IH; [lra | done].
Qed.

Lemma sumR_constant (v : R) (l : list R) :
  (∀ x, x ∈ l → x = v) → sumR l = INR (length l) * v.
Proof.
  unfold sumR. induction l as [|y l IH]; intros H; [simpl; lra|].
  cbn [foldr length]. rewrite S_INR.
  rewrite IH by (intros; apply H; by right).
  rewrite (H y) by left. lra.
Qed.

Lemma sumR_sq_constant (m : R) (l : list R) :
  (∀ x, x ∈ l → x = m) → sumR ((λ x, (x - m) * (x - m)) <$> l) = 0.
Proof.
  unfold sumR. induction l as [|y l IH]; intros H; [done|].
  rewrite fmap_cons. cbn [foldr].
  rewrite IH by (intros; apply H; by right). rewrite (H y) by left. lra.
Qed.

Lemma diag_fst l : (diag l).*1 = l.
Proof. unfold diag. rewrite <- list_fmap_compose. apply list_fmap_id. Qed.

Lemma diag_snd l : (diag l).*2 = l.
Proof. unfold diag. rewrite <- list_fmap_compose. apply list_fmap_id. Qed.

(** Pearson's coefficient of a column with itself: the sum of squares
    over itself, or NaN when that sum is zero. *)
Lemma pearson_diag (l : list R) :
  pearson (diag l)
  = if decide (l = [] ∨ sum_sq l = 0) then None else Some 1.
Proof.
  unfold pearson. rewrite diag_fst, diag_snd.
  destruct (decide (length (diag l) = 0%nat)) as [Hn|Hn].
  - unfold diag in Hn. rewrite length_fmap in Hn.
    apply length_zero_iff_nil in Hn. by rewrite decide_True by auto.
  - assert (Hne : l ≠ []).
    { intros ->. by apply Hn. }
    assert (Hs : ∀ f : R * R → R,
               (∀ x, f (x, x) = (x - meanR l) * (x - meanR l)) →
               sumR (f <$> diag l) = sum_sq l).
    { intros f Hf. unfold diag, sum_sq. rewrite <- list_fmap_compose. f_equal.
      apply list_fmap_ext. intros i x _. apply Hf. }
    rewrite !Hs by done.
    assert (Hpos : 0 <= sum_sq l) by apply sumR_sq_nonneg.
    rewrite sqrt_square by done.
    destruct (decide (sum_sq l = 0)) as [Hz|Hz].
    + by rewrite decide_True by auto.
    + rewrite decide_False by tauto. f_equal. by field.
Qed.

Lemma sum_sq_zero_iff (l : list R) :
  l ≠ [] → sum_sq l = 0 ↔ ∀ a b, a ∈ l → b ∈ l → a = b.
Proof.
  intros Hne. split.
  - intros Hz a b Ha Hb. unfold sum_sq in Hz.
    rewrite (sumR_sq_zero _ _ a Hz Ha), (sumR_sq_zero _ _ b Hz Hb). done.
  - intros Heq. destruct l as [|v l]; [done|].
    assert (Hall : ∀ x, x ∈ v :: l → x = v)
      by (intros; apply Heq; [done | left]).
    assert (Hm : meanR (v :: l) = v).
    { unfold meanR. rewrite (sumR_constant v) by done.
      assert (INR (length (v :: l)) ≠ 0) by (apply not_0_INR; simpl; lia).
      by field. }
    unfold sum_sq. rewrite Hm. by apply sumR_sq_constant.
Qed.

Lemma pearson_diag_one (l : list R) :
  pearson (diag l) = Some 1 ↔ ∃ a b, a ∈ l ∧ b ∈ l ∧ a ≠ b.
Proof.
  rewrite pearson_diag.
  destruct (decide (l = [] ∨ sum_sq l = 0)) as [[->|Hz]|Hn].
  - split; [done|]. intros (a & _ & Ha & _). by apply elem_of_nil in Ha.
  - split; [done|]. intros (a & b & Ha & Hb & Hab). exfalso. apply Hab.
    destruct (decide (l = [])) as [->|Hne]; [by apply elem_of_nil in Ha|].
    by apply (sum_sq_zero_iff l Hne).
  - split; [intros _|done].
    destruct l as [|v l]; [tauto|].
    destruct (decide (Forall (λ x, x = v) (v :: l))) as [Hall|Hex].
    + exfalso. apply Hn. right. apply sum_sq_zero_iff; [done|].
      rewrite Forall_forall in Hall. intros a b Ha Hb.
      by rewrite (Hall a Ha), (Hall b Hb).
    + apply not_Forall_Exists in Hex; [|apply _].
      apply Exists_exists in Hex as (x & Hx & Hxv).
      exists x, v. split; [done|]. split; [left | done].
Qed.

Lemma pearson_diag_cases (l : list R) :
  pearson (diag l) = Some 1 ∨ pearson (diag l) = None.
Proof. rewrite pearson_diag. case_decide; auto. Qed.

Lemma paired_cons_Some a b xs ys :
  paired (Some a :: xs) (Some b :: ys) = (a, b) :: paired xs ys.
Proof. done. Qed.

Lemma paired_cons_None xs ys : paired (None :: xs) (None :: ys) = paired xs ys.
Proof. done. Qed.

Lemma paired_self xs : paired xs xs = diag (dropna xs).
Proof.
  induction xs as [|[x|] xs IH]; [done| |].
  - rewrite dropna_cons_Some, paired_cons_Some, IH. done.
  - rewrite dropna_cons_None, paired_cons_None, IH. done.
Qed.

Lemma zip_diag {A} (l : list A) : zip l l = (λ x, (x, x)) <$> l.
Proof. induction l as [|x l IH]; [done|]. simpl. by rewrite IH. Qed.

(** Whatever the method, a diagonal coefficient is 1.0 or NaN. *)
Lemma coefficient_diag (m : corr_method) (i : nat) (xs : list (option R)) :
  coefficient m i i xs xs = Some 1 ∨ coefficient m i i xs xs = None.
Proof.
  destruct m; simpl.
  - rewrite paired_self. apply pearson_diag_cases.
  - rewrite paired_self. unfold spearman. rewrite diag_fst, diag_snd, zip_diag.
    apply pearson_diag_cases.
  - case_decide; [auto|]. rewrite decide_True by done. auto.
Qed.

Lemma corr_entry_sym m cols i j : corr_entry m cols i j = corr_entry m cols j i.
Proof.
  unfold corr_entry. by rewrite (Nat.min_comm i j), (Nat.max_comm i j).
Qed.

Lemma corr_entry_diag m cols i :
  corr_entry m cols i i
  = coefficient m i i (default [] (cols.*2 !! i)) (default [] (cols.*2 !! i)).
Proof. unfold corr_entry. by rewrite Nat.min_id, Nat.max_id. Qed.

End Pearson.

Section Matrix.
Import CorrelationAnalyzer.
Local Open Scope R_scope.

(** Reading the matrix returned by [corr]. *)
Lemma corr_iloc method df M :
  corr method df = Ok M →
  ∃ m, parse_method method = Ok m ∧
       columns M = (numeric_data df).*1 ∧
       index_len M = length (numeric_data df) ∧
       ∀ i j,
         iloc M i j
         = if decide (i < length (numeric_data df)
                      ∧ j < length (numeric_data df))%nat
           then Ok (CNum (corr_entry m (numeric_data df) i j))
           else Raise IndexError.
Proof.
  unfold corr. destruct (parse_method method) as [m|]; simpl; [|done].
  intros [= <-]. exists m. split; [done|].
  set (cols := numeric_data df). simpl. split; [|split; [done|]].
  - unfold columns. simpl. apply list_eq. intros k.
    rewrite !list_lookup_fmap, list_lookup_imap. by destruct (cols !! k).
  - intros i j. unfold iloc. simpl. rewrite list_lookup_imap.
    destruct (cols !! j) as [p|] eqn:Hj; simpl.
    + apply lookup_lt_Some in Hj as Hjlt. rewrite !list_lookup_fmap.
      destruct (decide (i < length cols)%nat) as [Hi|Hi].
      * rewrite lookup_seq_lt by done. simpl. by rewrite decide_True.
      * rewrite lookup_seq_ge by lia. simpl. by rewrite decide_False by tauto.
    + apply lookup_ge_None in Hj. by rewrite decide_False by lia.
Qed.

Lemma map_result_lookup (df : DataFrame) (l : list (string * Series)) :
  (∀ p, p ∈ l → assoc p.1 (data df) = Some p.2) →
  Py.map_result (λ c, s ← getitem df c; Ok (c, s)) l.*1 = Ok l.
Proof.
  induction l as [|[c s] l IH]; intros H; [done|].
  rewrite fmap_cons. cbn [Py.map_result fst].
  assert (Hc : getitem df c = Ok s).
  { pose proof (H (c, s) ltac:(left)) as Hcs. simpl in Hcs.
    by apply getitem_assoc. }
  rewrite Hc. simpl.
  rewrite IH by (intros; apply H; by right). done.
Qed.

(** On a well-formed table [df[numeric_cols]] is the table of its
    numeric columns. *)
Lemma getitems_numeric (df : DataFrame) :
  wf df →
  getitems df (select_dtypes_number df)
  = Ok {| data := filter (λ p, is_number p.2 = true) (data df);
          index_len := index_len df |}.
Proof.
  intros [Hnd _]. unfold getitems, select_dtypes_number.
  rewrite map_result_lookup; [done|].
  intros [c s] Hp. apply list_elem_of_filter in Hp as [_ Hp].
  by apply assoc_NoDup.
Qed.

Lemma numeric_data_filter (l : list (string * Series)) idx :
  numeric_data {| data := filter (λ p, is_number p.2 = true) l;
                  index_len := idx |}
  = numeric_data {| data := l; index_len := idx |}.
Proof.
  unfold numeric_data. cbn [data]. induction l as [|[c s] l IH]; [done|].
  destruct s.
  - rewrite filter_cons_True by done. cbn [omap list_omap snd fst].
    by rewrite IH.
  - rewrite filter_cons_False by done. exact IH.
  - rewrite filter_cons_False by done. exact IH.
Qed.

Lemma correlation_matrix_entries (self : CorrelationAnalyzer.t) (df : DataFrame)
    (method : string) (M : DataFrame) :
  wf df →
  calculate_correlation_matrix self df method = Ok M →
  ∃ m, parse_method method = Ok m ∧
       columns M = (numeric_data df).*1 ∧
       index_len M = length (numeric_data df) ∧
       ∀ i j,
         iloc M i j
         = if decide (i < length (numeric_data df)
                      ∧ j < length (numeric_data df))%nat
           then Ok (CNum (corr_entry m (numeric_data df) i j))
           else Raise IndexError.
Proof.
  intros Hwf. unfold calculate_correlation_matrix.
  rewrite getitems_numeric by done. simpl. intros Hcorr.
  apply corr_iloc in Hcorr. rewrite numeric_data_filter in Hcorr.
  by destruct df.
Qed.

Lemma correlation_matrix_runs (self : CorrelationAnalyzer.t) (df : DataFrame) :
  wf df → ∃ M, calculate_correlation_matrix self df "pearson" = Ok M.
Proof.
  intros Hwf. unfold calculate_correlation_matrix.
  rewrite getitems_numeric by done. simpl. eauto.
Qed.

(** Every matrix the analyzer computes can be searched for strong
    correlations. *)
Lemma correlation_matrix_readable (self : CorrelationAnalyzer.t) (df : DataFrame)
    (method : string) (M : DataFrame) :
  wf df → calculate_correlation_matrix self df method = Ok M → readable M.
Proof.
  intros Hwf Hrun.
  destruct (correlation_matrix_entries self df method M Hwf Hrun)
    as (m & _ & Hcols & _ & Hread).
  intros i j Hij. rewrite Hcols, length_fmap in Hij.
  unfold read. rewrite Hread, decide_True by lia. simpl. eauto.
Qed.

(** C3 (as amended).  The matrix [calculate_correlation_matrix] returns
    is square over the numeric columns and symmetric: [M[i][j]] and
    [M[j][i]] are the same value, possibly both NaN.  A diagonal entry
    is exactly 1.0 or NaN; with the Pearson method it is 1.0 exactly
    for the columns that have two different non-missing values, and NaN
    for a constant, single-valued or empty column. *)
Theorem correlation_matrix_symmetric (self : CorrelationAnalyzer.t)
    (df : DataFrame) (method : string) (M : DataFrame) :
  wf df →
  calculate_correlation_matrix self df method = Ok M →
  columns M = (numeric_data df).*1 ∧
  len M = length (columns M) ∧
  (∀ i j, iloc M i j = iloc M j i) ∧
  (∀ i, (i < length (columns M))%nat →
        iloc M i i = Ok (CNum (Some 1)) ∨ iloc M i i = Ok (CNum None)) ∧
  (method = "pearson" →
   ∀ i c xs, numeric_data df !! i = Some (c, xs) →
     iloc M i i = Ok (CNum (Some 1)) ↔
     ∃ a b, a ∈ dropna xs ∧ b ∈ dropna xs ∧ a ≠ b).
Proof.
  intros Hwf Hrun.
  destruct (correlation_matrix_entries self df method M Hwf Hrun)
    as (m & Hm & Hcols & Hlen & Hread).
  split; [done|]. rewrite Hcols, length_fmap. split; [done|]. split; [|split].
  - intros i j. rewrite !Hread, corr_entry_sym.
    apply decide_ext. tauto.
  - intros i Hi. rewrite Hread, decide_True by done. rewrite corr_entry_diag.
    destruct (coefficient_diag m i (default [] ((numeric_data df).*2 !! i)))
      as [-> | ->]; auto.
  - intros -> i c xs Hi. unfold parse_method in Hm.
    rewrite decide_True in Hm by done.
    injection Hm as <-. apply lookup_lt_Some in Hi as Hlt.
    rewrite Hread, decide_True by done. rewrite corr_entry_diag.
    rewrite list_lookup_fmap, Hi. simpl. rewrite paired_self.
    rewrite <- pearson_diag_one. split; [by intros [= ->] | by intros ->].
Qed.

(** Handle times 300 and (missing), QA scores 90 and 80: the matrix is
    symmetric and the diagonal entry of the QA scores is 1.0. *)
Lemma correlation_matrix_symmetric_witness :
  ∃ M, calculate_correlation_matrix (CorrelationAnalyzer.init default_config)
         gap_table "pearson" = Ok M ∧
       iloc M 0 1 = iloc M 1 0 ∧
       iloc M 1 1 = Ok (CNum (Some 1)).
Proof.
  destruct (correlation_matrix_runs (CorrelationAnalyzer.init default_config)
              gap_table gap_table_wf) as [M Hrun].
  destruct (correlation_matrix_symmetric _ _ _ M gap_table_wf Hrun)
    as (_ & _ & Hsym & _ & Hdiag).
  exists M. split; [exact Hrun|]. split; [apply Hsym|].
  apply (Hdiag eq_refl 1%nat "qa_score" [Some 90; Some 80] eq_refl).
  exists 90, 80. rewrite !dropna_cons_Some.
  split; [left|]. split; [right; left|]. lra.
Defined.

(** C3, as stated, fails on a constant column: its diagonal entry is
    NaN, not 1.0. *)
Lemma correlation_matrix_constant_column :
  ∃ M, calculate_correlation_matrix (CorrelationAnalyzer.init default_config)
         constant_table "pearson" = Ok M ∧
       iloc M 0 0 = Ok (CNum None) ∧
       iloc M 0 0 ≠ Ok (CNum (Some 1)).
Proof.
  destruct (correlation_matrix_runs (CorrelationAnalyzer.init default_config)
              constant_table constant_table_wf) as [M Hrun].
  exists M. split; [done|].
  destruct (correlation_matrix_entries _ _ _ M constant_table_wf Hrun)
    as (m & Hm & _ & _ & Hread).
  injection Hm as <-.
  assert (Hnone : iloc M 0 0 = Ok (CNum None)).
  { rewrite Hread, decide_True by (simpl; lia). rewrite corr_entry_diag.
    change (default [] ((numeric_data constant_table).*2 !! 0%nat))
      with [Some 300; Some 300].
    cbn [coefficient]. rewrite paired_self.
    destruct (pearson_diag_cases (dropna [Some 300; Some 300])) as [H1|H0];
      [|by rewrite H0].
    apply pearson_diag_one in H1 as (a & b & Ha & Hb & Hab).
    exfalso. apply Hab. rewrite !dropna_cons_Some in Ha, Hb. set_solver. }
  by rewrite Hnone.
Qed.

End Matrix.

(** ** Validator: schema, types and ranges *)

Section Schema.
Import DataValidator.

(** The schema check passes exactly when every required column can be
    read; otherwise it lists, in the order given, the required names
    whose access raises [KeyError]. *)
Theorem validate_schema_missing (self : DataValidator.t) (df : DataFrame)
    (required_columns : list string) :
  ((validate_schema self df required_columns).1 = true ↔
   ∀ c, c ∈ required_columns → ∃ s, getitem df c = Ok s) ∧
  ((validate_schema self df required_columns).1 = true ↔
   (validate_schema self df required_columns).2 = []) ∧
  (∀ c, c ∈ (validate_schema self df required_columns).2 ↔
        c ∈ required_columns ∧ getitem df c = Raise (KeyError c)) ∧
  sublist (validate_schema self df required_columns).2 required_columns.
Proof.
  unfold validate_schema. cbn [fst snd].
  set (missing := filter (λ col, col ∉ columns df) required_columns).
  assert (Hmiss : ∀ c, c ∈ missing ↔
                       c ∈ required_columns ∧ getitem df c = Raise (KeyError c)).
  { intros c. unfold missing. rewrite list_elem_of_filter.
    unfold getitem. destruct (assoc c (data df)) as [s|] eqn:E.
    - apply assoc_Some_elem in E. fold (columns df) in E. naive_solver.
    - apply assoc_None_not_elem in E. fold (columns df) in E. naive_solver. }
  assert (Hnil : bool_decide (length missing = 0) = true ↔ missing = []).
  { rewrite bool_decide_eq_true. apply length_zero_iff_nil. }
  split; [|split; [done|split; [done|apply sublist_filter]]].
  rewrite Hnil. split.
  - intros Hm c Hc. apply has_column_getitem. unfold has_column.
    apply bool_decide_eq_true_2. destruct (decide (c ∈ columns df)); [done|].
    assert (c ∈ missing) by (unfold missing; by apply list_elem_of_filter).
    rewrite Hm in *. by apply elem_of_nil in H.
  - intros Hall. apply elem_of_nil_inv. intros c Hc.
    apply Hmiss in Hc as [Hc Hraise].
    destruct (Hall c Hc) as [s Hs]. congruence.
Qed.

End Schema.

Section DataTypes.
Import DataValidator.
Variable dtype_name : Series → string.

(** The message stored for a column whose type is not the expected
    one. *)
Lemma validate_data_types_lookup (self : DataValidator.t) (df : DataFrame)
    (type_spec : list (string * string)) (col : string) :
  NoDup type_spec.*1 →
  (validate_data_types dtype_name self df type_spec).2 !! col
  = (expected ← assoc col type_spec;
     s ← assoc col (data df);
     if type_valid expected s then None
     else Some ("Expected " +:+ expected +:+ ", got " +:+ dtype_name s)).
Proof.
  unfold validate_data_types. cbn [snd].
  cut (∀ acc : gmap string string,
         NoDup type_spec.*1 →
         foldl (λ (mismatches : gmap string string) (item : string * string),
                  let col := item.1 in
                  let expected_type := item.2 in
                  match assoc col (data df) with
                  | None => mismatches
                  | Some s =>
                      if type_valid expected_type s then mismatches
                      else <[col := "Expected " +:+ expected_type +:+ ", got "
                                    +:+ dtype_name s]> mismatches
                  end) acc type_spec !! col
         = match assoc col type_spec with
           | Some expected =>
               match assoc col (data df) with
               | Some s =>
                   if type_valid expected s then acc !! col
                   else Some ("Expected " +:+ expected +:+ ", got "
                              +:+ dtype_name s)
               | None => acc !! col
               end
           | None => acc !! col
           end).
  { intros H Hnd. rewrite H by done. rewrite lookup_empty.
    destruct (assoc col type_spec); simpl; [|done].
    destruct (assoc col (data df)); simpl; [|done]. by case_match. }
  induction type_spec as [|[c e] spec IH]; intros acc Hnd; [done|].
  rewrite fmap_cons in Hnd. apply NoDup_cons in Hnd as [Hc Hnd].
  cbn [fst] in Hc. cbn [foldl assoc fst snd]. rewrite IH by done.
  destruct (decide (c = col)) as [->|Hne].
  - apply assoc_None_not_elem in Hc. rewrite Hc.
    destruct (assoc col (data df)) as [s|]; [|done].
    destruct (type_valid e s); [done|]. by rewrite lookup_insert_eq.
  - assert (Hacc : (match assoc c (data df) with
                    | Some s =>
                        if type_valid e s then acc
                        else <[c := "Expected " +:+ e +:+ ", got "
                                    +:+ dtype_name s]> acc
                    | None => acc
                    end) !! col = acc !! col).
    { destruct (assoc c (data df)) as [s|]; [|done].
      destruct (type_valid e s); [done|]. by rewrite lookup_insert_ne. }
    rewrite Hacc. done.
Qed.

(** [validate_data_types] reports a column exactly when the
    specification names it, the table has it and its dtype fails the
    expected type; the message names the expected type and the dtype
    found.  Columns the table lacks are passed over, an expected type
    outside the four known ones is a mismatch for every column, and
    the check is valid exactly when nothing is reported. *)
Theorem validate_data_types_mismatches (self : DataValidator.t)
    (df : DataFrame) (type_spec : list (string * string)) :
  NoDup type_spec.*1 →
  (∀ col msg,
     (validate_data_types dtype_name self df type_spec).2 !! col = Some msg ↔
     ∃ expected s,
       (col, expected) ∈ type_spec ∧ assoc col (data df) = Some s ∧
       type_valid expected s = false ∧
       msg = "Expected " +:+ expected +:+ ", got " +:+ dtype_name s) ∧
  (∀ col expected s,
     (col, expected) ∈ type_spec → assoc col (data df) = Some s →
     expected ∉ known_types →
     is_Some ((validate_data_types dtype_name self df type_spec).2 !! col)) ∧
  ((validate_data_types dtype_name self df type_spec).1 = true ↔
   ∀ col expected s,
     (col, expected) ∈ type_spec → assoc col (data df) = Some s →
     type_valid expected s = true).
Proof.
  intros Hnd.
  assert (Hlook : ∀ col msg,
     (validate_data_types dtype_name self df type_spec).2 !! col = Some msg ↔
     ∃ expected s,
       (col, expected) ∈ type_spec ∧ assoc col (data df) = Some s ∧
       type_valid expected s = false ∧
       msg = "Expected " +:+ expected +:+ ", got " +:+ dtype_name s).
  { intros col msg. rewrite validate_data_types_lookup by done. split.
    - destruct (assoc col type_spec) as [e|] eqn:He; simpl; [|done].
      destruct (assoc col (data df)) as [s|] eqn:Hs; simpl; [|done].
      destruct (type_valid e s) eqn:Hv; [done|]. intros [= <-].
      exists e, s. split; [by apply assoc_elem | done].
    - intros (e & s & He & Hs & Hv & ->).
      rewrite (assoc_NoDup _ _ _ Hnd He). simpl. rewrite Hs. simpl.
      by rewrite Hv. }
  split; [done|]. split.
  - intros col e s He Hs Hk. eexists. apply Hlook. exists e, s.
    split; [done|]. split; [done|]. split; [|done].
    unfold type_valid. unfold known_types in Hk.
    repeat case_decide; try done; subst; exfalso; apply Hk; set_solver.
  - assert (Hsize : (validate_data_types dtype_name self df type_spec).1
                    = bool_decide
                        ((validate_data_types dtype_name self df type_spec).2 = ∅)).
    { unfold validate_data_types. cbn [fst snd]. apply bool_decide_ext.
      apply map_size_empty_iff. }
    rewrite Hsize, bool_decide_eq_true. split.
    + intros Hempty col e s He Hs.
      destruct (type_valid e s) eqn:Hv; [done|].
      assert (Hsome : (validate_data_types dtype_name self df type_spec).2 !! col
                      = Some ("Expected " +:+ e +:+ ", got " +:+ dtype_name s))
        by (apply Hlook; eauto 10).
      rewrite Hempty, lookup_empty in Hsome. done.
    + intros Hall. apply map_eq. intros col. rewrite lookup_empty.
      destruct (_ !! col) as [msg|] eqn:Hm; [|done].
      apply Hlook in Hm as (e & s & He & Hs & Hv & _).
      rewrite (Hall col e s He Hs) in Hv. done.
Qed.

End DataTypes.

(** A numeric column checked against an expected type the validator
    does not know: the mismatch is reported with the dtype found. *)
Lemma validate_data_types_mismatches_witness :
  (DataValidator.validate_data_types (λ _, "float64")
     (DataValidator.init default_config) typed_table
     [("compliance_pass", "boolean"); ("qa_score", "text")]).2 !! "qa_score"
  = Some "Expected text, got float64".
Proof.
  apply (validate_data_types_mismatches (λ _, "float64")
           (DataValidator.init default_config) typed_table
           [("compliance_pass", "boolean"); ("qa_score", "text")]).
  - simpl. repeat (apply NoDup_cons; split; [set_solver|]). apply NoDup_nil_2.
  - exists "text", (NumSeries [Some 90%R; Some 120%R; None]).
    split; [set_solver|]. split; [reflexivity|]. split; reflexivity.
Defined.

Section Ranges.
Import DataValidator.
Local Open Scope R_scope.

(** Missing entries are on neither side of a bound: the count is that
    of the values present that are not within the bounds. *)
Lemma out_of_range_dropna min_val max_val xs :
  out_of_range min_val max_val xs
  = length (filter (λ x, ¬ within min_val max_val x) (dropna xs)).
Proof.
  unfold out_of_range. induction xs as [|[x|] xs IH].
  - done.
  - rewrite dropna_cons_Some.
    assert (Hiff : (Float.ltb (Float.of_cell (Some x)) min_val
                    || Float.gtb (Float.of_cell (Some x)) max_val = true)
                   ↔ ¬ within min_val max_val x).
    { unfold within. cbn [Float.of_cell].
      destruct (Float.ltb (Fin x) min_val), (Float.gtb (Fin x) max_val);
        naive_solver. }
    destruct (decide (within min_val max_val x)) as [Hw|Hw].
    + rewrite !filter_cons_False by tauto. done.
    + rewrite !filter_cons_True by tauto. simpl. by rewrite IH.
  - rewrite dropna_cons_None. rewrite filter_cons_False; [done|].
    simpl. by destruct min_val, max_val.
Qed.

Lemma out_of_range_zero min_val max_val xs :
  out_of_range min_val max_val xs = 0%nat ↔
  ∀ x, Some x ∈ xs → within min_val max_val x.
Proof.
  rewrite out_of_range_dropna. rewrite length_zero_iff_nil. split.
  - intros Hnil x Hx. apply dropna_elem in Hx.
    destruct (decide (within min_val max_val x)) as [|Hn]; [done|].
    assert (Hin : x ∈ filter (λ x, ¬ within min_val max_val x) (dropna xs))
      by (by apply list_elem_of_filter).
    rewrite Hnil in Hin. by apply elem_of_nil in Hin.
  - intros Hall. apply elem_of_nil_inv. intros x Hx.
    apply list_elem_of_filter in Hx as [Hn Hx]. apply Hn, Hall.
    by apply dropna_elem.
Qed.

(** On a numeric column the two comparisons return, and the rows they
    mark are those counted by [out_of_range]. *)
Lemma series_compare_numeric op s v :
  is_numeric_dtype s = true → (∀ x, op x NaN = false) →
  series_compare op s v = Ok ((λ c, op (Float.of_cell c) v) <$> values s).
Proof.
  intros Hn Hop. unfold series_compare.
  destruct v; rewrite ?numeric_values_numeric by done; try done.
  f_equal. rewrite <- values_length. symmetry. apply const_fmap.
  intros. apply Hop.
Qed.

Lemma ltb_nan x : Float.ltb x NaN = false.
Proof. by destruct x. Qed.

Lemma gtb_nan x : Float.gtb x NaN = false.
Proof. done. Qed.

Lemma mask_sum_out_of_range min_val max_val xs :
  mask_sum (zip_with orb ((λ c, Float.ltb (Float.of_cell c) min_val) <$> xs)
                         ((λ c, Float.gtb (Float.of_cell c) max_val) <$> xs))
  = out_of_range min_val max_val xs.
Proof.
  unfold mask_sum, out_of_range. induction xs as [|c xs IH]; [done|].
  rewrite !fmap_cons. cbn [zip_with].
  destruct (Float.ltb (Float.of_cell c) min_val
            || Float.gtb (Float.of_cell c) max_val) eqn:Hb.
  - rewrite !filter_cons_True by done. cbn [length]. by rewrite IH.
  - rewrite !filter_cons_False by (by rewrite ?Hb). exact IH.
Qed.

Lemma series_compare_error op s v e :
  series_compare op s v = Raise e → e = TypeError.
Proof.
  unfold series_compare.
  destruct (numeric_values s) as [xs|e'] eqn:Hxs; destruct v;
    cbn [mbind Py.result_bind]; try done;
    intros [= <-]; by apply numeric_values_error in Hxs.
Qed.

(** The loop of [validate_value_ranges] over numeric columns. *)
Lemma validate_value_ranges_loop (df : DataFrame)
    (range_spec : list (string * (float * float))) (acc : gmap string nat) :
  NoDup range_spec.*1 →
  numeric_if_present df range_spec.*1 →
  ∃ violations,
    Py.for_each range_spec
      (λ (item : string * (float * float)) (violations : gmap string nat),
         if negb (has_column df item.1) then Ok violations
         else
           s ← getitem df item.1;
           below ← series_compare Float.ltb s item.2.1;
           above ← series_compare Float.gtb s item.2.2;
           if decide (0 < mask_sum (zip_with orb below above))%nat
           then Ok (<[item.1 := mask_sum (zip_with orb below above)]> violations)
           else Ok violations) acc = Ok violations ∧
    ∀ col, violations !! col
           = match assoc col range_spec, assoc col (data df) with
             | Some bounds, Some s =>
                 if decide (0 < out_of_range bounds.1 bounds.2 (values s))%nat
                 then Some (out_of_range bounds.1 bounds.2 (values s))
                 else acc !! col
             | _, _ => acc !! col
             end.
Proof.
  revert acc. induction range_spec as [|[c [lo hi]] spec IH];
    intros acc Hnd Hnum; cbn [Py.for_each].
  - eexists. split; [done|]. done.
  - rewrite fmap_cons in Hnd. apply NoDup_cons in Hnd as [Hc Hnd].
    cbn [fst snd] in *. apply assoc_None_not_elem in Hc.
    assert (Hnum' : numeric_if_present df spec.*1).
    { intros k s Hk Hs. apply (Hnum k s); [|done]. rewrite fmap_cons. by right. }
    set (step := if negb (has_column df c) then Ok acc
                 else s ← getitem df c;
                      below ← series_compare Float.ltb s lo;
                      above ← series_compare Float.gtb s hi;
                      if decide (0 < mask_sum (zip_with orb below above))%nat
                      then Ok (<[c := mask_sum (zip_with orb below above)]> acc)
                      else Ok acc).
    assert (Hstep : ∃ acc', step = Ok acc' ∧
              ∀ col, acc' !! col
                     = if decide (c = col)
                       then match assoc c (data df) with
                            | Some s =>
                                if decide (0 < out_of_range lo hi (values s))%nat
                                then Some (out_of_range lo hi (values s))
                                else acc !! col
                            | None => acc !! col
                            end
                       else acc !! col).
    { unfold step. destruct (has_column df c) eqn:Hhas; simpl.
      - apply has_column_getitem in Hhas as [s Hs]. rewrite Hs. simpl.
        assert (Hn : is_numeric_dtype s = true)
          by (apply (Hnum c s); [rewrite fmap_cons; left | done]).
        rewrite (series_compare_numeric Float.ltb) by (done || apply ltb_nan).
        cbn [mbind Py.result_bind].
        rewrite (series_compare_numeric Float.gtb) by (done || apply gtb_nan).
        cbn [mbind Py.result_bind]. rewrite mask_sum_out_of_range.
        unfold getitem in Hs. destruct (assoc c (data df)) as [s'|]; [|done].
        injection Hs as ->.
        destruct (decide (0 < out_of_range lo hi (values s))%nat).
        + eexists. split; [done|]. intros col. case_decide; subst.
          * by rewrite lookup_insert_eq.
          * by rewrite lookup_insert_ne.
        + eexists. split; [done|]. intros col. by case_decide.
      - eexists. split; [done|]. intros col. case_decide; [|done]. subst.
        destruct (assoc col (data df)) as [s|] eqn:Hs; [|done].
        apply getitem_assoc in Hs.
        assert (has_column df col = true) by (apply has_column_getitem; eauto).
        congruence. }
    destruct Hstep as (acc' & -> & Hacc'). simpl.
    destruct (IH acc' Hnd Hnum') as (v & -> & Hv).
    exists v. split; [done|]. intros col. rewrite Hv, Hacc'. cbn [assoc].
    destruct (decide (c = col)) as [->|Hne].
    + rewrite Hc. cbn [fst snd]. done.
    + destruct (assoc col spec) as [b|]; [|done].
      destruct (assoc col (data df)); done.
Qed.

(** On numeric columns [validate_value_ranges] returns.  It reports a
    column when the table has it and some value present lies below the
    minimum or above the maximum, with the number of such values;
    missing entries never count, and absent columns are passed over.
    The check is valid exactly when every value present of every listed
    column is within its bounds. *)
Theorem validate_value_ranges_violations (self : DataValidator.t)
    (df : DataFrame) (range_spec : list (string * (float * float))) :
  NoDup range_spec.*1 →
  numeric_if_present df range_spec.*1 →
  ∃ violations,
    validate_value_ranges self df range_spec
    = Ok (bool_decide (violations = ∅), violations) ∧
    (∀ col n, violations !! col = Some n ↔
       ∃ min_val max_val s,
         (col, (min_val, max_val)) ∈ range_spec ∧ getitem df col = Ok s ∧
         n = length (filter (λ x, ¬ within min_val max_val x)
                            (dropna (values s))) ∧
         (0 < n)%nat) ∧
    (violations = ∅ ↔
     ∀ col min_val max_val s x,
       (col, (min_val, max_val)) ∈ range_spec → getitem df col = Ok s →
       Some x ∈ values s → within min_val max_val x).
Proof.
  intros Hnd Hnum. unfold validate_value_ranges.
  destruct (validate_value_ranges_loop df range_spec ∅ Hnd Hnum)
    as (v & -> & Hv).
  exists v. simpl. split.
  { do 2 f_equal. apply bool_decide_ext. apply map_size_empty_iff. }
  assert (Hlook : ∀ col n, v !! col = Some n ↔
       ∃ min_val max_val s,
         (col, (min_val, max_val)) ∈ range_spec ∧ getitem df col = Ok s ∧
         n = out_of_range min_val max_val (values s) ∧ (0 < n)%nat).
  { intros col n. rewrite Hv, lookup_empty. split.
    - destruct (assoc col range_spec) as [[lo hi]|] eqn:Hb; [|done].
      destruct (assoc col (data df)) as [s|] eqn:Hs; [|done].
      cbn [fst snd]. case_decide; [|done]. intros [= <-].
      exists lo, hi, s. split; [by apply assoc_elem|].
      split; [by apply getitem_assoc | done].
    - intros (lo & hi & s & Hb & Hs & -> & Hpos).
      rewrite (assoc_NoDup _ _ _ Hnd Hb).
      unfold getitem in Hs. destruct (assoc col (data df)); [|done].
      injection Hs as ->. cbn [fst snd]. by rewrite decide_True. }
  split.
  - intros col n. rewrite Hlook. by setoid_rewrite out_of_range_dropna.
  - split.
    + intros -> col lo hi s x Hb Hs Hx.
      destruct (decide (0 < out_of_range lo hi (values s))%nat) as [Hpos|Hz].
      * assert (Hsome : (∅ : gmap string nat) !! col
                        = Some (out_of_range lo hi (values s)))
          by (apply Hlook; eauto 10).
        by rewrite lookup_empty in Hsome.
      * apply (out_of_range_zero lo hi (values s)); [lia | done].
    + intros Hall. apply map_eq. intros col. rewrite lookup_empty.
      destruct (v !! col) as [n|] eqn:Hn; [|done].
      apply Hlook in Hn as (lo & hi & s & Hb & Hs & -> & Hpos).
      assert (out_of_range lo hi (values s) = 0%nat); [|lia].
      apply out_of_range_zero. intros x Hx. by eapply Hall.
Qed.

End Ranges.

Lemma typed_table_wf : wf typed_table.
Proof. solve_wf. Qed.

(** QA scores 90, 120 and one missing, checked against [0, 100]: one
    violation. *)
Lemma validate_value_ranges_violations_witness :
  ∃ violations,
    DataValidator.validate_value_ranges (DataValidator.init default_config)
      typed_table [("qa_score", (Fin 0%R, Fin 100%R))]
    = Ok (bool_decide (violations = ∅), violations) ∧
    ∀ n, violations !! "qa_score" = Some n → (0 < n)%nat.
Proof.
  destruct (validate_value_ranges_violations (DataValidator.init default_config)
              typed_table [("qa_score", (Fin 0%R, Fin 100%R))])
    as (v & Hrun & Hlook & _).
  - simpl. apply NoDup_cons. split; [set_solver | apply NoDup_nil_2].
  - intros c s Hc Hs. simpl in Hc. apply list_elem_of_singleton in Hc. subst.
    injection Hs as <-. reflexivity.
  - exists v. split; [exact Hrun|]. intros n Hn.
    apply Hlook in Hn as (_ & _ & _ & _ & _ & _ & Hpos). exact Hpos.
Defined.

Section RangesOfText.
Import DataValidator.

Lemma numeric_values_text xs t :
  Some t ∈ xs → numeric_values (ObjSeries xs) = Raise TypeError.
Proof.
  intros Hin. simpl.
  destruct (forallb is_none xs) eqn:Hall; [|done].
  rewrite forallb_forall in Hall.
  apply list_elem_of_In in Hin. by apply Hall in Hin.
Qed.

Lemma series_compare_text op xs t v :
  Some t ∈ xs → v ≠ NaN → series_compare op (ObjSeries xs) v = Raise TypeError.
Proof.
  intros Hin Hv. unfold series_compare.
  destruct v; try done; by rewrite (numeric_values_text xs t Hin).
Qed.

(** A range given for a text column that holds a string is not
    reported as a violation: as soon as one of the two bounds is a
    number, the comparison with it raises [TypeError] and
    [validate_value_ranges] returns nothing.  A range whose bounds are
    both NaN is answered without comparing: for any column, text
    included, it gives no violation and no error. *)
Theorem validate_value_ranges_text (self : DataValidator.t) (df : DataFrame)
    (range_spec : list (string * (float * float)))
    (col : string) (bounds : float * float)
    (xs : list (option string)) (t : string) :
  ((col, bounds) ∈ range_spec →
   getitem df col = Ok (ObjSeries xs) →
   Some t ∈ xs →
   bounds.1 ≠ NaN ∨ bounds.2 ≠ NaN →
   validate_value_ranges self df range_spec = Raise TypeError) ∧
  validate_value_ranges self df [(col, (NaN, NaN))] = Ok (true, ∅).
Proof.
  split.
  - intros Hin Hcol Ht Hb. unfold validate_value_ranges.
    cut (∀ acc : gmap string nat,
           Py.for_each range_spec
             (λ (item : string * (float * float)) (violations : gmap string nat),
                if negb (has_column df item.1) then Ok violations
                else
                  s ← getitem df item.1;
                  below ← series_compare Float.ltb s item.2.1;
                  above ← series_compare Float.gtb s item.2.2;
                  if decide (0 < mask_sum (zip_with orb below above))
                  then Ok (<[item.1 := mask_sum (zip_with orb below above)]>
                             violations)
                  else Ok violations) acc = Raise TypeError).
    { intros H. by rewrite H. }
    induction range_spec as [|item spec IH]; intros acc;
      [by apply elem_of_nil in Hin|].
    cbn [Py.for_each].
    destruct (decide (item = (col, bounds))) as [->|Hne].
    + cbn [fst snd] in *.
      assert (Hhas : has_column df col = true)
        by (apply has_column_getitem; eauto).
      rewrite Hhas, Hcol. cbn [negb mbind Py.result_bind].
      destruct (decide (bounds.1 = NaN)) as [Hlo|Hlo].
      * rewrite Hlo. cbn [series_compare mbind Py.result_bind].
        rewrite (series_compare_text Float.gtb xs t) by (done || tauto).
        done.
      * by rewrite (series_compare_text Float.ltb xs t).
    + apply elem_of_cons in Hin as [?|Hin]; [congruence|].
      destruct (has_column df item.1) eqn:Hhas; cbn [negb].
      * apply has_column_getitem in Hhas as [s Hs]. rewrite Hs.
        cbn [mbind Py.result_bind].
        destruct (series_compare Float.ltb s item.2.1) as [below|e] eqn:Hlt;
          cbn [mbind Py.result_bind];
          [|apply series_compare_error in Hlt; by subst].
        destruct (series_compare Float.gtb s item.2.2) as [above|e] eqn:Hgt;
          cbn [mbind Py.result_bind];
          [|apply series_compare_error in Hgt; by subst].
        case_decide; by apply IH.
      * by apply IH.
  - unfold validate_value_ranges. cbn [Py.for_each fst snd].
    destruct (has_column df col) eqn:Hhas; cbn [negb mbind Py.result_bind].
    + apply has_column_getitem in Hhas as [s Hs]. rewrite Hs.
      cbn [mbind Py.result_bind series_compare].
      assert (Hz : mask_sum (zip_with orb (replicate (series_len s) false)
                                          (replicate (series_len s) false))
                   = 0).
      { unfold mask_sum. induction (series_len s) as [|n IHn]; [done|].
        cbn [replicate zip_with orb]. by rewrite filter_cons_False. }
      rewrite Hz. rewrite decide_False by lia. done.
    + done.
Qed.

End RangesOfText.

(** The agent names of the extract, checked against [0, 1]. *)
Lemma validate_value_ranges_text_witness :
  DataValidator.validate_value_ranges (DataValidator.init default_config)
    typed_table [("agent", (Fin 0%R, Fin 1%R))]
  = Raise TypeError.
Proof.
  apply (validate_value_ranges_text (DataValidator.init default_config)
           typed_table [("agent", (Fin 0%R, Fin 1%R))]
           "agent" (Fin 0%R, Fin 1%R) [Some "ann"; Some "bob"; None] "ann").
  - left.
  - reflexivity.
  - left.
  - left. discriminate.
Defined.

Section ValidateAll.
Import DataValidator.

Lemma check_data_quality_runs (self : DataValidator.t) (df : DataFrame) :
  wf df → ∃ report, check_data_quality self df = Ok report.
Proof.
  intros Hwf. unfold check_data_quality.
  set (g := λ c, match assoc c (data df) with
                 | Some (NumSeries xs) => stats_of xs
                 | _ => stats_of []
                 end).
  destruct (for_each_insert (select_dtypes_number df) (describe_column df) g ∅)
    as (m & -> & Hm).
  { intros c Hc. apply select_dtypes_number_elem in Hc as [xs Hxs]; [|done].
    unfold g. rewrite Hxs. by apply describe_column_numeric. }
  simpl. eauto.
Qed.

(** [validate_all] returns for every table: too few rows and missing
    required columns are reported in the result, not raised.  The
    sufficiency entry is that of [validate_sufficient_data]; the schema
    entry is that of [validate_schema] and exists only when the list of
    required columns is given and not empty. *)
Theorem validate_all_reports (self : DataValidator.t) (df : DataFrame)
    (required_columns : option (list string)) :
  wf df →
  ∃ results, validate_all self df required_columns = Ok results ∧
    check_data_quality self df = Ok (quality_report results) ∧
    sufficient_data results = validate_sufficient_data self df ∧
    (schema_valid results = None ↔
     required_columns = None ∨ required_columns = Some []) ∧
    (∀ cols, required_columns = Some cols → cols ≠ [] →
       schema_valid results = Some (validate_schema self df cols)).
Proof.
  intros Hwf. unfold validate_all.
  destruct (check_data_quality_runs self df Hwf) as [report ->]. simpl.
  eexists. split; [done|]. simpl. split; [done|]. split; [done|]. split.
  - destruct required_columns as [[|c cols]|]; naive_solver.
  - intros cols -> Hne. by destruct cols.
Qed.

(** Ten rows with a minimum of 30, two required columns of which one is
    missing: the call returns and reports both findings. *)
Lemma validate_all_reports_witness :
  ∃ results,
    validate_all (DataValidator.init default_config) ten_rows
      (Some ["handle_time"; "qa_score"]) = Ok results ∧
    sufficient_data results
    = (false, "Insufficient data: 10 rows (minimum: 30)") ∧
    schema_valid results = Some (false, ["qa_score"]).
Proof.
  destruct (validate_all_reports (DataValidator.init default_config) ten_rows
              (Some ["handle_time"; "qa_score"]) ten_rows_wf)
    as (results & Hrun & _ & Hsuff & _ & Hschema).
  exists results. split; [exact Hrun|]. split.
  - rewrite Hsuff. reflexivity.
  - rewrite (Hschema ["handle_time"; "qa_score"] eq_refl ltac:(discriminate)).
    reflexivity.
Defined.

End ValidateAll.

(** ** Cleaner: duplicate rows *)

Section MaskFacts.

Lemma mask_select_length {A} (mask : list bool) (xs : list A) :
  length xs = length mask →
  length (mask_select mask xs) = length (filter (λ b, b = true) mask).
Proof.
  revert xs. induction mask as [|b mask IH]; intros [|x xs] Hlen; try done.
  injection Hlen as Hlen. destruct b; cbn [mask_select].
  - rewrite filter_cons_True by done. cbn [length]. by rewrite IH.
  - rewrite filter_cons_False by done. by rewrite IH.
Qed.

Lemma mask_select_all {A} (xs : list A) :
  mask_select (replicate (length xs) true) xs = xs.
Proof. induction xs as [|x xs IH]; [done|]. simpl. by rewrite IH. Qed.

Lemma rows_length df : length (rows df) = index_len df.
Proof. unfold rows. by rewrite length_fmap, length_seq. Qed.

(** The rows of [df[mask]], as a selection of the rows of [df]. *)
Lemma rows_select_mask (mask : list bool) (df : DataFrame) :
  wf df → length mask = index_len df →
  rows (select_rows mask df) = mask_select mask (rows df).
Proof.
  intros Hwf Hlen. rewrite rows_select_rows by done.
  unfold rows. by rewrite mask_select_fmap.
Qed.

Lemma select_rows_wf (mask : list bool) (df : DataFrame) :
  wf df → length mask = index_len df → wf (select_rows mask df).
Proof.
  intros [Hnd Hwf] Hlen. split.
  - unfold columns. cbn [select_rows data]. rewrite <- list_fmap_compose.
    exact Hnd.
  - cbn [select_rows data index_len]. apply Forall_fmap, Forall_forall.
    intros [c s] Hp. unfold compose. cbn [snd]. unfold series_len.
    rewrite cells_series_select.
    rewrite Forall_forall in Hwf. specialize (Hwf _ Hp). cbn [snd] in Hwf.
    unfold series_len in Hwf.
    rewrite !mask_select_length; [done | by rewrite length_seq | lia].
Qed.

Lemma select_rows_columns (mask : list bool) (df : DataFrame) :
  columns (select_rows mask df) = columns df.
Proof.
  unfold columns. cbn [select_rows data]. by rewrite <- list_fmap_compose.
Qed.

Lemma series_select_all s :
  series_select (replicate (series_len s) true) s = s.
Proof.
  unfold series_len. destruct s; simpl; rewrite length_fmap;
    by rewrite mask_select_all.
Qed.

(** A mask that keeps every row leaves the table as it is. *)
Lemma select_rows_all (df : DataFrame) :
  wf df → select_rows (replicate (index_len df) true) df = df.
Proof.
  intros [_ Hwf]. destruct df as [cols n]. unfold select_rows. cbn in *.
  f_equal.
  - rewrite <- (list_fmap_id cols) at 2. apply list_fmap_ext.
    intros i [c s] Hp. cbn [fst snd]. unfold id.
    rewrite Forall_forall in Hwf.
    specialize (Hwf _ (list_elem_of_lookup_2 _ _ _ Hp)). cbn [snd] in Hwf.
    rewrite <- Hwf. by rewrite series_select_all.
  - pose proof (mask_select_all (seq 0 n)) as Hall. rewrite length_seq in Hall.
    by rewrite Hall, length_seq.
Qed.

End MaskFacts.

Section Duplicates.
Import DataCleaner.

Lemma duplicated_from_length seen rs :
  length (duplicated_from seen rs) = length rs.
Proof.
  revert seen. induction rs as [|r rs IH]; intros seen; [done|].
  simpl. by rewrite IH.
Qed.

(** A row is marked when it is among the rows seen before it. *)
Lemma duplicated_from_lookup seen rs i r :
  rs !! i = Some r →
  duplicated_from seen rs !! i = Some (bool_decide (r ∈ seen ∨ r ∈ take i rs)).
Proof.
  revert seen i. induction rs as [|r0 rs IH]; intros seen i Hi; [done|].
  destruct i as [|i]; simpl in *.
  - injection Hi as ->. f_equal. apply bool_decide_ext.
    split; [auto | intros [?|H]; [done | by apply elem_of_nil in H]].
  - rewrite (IH _ _ Hi). f_equal. apply bool_decide_ext.
    rewrite !elem_of_cons. tauto.
Qed.

(** What is kept has no repetition and was not seen before. *)
Lemma kept_NoDup seen rs :
  NoDup (mask_select (negb <$> duplicated_from seen rs) rs) ∧
  ∀ r, r ∈ mask_select (negb <$> duplicated_from seen rs) rs ↔
       r ∈ rs ∧ r ∉ seen.
Proof.
  revert seen. induction rs as [|r0 rs IH]; intros seen.
  - split; [apply NoDup_nil_2|]. intros r. simpl.
    split; [by intros H%elem_of_nil | by intros [H%elem_of_nil _]].
  - destruct (IH (r0 :: seen)) as [Hnd Hel]. cbn [duplicated_from fmap list_fmap].
    change (list_fmap bool bool negb) with (fmap (M := list) negb).
    case_bool_decide as Hseen; cbn [negb mask_select].
    + split; [done|]. intros r. rewrite Hel. split.
      * intros [Hr Hn]. apply not_elem_of_cons in Hn as [_ Hn].
        split; [by right | done].
      * intros [Hr Hn]. apply elem_of_cons in Hr as [->|Hr]; [done|].
        split; [done|]. apply not_elem_of_cons. split; [by intros ->|done].
    + split.
      * apply NoDup_cons. split; [|done]. rewrite Hel.
        intros [_ Hn]. apply Hn. left.
      * intros r. rewrite elem_of_cons, Hel. split.
        -- intros [->|[Hr Hn]]; [split; [left | done]|].
           apply not_elem_of_cons in Hn as [_ Hn]. split; [by right | done].
        -- intros [Hr Hn]. apply elem_of_cons in Hr as [->|Hr]; [by left|].
           destruct (decide (r = r0)) as [->|Hne]; [by left|]. right.
           split; [done|]. by apply not_elem_of_cons.
Qed.

Lemma duplicated_from_NoDup seen rs :
  NoDup rs → (∀ r, r ∈ rs → r ∉ seen) →
  duplicated_from seen rs = replicate (length rs) false.
Proof.
  revert seen. induction rs as [|r0 rs IH]; intros seen Hnd Hseen; [done|].
  apply NoDup_cons in Hnd as [Hr0 Hnd]. simpl.
  rewrite bool_decide_eq_false_2 by (apply Hseen; left). f_equal.
  apply IH; [done|]. intros r Hr. rewrite not_elem_of_cons. split.
  - by intros ->.
  - apply Hseen. by right.
Qed.

(** [count_seen] counts the marks of [duplicated_from]. *)
Lemma count_seen_duplicated seen rs :
  count_seen seen rs = length (filter (λ b, b = true) (duplicated_from seen rs)).
Proof.
  revert seen. induction rs as [|r rs IH]; intros seen; [done|].
  simpl. rewrite IH. case_bool_decide.
  - by rewrite filter_cons_True.
  - by rewrite filter_cons_False.
Qed.

Lemma filter_negb_length (mask : list bool) :
  (length (filter (λ b, b = true) (negb <$> mask))
   + length (filter (λ b, b = true) mask) = length mask)%nat.
Proof.
  induction mask as [|[] mask IH]; [done| |].
  - rewrite fmap_cons. cbn [negb].
    rewrite filter_cons_False, filter_cons_True by done. simpl. lia.
  - rewrite fmap_cons. cbn [negb].
    rewrite filter_cons_True, filter_cons_False by done. simpl. lia.
Qed.

(** The table [remove_duplicates] returns, for a table with rows and
    columns. *)
Lemma remove_duplicates_run (self : DataCleaner.t) (df : DataFrame) :
  data df ≠ [] → index_len df ≠ 0 →
  remove_duplicates self df
  = select_rows (negb <$> duplicated_from [] (rows df)) df.
Proof.
  intros Hcols Hrows. unfold remove_duplicates, drop_duplicates, duplicated.
  rewrite bool_decide_eq_false_2.
  - by destruct (data df).
  - intros [H|H]; [|done]. by apply length_zero_iff_nil in H.
Qed.

Lemma remove_duplicates_rows (self : DataCleaner.t) (df : DataFrame) :
  wf df → data df ≠ [] →
  rows (remove_duplicates self df)
  = mask_select (negb <$> duplicated_from [] (rows df)) (rows df).
Proof.
  intros Hwf Hcols. destruct (decide (index_len df = 0)) as [Hz|Hnz].
  - unfold remove_duplicates, drop_duplicates.
    rewrite bool_decide_eq_true_2 by auto.
    unfold rows. by rewrite Hz.
  - rewrite remove_duplicates_run by done.
    apply rows_select_mask; [done|].
    by rewrite length_fmap, duplicated_from_length, rows_length.
Qed.

(** On a table with at least one column [remove_duplicates] keeps, in
    their order, exactly the rows that are not equal to an earlier row:
    the first occurrence of every row stays, no row occurs twice in the
    result, and no row of the input is lost altogether. *)
Theorem remove_duplicates_first_occurrences (self : DataCleaner.t)
    (df : DataFrame) :
  wf df → columns df ≠ [] →
  rows (remove_duplicates self df)
  = row df <$> filter (λ i, row df i ∉ take i (rows df)) (seq 0 (len df)) ∧
  NoDup (rows (remove_duplicates self df)) ∧
  (∀ r, r ∈ rows (remove_duplicates self df) ↔ r ∈ rows df).
Proof.
  intros Hwf Hcols.
  assert (Hdata : data df ≠ []).
  { intros H. apply Hcols. unfold columns. by rewrite H. }
  rewrite remove_duplicates_rows by done.
  destruct (kept_NoDup [] (rows df)) as [Hnd Hel].
  split; [|split; [done|]].
  - set (mask := negb <$> duplicated_from [] (rows df)).
    assert (Hlen : length mask = index_len df)
      by (unfold mask; by rewrite length_fmap, duplicated_from_length, rows_length).
    unfold rows at 1. rewrite <- mask_select_fmap. f_equal.
    pose proof (mask_select_seq_filter mask 0) as Hsel. rewrite Hlen in Hsel.
    rewrite Hsel. unfold len. apply filter_ext_elem. intros i Hi.
    apply elem_of_seq in Hi. rewrite Nat.sub_0_r. unfold mask.
    assert (Hrow : rows df !! i = Some (row df i)).
    { unfold rows. rewrite list_lookup_fmap, lookup_seq_lt by lia. done. }
    rewrite list_lookup_fmap, (duplicated_from_lookup [] _ i _ Hrow). simpl.
    split.
    + intros [= H]. apply negb_true_iff, bool_decide_eq_false in H. tauto.
    + intros H. f_equal. apply negb_true_iff, bool_decide_eq_false_2.
      intros [Hin|Hin]; [by apply elem_of_nil in Hin | done].
  - intros r. rewrite Hel. split; [tauto|]. intros H. split; [done|].
    apply not_elem_of_nil.
Qed.

Lemma repeated_table_wf : wf repeated_table.
Proof. solve_wf. Qed.

(** Four calls of which the third repeats the first: no row occurs
    twice afterwards. *)
Lemma remove_duplicates_first_occurrences_witness :
  NoDup (rows (remove_duplicates (DataCleaner.init default_config)
                 repeated_table)).
Proof.
  apply (remove_duplicates_first_occurrences (DataCleaner.init default_config)
           repeated_table repeated_table_wf).
  discriminate.
Defined.

(** The shape of the table [remove_duplicates] returns. *)
Lemma remove_duplicates_shape (self : DataCleaner.t) (df : DataFrame) :
  wf df →
  wf (remove_duplicates self df) ∧
  columns (remove_duplicates self df) = columns df ∧
  (len (remove_duplicates self df) + duplicated_sum df = len df)%nat.
Proof.
  intros Hwf.
  destruct (decide (data df = [] ∨ index_len df = 0)) as [Hempty|Hne].
  - assert (Hrun : remove_duplicates self df = df).
    { unfold remove_duplicates, drop_duplicates.
      rewrite bool_decide_eq_true_2; [done|].
      destruct Hempty as [->|]; auto. }
    rewrite !Hrun. split; [done|]. split; [done|].
    assert (Hz : duplicated_sum df = 0).
    { unfold duplicated_sum. destruct Hempty as [->|Hz]; [done|].
      destruct (data df); [done|]. unfold rows. by rewrite Hz. }
    rewrite Hz. lia.
  - assert (Hdata : data df ≠ []) by tauto.
    assert (Hrows : index_len df ≠ 0) by tauto.
    set (mask := negb <$> duplicated_from [] (rows df)).
    assert (Hlen : length mask = index_len df)
      by (unfold mask; by rewrite length_fmap, duplicated_from_length, rows_length).
    rewrite (remove_duplicates_run self df Hdata Hrows). fold mask.
    split; [by apply select_rows_wf|]. split; [apply select_rows_columns|].
    unfold len. cbn [select_rows index_len].
    rewrite mask_select_length by (by rewrite length_seq).
    unfold duplicated_sum. destruct (data df) as [|p l] eqn:E; [done|].
    rewrite count_seen_duplicated. unfold mask.
    pose proof (filter_negb_length (duplicated_from [] (rows df))) as Hsum.
    rewrite duplicated_from_length, rows_length in Hsum. lia.
Qed.

(** A table whose rows are pairwise different has no duplicated row,
    and [remove_duplicates] leaves it as it is. *)
Lemma remove_duplicates_fixed (self : DataCleaner.t) (df : DataFrame) :
  wf df → NoDup (rows df) →
  duplicated_sum df = 0 ∧ remove_duplicates self df = df.
Proof.
  intros Hwf Hnd.
  assert (Hall : duplicated_from [] (rows df) = replicate (index_len df) false).
  { rewrite <- (rows_length df).
    apply duplicated_from_NoDup; [done|]. intros; apply not_elem_of_nil. }
  split.
  - unfold duplicated_sum. destruct (data df); [done|].
    rewrite count_seen_duplicated, Hall.
    apply length_zero_iff_nil. apply elem_of_nil_inv. intros b Hb.
    apply list_elem_of_filter in Hb as [-> Hb].
    by apply elem_of_replicate in Hb as [? _].
  - unfold remove_duplicates, drop_duplicates.
    case_bool_decide as Hemp; [done|].
    assert (Hdup : duplicated df = replicate (index_len df) false).
    { unfold duplicated. destruct (data df) eqn:E; [|exact Hall].
      exfalso. apply Hemp. by left. }
    rewrite Hdup, fmap_replicate. by apply select_rows_all.
Qed.

Lemma remove_duplicates_NoDup (self : DataCleaner.t) (df : DataFrame) :
  wf df → data df ≠ [] → NoDup (rows (remove_duplicates self df)).
Proof.
  intros Hwf Hdata. rewrite remove_duplicates_rows by done. apply kept_NoDup.
Qed.

(** [remove_duplicates] returns a well-formed table with the columns of
    the input.  The rows it removes are as many as [df.duplicated().sum()]
    counts, the figure the quality report gives as [duplicate_rows];
    the result has no duplicated row left, and removing duplicates a
    second time changes nothing. *)
Theorem remove_duplicates_count (self : DataCleaner.t) (df : DataFrame) :
  wf df →
  wf (remove_duplicates self df) ∧
  columns (remove_duplicates self df) = columns df ∧
  (len (remove_duplicates self df) + duplicated_sum df = len df)%nat ∧
  duplicated_sum (remove_duplicates self df) = 0 ∧
  remove_duplicates self (remove_duplicates self df)
  = remove_duplicates self df.
Proof.
  intros Hwf.
  destruct (remove_duplicates_shape self df Hwf) as (Hwf' & Hcols & Hlen).
  split; [done|]. split; [done|]. split; [done|].
  destruct (decide (data df = [])) as [Hempty|Hdata].
  - assert (Hrun : remove_duplicates self df = df).
    { unfold remove_duplicates, drop_duplicates.
      rewrite bool_decide_eq_true_2; [done|]. left. by rewrite Hempty. }
    rewrite !Hrun. split; [|done]. unfold duplicated_sum. by rewrite Hempty.
  - apply remove_duplicates_fixed; [done|].
    by apply remove_duplicates_NoDup.
Qed.

(** The table with one repeated call: three rows are left. *)
Lemma remove_duplicates_count_witness :
  (len (remove_duplicates (DataCleaner.init default_config) repeated_table)
   + duplicated_sum repeated_table = 4)%nat ∧
  duplicated_sum (remove_duplicates (DataCleaner.init default_config)
                    repeated_table) = 0.
Proof.
  destruct (remove_duplicates_count (DataCleaner.init default_config)
              repeated_table repeated_table_wf) as (_ & _ & Hlen & Hzero & _).
  split; [exact Hlen | exact Hzero].
Defined.

End Duplicates.

(** ** Cleaner: missing values *)

Section ColumnAssignment.

(** The columns of [m], written over those of the same name in [l]. *)
Lemma assoc_set_present {A} (k : string) (v : A) (l : list (string * A)) :
  NoDup l.*1 → k ∈ l.*1 →
  assoc_set k v l = (λ p, if decide (p.1 = k) then (k, v) else p) <$> l.
Proof.
  induction l as [|[k' v'] l IH]; intros Hnd Hin; [by apply elem_of_nil in Hin|].
  rewrite fmap_cons in Hnd. apply NoDup_cons in Hnd as [Hk' Hnd].
  cbn [assoc_set fmap list_fmap fst]. case_decide as Hk; subst.
  - f_equal. rewrite <- (list_fmap_id l) at 1. apply list_fmap_ext.
    intros i [k2 v2] Hp. cbn [fst]. rewrite decide_False; [done|].
    intros ->. apply Hk'. apply list_elem_of_fmap. exists (k, v2).
    split; [done|]. by eapply list_elem_of_lookup_2.
  - f_equal. apply IH; [done|].
    rewrite fmap_cons in Hin. apply elem_of_cons in Hin as [?|?]; [|done].
    simpl in *. congruence.
Qed.

Lemma assoc_set_keys {A} (k : string) (v : A) (l : list (string * A)) :
  k ∈ l.*1 → (assoc_set k v l).*1 = l.*1.
Proof.
  induction l as [|[k' v'] l IH]; intros Hin; [by apply elem_of_nil in Hin|].
  cbn [assoc_set]. case_decide as Hk; subst; [done|].
  rewrite !fmap_cons. f_equal. apply IH.
  rewrite fmap_cons in Hin. apply elem_of_cons in Hin as [?|?]; [|done].
  simpl in *. congruence.
Qed.

Lemma setitem_ok (df : DataFrame) (c : string) (s : Series) :
  series_len s = index_len df →
  setitem df c s
  = Ok {| data := assoc_set c s (data df); index_len := index_len df |}.
Proof. intros H. unfold setitem. by rewrite decide_True. Qed.

(** Assigning, one after the other, new values to columns that exist. *)
Lemma for_each_setitem (df : DataFrame) (kvs : list (string * (string * Series))) :
  NoDup (columns df) → NoDup kvs.*1 →
  Forall (λ kv, kv.1 ∈ columns df ∧ series_len kv.2.2 = index_len df) kvs →
  Py.for_each kvs (λ (kv : string * (string * Series)) df,
                     setitem df kv.1 kv.2.2) df
  = Ok {| data := (λ p, match assoc p.1 kvs with
                        | Some v => (p.1, v.2)
                        | None => p
                        end) <$> data df;
          index_len := index_len df |}.
Proof.
  revert df. induction kvs as [|[k [k0 s]] kvs IH]; intros df Hnd Hk Hall.
  - cbn [Py.for_each assoc]. rewrite list_fmap_id. by destruct df.
  - rewrite fmap_cons in Hk. apply NoDup_cons in Hk as [Hk Hks].
    apply Forall_cons in Hall as [[Hin Hlen] Hall]. cbn [fst snd] in *.
    cbn [Py.for_each fst snd]. rewrite (setitem_ok df k s Hlen).
    cbn [mbind Py.result_bind].
    rewrite IH; cbn [data index_len columns].
    + f_equal. f_equal. unfold columns in *.
      rewrite assoc_set_present by done. rewrite <- list_fmap_compose.
      apply list_fmap_ext. intros i [c v] Hp. cbn [compose fst assoc].
      destruct (decide (c = k)) as [->|Hne].
      * rewrite decide_True by done. cbn [fst snd].
        apply assoc_None_not_elem in Hk. by rewrite Hk.
      * rewrite (decide_False (P := k = c)) by done. done.
    + unfold columns in *. cbn [data]. by rewrite assoc_set_keys.
    + done.
    + eapply Forall_impl; [exact Hall|]. intros kv [Hkv ?]. split; [|done].
      unfold columns in *. cbn [data]. by rewrite assoc_set_keys.
Qed.

(** [df[names]] for the names of the columns with a property. *)
Lemma getitems_filter (P : string * Series → Prop) `{!∀ p, Decision (P p)}
    (df : DataFrame) :
  wf df →
  getitems df (filter P (data df)).*1
  = Ok {| data := filter P (data df); index_len := index_len df |}.
Proof.
  intros [Hnd _]. unfold getitems.
  rewrite map_result_lookup; [done|].
  intros [c s] Hp. apply list_elem_of_filter in Hp as [_ Hp].
  by apply assoc_NoDup.
Qed.

(** Looking a column up among the re-computed columns with a
    property. *)
Lemma assoc_filter_fmap (P : string * Series → Prop) `{!∀ p, Decision (P p)}
    (h : string * Series → Series) (l : list (string * Series)) c s :
  NoDup l.*1 → (c, s) ∈ l →
  assoc c ((λ p, (p.1, (p.1, h p))) <$> filter P l)
  = if decide (P (c, s)) then Some (c, h (c, s)) else None.
Proof.
  induction l as [|[k v] l IH]; intros Hnd Hin; [by apply elem_of_nil in Hin|].
  rewrite fmap_cons in Hnd. apply NoDup_cons in Hnd as [Hk Hnd]. cbn [fst] in Hk.
  assert (Hnot : ∀ v', (k, v') ∉ l).
  { intros v' Hv. apply Hk. apply list_elem_of_fmap. by exists (k, v'). }
  apply elem_of_cons in Hin as [[= -> ->]|Hin].
  - destruct (decide (P (k, v))) as [HP|HP].
    + rewrite filter_cons_True by done. rewrite fmap_cons. cbn [assoc fst].
      by rewrite decide_True.
    + rewrite filter_cons_False by done.
      apply assoc_None_not_elem. rewrite <- list_fmap_compose.
      intros Hc. apply list_elem_of_fmap in Hc as ([k' v'] & Heq & Hp).
      cbn in Heq. subst k'. apply list_elem_of_filter in Hp as [_ Hp].
      by apply (Hnot v').
  - assert (Hne : k ≠ c) by (intros ->; by apply (Hnot s)).
    destruct (decide (P (k, v))).
    + rewrite filter_cons_True by done. rewrite fmap_cons. cbn [assoc fst].
      rewrite decide_False by done. by apply IH.
    + rewrite filter_cons_False by done. by apply IH.
Qed.

(** [df[names] = value] where [value] re-computes the columns with a
    property: those columns are replaced in place. *)
Lemma setitems_filter (P : string * Series → Prop) `{!∀ p, Decision (P p)}
    (h : string * Series → Series) (df : DataFrame) idx :
  wf df →
  (∀ p, p ∈ data df → P p → series_len (h p) = index_len df) →
  setitems df (filter P (data df)).*1
    {| data := (λ p, (p.1, h p)) <$> filter P (data df); index_len := idx |}
  = Ok {| data := (λ p, if decide (P p) then (p.1, h p) else p) <$> data df;
          index_len := index_len df |}.
Proof.
  intros [Hnd Hwf] Hlen. unfold setitems. cbn [data].
  rewrite !length_fmap. rewrite decide_True by done.
  set (kept := filter P (data df)).
  assert (Hzip : zip kept.*1 ((λ p, (p.1, h p)) <$> kept)
                 = (λ p, (p.1, (p.1, h p))) <$> kept).
  { induction kept as [|p l IH]; [done|]. rewrite !fmap_cons. cbn [zip zip_with].
    by rewrite IH. }
  rewrite Hzip. rewrite for_each_setitem.
  - f_equal. f_equal. apply list_fmap_ext. intros i [c s] Hp.
    apply list_elem_of_lookup_2 in Hp. cbn [fst]. unfold kept.
    rewrite (assoc_filter_fmap P h (data df) c s Hnd Hp).
    by case_decide.
  - done.
  - rewrite <- list_fmap_compose. unfold kept.
    apply (NoDup_fmap_2_strong fst).
    + intros [c s] [c' s'] Hc Hc' Heq. cbn in Heq. subst c'.
      apply list_elem_of_filter in Hc as [_ Hc].
      apply list_elem_of_filter in Hc' as [_ Hc'].
      f_equal. apply (assoc_NoDup _ _ _ Hnd) in Hc, Hc'. congruence.
    + apply NoDup_filter. eapply NoDup_fmap_1. exact Hnd.
  - apply Forall_fmap, Forall_forall. intros [c s] Hp. cbn [compose fst snd].
    apply list_elem_of_filter in Hp as [HP Hp]. split.
    + unfold columns. apply list_elem_of_fmap. by exists (c, s).
    + by apply Hlen.
Qed.

End ColumnAssignment.

Section Filling.
Import DataCleaner.

Lemma assoc_fmap_NoDup {A B} (g : string * A → B) (l : list (string * A)) c a :
  NoDup l.*1 → (c, a) ∈ l →
  assoc c ((λ p, (p.1, g p)) <$> l) = Some (g (c, a)).
Proof.
  intros Hnd Hin. apply assoc_NoDup.
  - rewrite <- list_fmap_compose. exact Hnd.
  - apply list_elem_of_fmap. by exists (c, a).
Qed.

Lemma NoDup_filter_keys {A} (P : string * A → Prop) `{!∀ p, Decision (P p)}
    (l : list (string * A)) :
  NoDup l.*1 → NoDup (filter P l).*1.
Proof.
  induction l as [|[k v] l IH]; intros Hnd; [apply NoDup_nil_2|].
  rewrite fmap_cons in Hnd. apply NoDup_cons in Hnd as [Hk Hnd].
  destruct (decide (P (k, v))).
  - rewrite filter_cons_True by done. rewrite fmap_cons.
    apply NoDup_cons. split; [|by apply IH].
    intros Hin. apply Hk. apply list_elem_of_fmap in Hin as (q & -> & Hq).
    apply list_elem_of_filter in Hq as [_ Hq].
    apply list_elem_of_fmap. by exists q.
  - rewrite filter_cons_False by done. by apply IH.
Qed.

(** [df.mean()] and [df.median()] of a frame of numeric columns. *)
Lemma frame_reduce_numeric (stat_s : Series → result float)
    (stat : list (option R) → float) (l : list (string * Series)) idx :
  (∀ xs, stat_s (NumSeries xs) = Ok (stat xs)) →
  frame_reduce stat_s
    {| data := filter (λ p, is_number p.2 = true) l; index_len := idx |}
  = Ok ((λ p, (p.1, stat (values p.2)))
          <$> filter (λ p, is_number p.2 = true) l).
Proof.
  intros Hstat. unfold frame_reduce. cbn [data].
  induction l as [|[c s] l IH]; [done|].
  destruct s as [xs| |].
  - rewrite filter_cons_True by done. rewrite fmap_cons.
    cbn [Py.map_result fst snd]. rewrite Hstat. cbn [mbind Py.result_bind].
    rewrite IH. done.
  - rewrite filter_cons_False by done. exact IH.
  - rewrite filter_cons_False by done. exact IH.
Qed.

Lemma fill_cell_length {A} (v : option A) (xs : list (option A)) :
  length (fill_cell v <$> xs) = length xs.
Proof. apply length_fmap. Qed.

(** The numeric fill, as one pass over the columns. *)
Lemma fill_numeric_run (stat_s : Series → result float)
    (stat : list (option R) → float) (df : DataFrame) :
  (∀ xs, stat_s (NumSeries xs) = Ok (stat xs)) →
  wf df →
  fill_numeric (frame_reduce stat_s) df = Ok (fill_numbers stat df).
Proof.
  intros Hstat Hwf. unfold fill_numeric, select_dtypes_number.
  rewrite getitems_filter by done. cbn [mbind Py.result_bind].
  rewrite (frame_reduce_numeric stat_s stat) by done.
  cbn [mbind Py.result_bind].
  set (P := λ p : string * Series, is_number p.2 = true).
  set (h := λ p : string * Series,
              match p.2 with
              | NumSeries xs => NumSeries (fill_cell (Float.to_cell (stat xs)) <$> xs)
              | s => s
              end).
  assert (Hfill :
    frame_fillna ((λ p, (p.1, stat (values p.2))) <$> filter P (data df))
      {| data := filter P (data df); index_len := index_len df |}
    = {| data := (λ p, (p.1, h p)) <$> filter P (data df);
         index_len := index_len df |}).
  { unfold frame_fillna. cbn [data index_len]. f_equal.
    apply list_fmap_ext. intros i [c s] Hp. apply list_elem_of_lookup_2 in Hp.
    cbn [fst snd]. unfold h. cbn [snd].
    destruct s as [xs| |]; try done.
    rewrite (assoc_fmap_NoDup (λ p, stat (values p.2)) _ c (NumSeries xs)).
    - done.
    - apply NoDup_filter_keys, Hwf.
    - done. }
  rewrite Hfill. rewrite setitems_filter.
  - unfold fill_numbers. f_equal. f_equal. apply list_fmap_ext.
    intros i [c s] _. unfold P, h. cbn [fst snd].
    destruct s; by case_decide.
  - done.
  - intros [c s] Hp HP. unfold h. cbn [snd]. destruct Hwf as [_ Hwf].
    rewrite Forall_forall in Hwf. specialize (Hwf _ Hp). cbn [snd] in Hwf.
    destruct s; try done. unfold series_len in *. cbn [cells] in *.
    by rewrite !length_fmap in *.
Qed.

Lemma fill_categorical_run (df : DataFrame) :
  wf df → fill_categorical df = Ok (frame_fillna_str "Unknown" df).
Proof.
  intros Hwf. unfold fill_categorical, select_dtypes_object.
  rewrite getitems_filter by done. cbn [mbind Py.result_bind].
  set (P := λ p : string * Series, is_object p.2 = true).
  set (h := λ p : string * Series,
              match p.2 with
              | ObjSeries xs => ObjSeries (fill_cell (Some "Unknown") <$> xs)
              | s => s
              end).
  assert (Hfill :
    frame_fillna_str "Unknown"
      {| data := filter P (data df); index_len := index_len df |}
    = {| data := (λ p, (p.1, h p)) <$> filter P (data df);
         index_len := index_len df |}).
  { unfold frame_fillna_str. cbn [data index_len]. f_equal.
    apply list_fmap_ext. intros i [c s] _. unfold h. cbn [fst snd].
    by destruct s. }
  rewrite Hfill. rewrite setitems_filter.
  - unfold frame_fillna_str. f_equal. f_equal. apply list_fmap_ext.
    intros i [c s] _. unfold P, h. cbn [fst snd].
    destruct s; by case_decide.
  - done.
  - intros [c s] Hp HP. unfold h. cbn [snd]. destruct Hwf as [_ Hwf].
    rewrite Forall_forall in Hwf. specialize (Hwf _ Hp). cbn [snd] in Hwf.
    destruct s; try done. unfold series_len in *. cbn [cells] in *.
    by rewrite !length_fmap in *.
Qed.

(** A pass that rewrites columns in place, keeping names, kinds and
    lengths, keeps the table well-formed. *)
Lemma columnwise_wf (f : string * Series → string * Series) (df : DataFrame) :
  (∀ p, (f p).1 = p.1 ∧ series_len (f p).2 = series_len p.2
        ∧ same_dtype p.2 (f p).2) →
  wf df →
  wf {| data := f <$> data df; index_len := index_len df |} ∧
  columns {| data := f <$> data df; index_len := index_len df |} = columns df ∧
  ∀ c s, assoc c (data df) = Some s →
         ∃ s', assoc c (f <$> data df) = Some s' ∧ same_dtype s s'.
Proof.
  intros Hf [Hnd Hwf].
  assert (Hcols : (f <$> data df).*1 = (data df).*1).
  { rewrite <- list_fmap_compose. apply list_fmap_ext. intros i p _.
    apply Hf. }
  split; [split|split].
  - unfold columns. cbn [data]. by rewrite Hcols.
  - cbn [data index_len]. apply Forall_fmap. eapply Forall_impl; [exact Hwf|].
    intros p Hp. cbn [compose]. destruct (Hf p) as (_ & -> & _). done.
  - unfold columns. cbn [data]. done.
  - intros c s Hs. apply assoc_elem in Hs.
    exists (f (c, s)).2. split; [|by destruct (Hf (c, s)) as (_ & _ & ?)].
    apply assoc_NoDup; [by rewrite Hcols|].
    apply list_elem_of_fmap. exists (c, s). split; [|done].
    destruct (Hf (c, s)) as (Hk & _). cbn [fst] in Hk.
    by destruct (f (c, s)) as [k v]; simpl in *; subst.
Qed.

Lemma ffill_length {A} (last : option A) (xs : list (option A)) :
  length (ffill last xs) = length xs.
Proof.
  revert last. induction xs as [|[x|] xs IH]; intros last; simpl; auto.
Qed.

End Filling.

Section MissingValues.
Import DataCleaner.
Local Open Scope R_scope.

Lemma fill_cell_complete {A} (v : option A) (xs : list (option A)) :
  None ∉ xs → fill_cell v <$> xs = xs.
Proof.
  induction xs as [|[x|] xs IH]; intros H; [done| |].
  - rewrite fmap_cons. cbn [fill_cell]. f_equal. apply IH.
    intros Hin. apply H. by right.
  - exfalso. apply H. left.
Qed.

Lemma fill_cell_none {A} (xs : list (option A)) : fill_cell None <$> xs = xs.
Proof.
  induction xs as [|[x|] xs IH]; [done| |]; rewrite fmap_cons; cbn [fill_cell];
    by rewrite IH.
Qed.

Lemma fill_cell_some {A} (v : A) (xs : list (option A)) :
  None ∉ fill_cell (Some v) <$> xs.
Proof.
  intros Hin. apply list_elem_of_fmap in Hin as ([x|] & Heq & _); done.
Qed.

Lemma isnull_sum_zero_num xs : isnull_sum (NumSeries xs) = 0%nat ↔ None ∉ xs.
Proof.
  cbn [isnull_sum]. rewrite length_zero_iff_nil. split.
  - intros Hnil Hin.
    assert (H : None ∈ filter (λ c : option R, c = None) xs)
      by (by apply list_elem_of_filter).
    rewrite Hnil in H. by apply elem_of_nil in H.
  - intros Hn. apply elem_of_nil_inv. intros c Hc.
    apply list_elem_of_filter in Hc as [-> Hc]. done.
Qed.

Lemma isnull_sum_zero_obj xs : isnull_sum (ObjSeries xs) = 0%nat ↔ None ∉ xs.
Proof.
  cbn [isnull_sum]. rewrite length_zero_iff_nil. split.
  - intros Hnil Hin.
    assert (H : None ∈ filter (λ c : option string, c = None) xs)
      by (by apply list_elem_of_filter).
    rewrite Hnil in H. by apply elem_of_nil in H.
  - intros Hn. apply elem_of_nil_inv. intros c Hc.
    apply list_elem_of_filter in Hc as [-> Hc]. done.
Qed.

Lemma sum_list_zero (l : list nat) : sum_list l = 0%nat ↔ Forall (λ n, n = 0%nat) l.
Proof.
  induction l as [|n l IH]; simpl.
  - split; [constructor | done].
  - rewrite Forall_cons, <- IH. lia.
Qed.

(** A table has no missing entry when none of its columns has. *)
Lemma missing_total_zero (df : DataFrame) :
  missing_total df = 0%nat ↔ Forall (λ p, isnull_sum p.2 = 0%nat) (data df).
Proof.
  unfold missing_total, isnull_report. rewrite sum_list_zero.
  rewrite <- list_fmap_compose, Forall_fmap. done.
Qed.

Lemma fill_numbers_complete stat df :
  missing_total df = 0%nat → fill_numbers stat df = df.
Proof.
  intros Hz. apply missing_total_zero in Hz. rewrite Forall_forall in Hz.
  destruct df as [cols n]. unfold fill_numbers. cbn [data index_len] in *.
  f_equal. rewrite <- (list_fmap_id cols) at 2. apply list_fmap_ext.
  intros i [c s] Hp. apply list_elem_of_lookup_2 in Hp. cbn [fst snd]. unfold id.
  destruct s as [xs| |]; try done.
  rewrite fill_cell_complete; [done|].
  apply isnull_sum_zero_num. by apply (Hz (c, NumSeries xs)).
Qed.

Lemma frame_fillna_str_complete v df :
  missing_total df = 0%nat → frame_fillna_str v df = df.
Proof.
  intros Hz. apply missing_total_zero in Hz. rewrite Forall_forall in Hz.
  destruct df as [cols n]. unfold frame_fillna_str. cbn [data index_len] in *.
  f_equal. rewrite <- (list_fmap_id cols) at 2. apply list_fmap_ext.
  intros i [c s] Hp. apply list_elem_of_lookup_2 in Hp. cbn [fst snd]. unfold id.
  destruct s as [|xs|]; try done.
  rewrite fill_cell_complete; [done|].
  apply isnull_sum_zero_obj. by apply (Hz (c, ObjSeries xs)).
Qed.

(** The shape of a table is kept by the fills. *)
Lemma fill_numbers_shape stat df :
  wf df →
  wf (fill_numbers stat df) ∧ columns (fill_numbers stat df) = columns df ∧
  ∀ c s, assoc c (data df) = Some s →
         ∃ s', assoc c (data (fill_numbers stat df)) = Some s' ∧ same_dtype s s'.
Proof.
  intros Hwf. unfold fill_numbers. apply columnwise_wf; [|done].
  intros [c s]. cbn [fst snd]. destruct s; cbn [fst snd]; try done.
  split; [done|]. split; [|done]. unfold series_len. cbn [cells].
  by rewrite !length_fmap.
Qed.

Lemma frame_fillna_str_shape v df :
  wf df →
  wf (frame_fillna_str v df) ∧ columns (frame_fillna_str v df) = columns df ∧
  ∀ c s, assoc c (data df) = Some s →
         ∃ s', assoc c (data (frame_fillna_str v df)) = Some s' ∧ same_dtype s s'.
Proof.
  intros Hwf. unfold frame_fillna_str. apply columnwise_wf; [|done].
  intros [c s]. cbn [fst snd]. destruct s; cbn [fst snd]; try done.
  split; [done|]. split; [|done]. unfold series_len. cbn [cells].
  by rewrite !length_fmap.
Qed.

Lemma frame_ffill_shape df :
  wf df →
  wf (frame_ffill df) ∧ columns (frame_ffill df) = columns df ∧
  ∀ c s, assoc c (data df) = Some s →
         ∃ s', assoc c (data (frame_ffill df)) = Some s' ∧ same_dtype s s'.
Proof.
  intros Hwf. unfold frame_ffill. apply columnwise_wf; [|done].
  intros [c s]. cbn [fst snd]. destruct s; cbn [fst snd]; try done.
  - split; [done|]. split; [|done]. unfold series_len. cbn [cells].
    by rewrite !length_fmap, ffill_length.
  - split; [done|]. split; [|done]. unfold series_len. cbn [cells].
    by rewrite !length_fmap, ffill_length.
Qed.

Lemma complete_mask_length df : length (complete_mask df) = index_len df.
Proof. unfold complete_mask. by rewrite length_fmap, rows_length. Qed.

Lemma assoc_fmap_snd (g : Series → Series) (l : list (string * Series)) c s :
  assoc c l = Some s → assoc c ((λ p, (p.1, g p.2)) <$> l) = Some (g s).
Proof.
  induction l as [|[k v] l IH]; [done|]. rewrite fmap_cons. cbn [assoc fst snd].
  case_decide; [by intros [= ->] | done].
Qed.

Lemma frame_dropna_shape df :
  wf df →
  wf (frame_dropna df) ∧ columns (frame_dropna df) = columns df ∧
  ∀ c s, assoc c (data df) = Some s →
         ∃ s', assoc c (data (frame_dropna df)) = Some s' ∧ same_dtype s s'.
Proof.
  intros Hwf. unfold frame_dropna. split; [|split].
  - apply select_rows_wf; [done | apply complete_mask_length].
  - apply select_rows_columns.
  - intros c s Hs. exists (series_select (complete_mask df) s). split.
    + cbn [select_rows data]. by apply assoc_fmap_snd.
    + by destruct s.
Qed.

Lemma same_dtype_refl s : same_dtype s s.
Proof. by destruct s. Qed.

Lemma same_dtype_trans s1 s2 s3 :
  same_dtype s1 s2 → same_dtype s2 s3 → same_dtype s1 s3.
Proof. by destruct s1, s2, s3. Qed.

Lemma series_mean_num xs : series_mean (NumSeries xs) = Ok (nanmean xs).
Proof. done. Qed.

Lemma series_median_num xs : series_median (NumSeries xs) = Ok (nanmedian xs).
Proof. done. Qed.

(** What each strategy returns on a table that has missing entries. *)
Lemma handle_missing_values_run (self : DataCleaner.t) (df : DataFrame)
    (strategy : string) :
  wf df →
  handle_missing_values self df strategy
  = Ok (if decide (missing_total df = 0%nat) then df
        else if decide (strategy = "drop") then frame_dropna df
        else if decide (strategy = "mean") then fill_numbers nanmean df
        else if decide (strategy = "median") then fill_numbers nanmedian df
        else if decide (strategy = "forward_fill") then frame_ffill df
        else if decide (strategy = "auto")
             then frame_fillna_str "Unknown" (fill_numbers nanmedian df)
        else df).
Proof.
  intros Hwf. unfold handle_missing_values. fold (missing_total df).
  repeat case_decide; try done.
  - unfold frame_mean. by rewrite (fill_numeric_run series_mean nanmean).
  - unfold frame_median. by rewrite (fill_numeric_run series_median nanmedian).
  - unfold frame_median. rewrite (fill_numeric_run series_median nanmedian) by done.
    cbn [mbind Py.result_bind]. apply fill_categorical_run.
    by apply fill_numbers_shape.
Qed.

(** [handle_missing_values] returns for every table and every strategy
    name.  The result is well-formed and has the columns of the input,
    each of its kind; only [drop] changes the number of rows.  A table
    without missing entries comes back as it is, and so does any table
    under a strategy name that is none of the five known ones: the name
    is not rejected. *)
Theorem handle_missing_values_total (self : DataCleaner.t) (df : DataFrame)
    (strategy : string) :
  wf df →
  ∃ df', handle_missing_values self df strategy = Ok df' ∧
    wf df' ∧ columns df' = columns df ∧
    (∀ c s, assoc c (data df) = Some s →
            ∃ s', assoc c (data df') = Some s' ∧ same_dtype s s') ∧
    (strategy ≠ "drop" → len df' = len df) ∧
    (missing_total df = 0%nat ∨ strategy ∉ known_strategies → df' = df).
Proof.
  intros Hwf. rewrite handle_missing_values_run by done.
  eexists. split; [done|].
  assert (Hid : wf df ∧ columns df = columns df ∧
                ∀ c s, assoc c (data df) = Some s →
                       ∃ s', assoc c (data df) = Some s' ∧ same_dtype s s').
  { split; [done|]. split; [done|]. intros c s Hs. exists s.
    split; [done | apply same_dtype_refl]. }
  assert (Hauto : wf (frame_fillna_str "Unknown" (fill_numbers nanmedian df))
            ∧ columns (frame_fillna_str "Unknown" (fill_numbers nanmedian df))
              = columns df
            ∧ ∀ c s, assoc c (data df) = Some s →
                ∃ s', assoc c (data (frame_fillna_str "Unknown"
                                       (fill_numbers nanmedian df))) = Some s'
                      ∧ same_dtype s s').
  { destruct (fill_numbers_shape nanmedian df Hwf) as (Hw1 & Hc1 & Hd1).
    destruct (frame_fillna_str_shape "Unknown" _ Hw1) as (Hw2 & Hc2 & Hd2).
    split; [done|]. split; [by rewrite Hc2|]. intros c s Hs.
    destruct (Hd1 c s Hs) as (s1 & Hs1 & Hk1).
    destruct (Hd2 c s1 Hs1) as (s2 & Hs2 & Hk2).
    exists s2. split; [done|]. by eapply same_dtype_trans. }
  split; [|split; [|split; [|split]]].
  - repeat case_decide; try apply Hid; try apply Hauto;
      by first [apply frame_dropna_shape | apply fill_numbers_shape
               | apply frame_ffill_shape].
  - repeat case_decide; try apply Hid; try apply Hauto;
      by first [apply frame_dropna_shape | apply fill_numbers_shape
               | apply frame_ffill_shape].
  - repeat case_decide; try apply Hid; try apply Hauto;
      by first [apply frame_dropna_shape | apply fill_numbers_shape
               | apply frame_ffill_shape].
  - intros Hne. by repeat case_decide.
  - intros [Hz|Hs]; [by rewrite decide_True|].
    unfold known_strategies in Hs.
    repeat case_decide; try done; subst; exfalso; apply Hs; set_solver.
Qed.

End MissingValues.

(** The table with gaps under the strategy name [interpolate], which
    the cleaner does not know: it comes back as it was. *)
Lemma handle_missing_values_total_witness :
  DataCleaner.handle_missing_values (DataCleaner.init default_config)
    repeated_table "interpolate" = Ok repeated_table.
Proof.
  destruct (handle_missing_values_total (DataCleaner.init default_config)
              repeated_table "interpolate" repeated_table_wf)
    as (df' & Hrun & _ & _ & _ & _ & Hsame).
  rewrite Hrun. f_equal. apply Hsame. right.
  unfold known_strategies. set_solver.
Defined.

Section DropStrategy.
Import DataCleaner.

Lemma mask_select_fmap_filter {A} (f : A → bool) (l : list A) :
  mask_select (f <$> l) l = filter (λ x, f x = true) l.
Proof.
  induction l as [|x l IH]; [done|]. rewrite fmap_cons. cbn [mask_select].
  destruct (f x) eqn:Hf.
  - rewrite filter_cons_True by done. by rewrite IH.
  - rewrite filter_cons_False by (by rewrite Hf). done.
Qed.

Lemma isnull_sum_cells s :
  isnull_sum s = 0 ↔ Forall (λ c, cell_isnull c = false) (cells s).
Proof.
  destruct s as [xs|xs|bs].
  - rewrite isnull_sum_zero_num. cbn [cells]. rewrite Forall_fmap, Forall_forall.
    split.
    + intros Hn [x|] Hx; [done | by destruct Hn].
    + intros Hall Hin. by apply Hall in Hin.
  - rewrite isnull_sum_zero_obj. cbn [cells]. rewrite Forall_fmap, Forall_forall.
    split.
    + intros Hn [x|] Hx; [done | by destruct Hn].
    + intros Hall Hin. by apply Hall in Hin.
  - cbn [isnull_sum cells]. rewrite Forall_fmap, Forall_forall. done.
Qed.

(** On a well-formed table the columns have no missing entry exactly
    when the rows have none. *)
Lemma missing_total_rows df :
  wf df →
  missing_total df = 0 ↔
  Forall (λ r, Forall (λ c, cell_isnull c = false) r) (rows df).
Proof.
  intros [_ Hwf]. rewrite Forall_forall in Hwf.
  rewrite missing_total_zero, !Forall_forall. split.
  - intros Hcols r Hr. unfold rows in Hr.
    apply list_elem_of_fmap in Hr as (i & -> & Hi). apply elem_of_seq in Hi.
    unfold row. rewrite Forall_fmap, Forall_forall. intros [c s] Hp.
    cbn [compose snd].
    pose proof (Hwf _ Hp) as Hlen. cbn [snd] in Hlen. unfold series_len in Hlen.
    destruct (lookup_lt_is_Some_2 (cells s) i ltac:(lia)) as [x Hx].
    rewrite Hx. cbn [default].
    specialize (Hcols _ Hp). cbn [snd] in Hcols.
    apply isnull_sum_cells in Hcols. rewrite Forall_forall in Hcols.
    apply Hcols. by eapply list_elem_of_lookup_2.
  - intros Hrows [c s] Hp. cbn [snd]. apply isnull_sum_cells.
    rewrite Forall_forall. intros x Hx.
    apply list_elem_of_lookup_1 in Hx as [i Hi].
    pose proof (Hwf _ Hp) as Hlen. cbn [snd] in Hlen. unfold series_len in Hlen.
    apply lookup_lt_Some in Hi as Hlt.
    assert (Hr : row df i ∈ rows df).
    { unfold rows. apply list_elem_of_fmap. exists i. split; [done|].
      apply elem_of_seq. lia. }
    apply Hrows in Hr. rewrite Forall_forall in Hr. apply Hr.
    unfold row. apply list_elem_of_fmap. exists (c, s). cbn [snd].
    by rewrite Hi.
Qed.

Lemma frame_dropna_rows df :
  wf df →
  rows (frame_dropna df)
  = filter (λ r, Forall (λ c, cell_isnull c = false) r) (rows df).
Proof.
  intros Hwf. unfold frame_dropna.
  rewrite rows_select_mask by (done || apply complete_mask_length).
  unfold complete_mask. rewrite mask_select_fmap_filter.
  apply filter_ext_elem. intros r _.
  rewrite forallb_forall, Forall_forall. split.
  - intros H c Hc. apply list_elem_of_In, H in Hc. by apply negb_true_iff.
  - intros H c Hc. apply list_elem_of_In, H in Hc. by apply negb_true_iff.
Qed.

(** Under the strategy [drop] the rows of the result are the rows of
    the input without a missing entry, in their order, and the result
    has no missing entry left. *)
Theorem handle_missing_values_drop (self : DataCleaner.t) (df : DataFrame) :
  wf df →
  ∃ df', handle_missing_values self df "drop" = Ok df' ∧
    rows df'
    = filter (λ r, Forall (λ c, cell_isnull c = false) r) (rows df) ∧
    missing_total df' = 0.
Proof.
  intros Hwf. rewrite handle_missing_values_run by done.
  eexists. split; [done|].
  destruct (decide (missing_total df = 0)) as [Hz|Hnz].
  - split; [|done]. apply missing_total_rows in Hz; [|done].
    symmetry. induction Hz as [|r l Hr Hl IH]; [done|].
    rewrite filter_cons_True by done. by rewrite IH.
  - rewrite decide_True by done. split; [by apply frame_dropna_rows|].
    apply missing_total_rows; [by apply frame_dropna_shape|].
    rewrite frame_dropna_rows by done. apply Forall_forall.
    intros r Hr. by apply list_elem_of_filter in Hr as [? _].
Qed.

(** The four calls of which the last has no handle time and no agent:
    that row goes, the other three stay. *)
Lemma handle_missing_values_drop_witness :
  ∃ df', handle_missing_values (DataCleaner.init default_config)
           repeated_table "drop" = Ok df' ∧
         missing_total df' = 0.
Proof.
  destruct (handle_missing_values_drop (DataCleaner.init default_config)
              repeated_table repeated_table_wf) as (df' & Hrun & _ & Hz).
  exists df'. split; [exact Hrun | exact Hz].
Defined.

End DropStrategy.

Section FillStrategies.
Import DataCleaner.
Local Open Scope R_scope.

(** The columns after the fills. *)
Lemma fill_numbers_assoc stat df c s :
  assoc c (data df) = Some s →
  assoc c (data (fill_numbers stat df))
  = Some (match s with
          | NumSeries xs => NumSeries (fill_cell (Float.to_cell (stat xs)) <$> xs)
          | _ => s
          end).
Proof.
  unfold fill_numbers. cbn [data].
  induction (data df) as [|[k v] l IH]; [done|].
  rewrite fmap_cons. cbn [assoc fst snd]. case_decide as Hk.
  - intros [= ->]. destruct s; cbn [assoc fst]; by rewrite decide_True.
  - intros Hs. destruct v; cbn [assoc fst]; rewrite decide_False by done;
      by apply IH.
Qed.

Lemma frame_fillna_str_assoc v df c s :
  assoc c (data df) = Some s →
  assoc c (data (frame_fillna_str v df))
  = Some (match s with
          | ObjSeries xs => ObjSeries (fill_cell (Some v) <$> xs)
          | _ => s
          end).
Proof.
  unfold frame_fillna_str. cbn [data].
  induction (data df) as [|[k w] l IH]; [done|].
  rewrite fmap_cons. cbn [assoc fst snd]. case_decide as Hk.
  - intros [= ->]. destruct s; cbn [assoc fst]; by rewrite decide_True.
  - intros Hs. destruct w; cbn [assoc fst]; rewrite decide_False by done;
      by apply IH.
Qed.

Lemma handle_missing_values_auto_run (self : DataCleaner.t) (df : DataFrame) :
  wf df →
  handle_missing_values self df "auto"
  = Ok (frame_fillna_str "Unknown" (fill_numbers nanmedian df)).
Proof.
  intros Hwf. rewrite handle_missing_values_run by done. f_equal.
  case_decide as Hz; [|done].
  by rewrite fill_numbers_complete, frame_fillna_str_complete.
Qed.

Lemma handle_missing_values_mean_run (self : DataCleaner.t) (df : DataFrame) :
  wf df →
  handle_missing_values self df "mean" = Ok (fill_numbers nanmean df).
Proof.
  intros Hwf. rewrite handle_missing_values_run by done. f_equal.
  case_decide as Hz; [|done]. by rewrite fill_numbers_complete.
Qed.

Lemma nanmedian_value xs : dropna xs ≠ [] → ∃ m, nanmedian xs = Fin m.
Proof.
  intros Hne. unfold nanmedian.
  assert (Hlen : length (sort_asc (dropna xs)) ≠ 0%nat).
  { destruct (dropna xs) as [|v l]; [done|]. unfold sort_asc. cbn [foldr].
    generalize (foldr insert_asc [] l). intros l'.
    destruct l' as [|y l']; cbn [insert_asc]; [done|]. by case_decide. }
  rewrite decide_False by done. case_match; eauto.
Qed.

Lemma nanmedian_missing xs : dropna xs = [] → nanmedian xs = NaN.
Proof. intros H. unfold nanmedian. by rewrite H. Qed.

Lemma fill_cell_lookup {A} (v : option A) (xs : list (option A)) i :
  (fill_cell v <$> xs) !! i = fill_cell v <$> xs !! i.
Proof. apply list_lookup_fmap. Qed.

(** Under the strategy [auto] no value present changes.  A gap of a
    numeric column takes the median of the values of that column, so
    that a numeric column with at least one value has no gap
    afterwards, while a numeric column without any value stays as it
    is; a gap of a text column takes the text "Unknown"; boolean
    columns are left alone. *)
Theorem handle_missing_values_auto (self : DataCleaner.t) (df : DataFrame) :
  wf df →
  ∃ df', handle_missing_values self df "auto" = Ok df' ∧
    (∀ c xs, assoc c (data df) = Some (NumSeries xs) →
       ∃ xs', assoc c (data df') = Some (NumSeries xs') ∧
         length xs' = length xs ∧
         (∀ i x, xs !! i = Some (Some x) → xs' !! i = Some (Some x)) ∧
         (∀ i, xs !! i = Some None →
               xs' !! i = Some (Float.to_cell (nanmedian xs))) ∧
         (dropna xs ≠ [] → None ∉ xs') ∧
         (dropna xs = [] → xs' = xs)) ∧
    (∀ c xs, assoc c (data df) = Some (ObjSeries xs) →
       ∃ xs', assoc c (data df') = Some (ObjSeries xs') ∧
         length xs' = length xs ∧
         (∀ i t, xs !! i = Some (Some t) → xs' !! i = Some (Some t)) ∧
         (∀ i, xs !! i = Some None → xs' !! i = Some (Some "Unknown")) ∧
         None ∉ xs') ∧
    (∀ c bs, assoc c (data df) = Some (BoolSeries bs) →
       assoc c (data df') = Some (BoolSeries bs)).
Proof.
  intros Hwf. rewrite handle_missing_values_auto_run by done.
  eexists. split; [done|]. split; [|split].
  - intros c xs Hs.
    exists (fill_cell (Float.to_cell (nanmedian xs)) <$> xs). split.
    { erewrite frame_fillna_str_assoc; [|by apply fill_numbers_assoc]. done. }
    split; [apply length_fmap|]. split; [|split; [|split]].
    + intros i x Hi. by rewrite fill_cell_lookup, Hi.
    + intros i Hi. by rewrite fill_cell_lookup, Hi.
    + intros Hne. destruct (nanmedian_value xs Hne) as [m ->].
      apply fill_cell_some.
    + intros Hnil. rewrite (nanmedian_missing xs Hnil). apply fill_cell_none.
  - intros c xs Hs. exists (fill_cell (Some "Unknown") <$> xs). split.
    { erewrite frame_fillna_str_assoc; [|by apply fill_numbers_assoc]. done. }
    split; [apply length_fmap|]. split; [|split].
    + intros i x Hi. by rewrite fill_cell_lookup, Hi.
    + intros i Hi. by rewrite fill_cell_lookup, Hi.
    + apply fill_cell_some.
  - intros c bs Hs.
    erewrite frame_fillna_str_assoc; [|by apply fill_numbers_assoc]. done.
Qed.

(** The agents of the four calls: the missing name becomes "Unknown". *)
Lemma handle_missing_values_auto_witness :
  ∃ df', handle_missing_values (DataCleaner.init default_config)
           repeated_table "auto" = Ok df' ∧
         assoc "agent" (data df')
         = Some (ObjSeries [Some "ann"; Some "bob"; Some "ann"; Some "Unknown"]).
Proof.
  destruct (handle_missing_values_auto (DataCleaner.init default_config)
              repeated_table repeated_table_wf) as (df' & Hrun & _ & Hobj & _).
  exists df'. split; [exact Hrun|].
  destruct (Hobj "agent" [Some "ann"; Some "bob"; Some "ann"; None] eq_refl)
    as (xs' & Hs & Hlen & Hkeep & Hfill & _).
  rewrite Hs. do 2 f_equal.
  apply list_eq. intros i. destruct i as [|[|[|[|i]]]].
  - apply (Hkeep 0%nat "ann" eq_refl).
  - apply (Hkeep 1%nat "bob" eq_refl).
  - apply (Hkeep 2%nat "ann" eq_refl).
  - apply (Hfill 3%nat eq_refl).
  - simpl. apply lookup_ge_None. rewrite Hlen. simpl. lia.
Defined.

(** Cleaning the gaps a second time changes nothing. *)
Theorem handle_missing_values_auto_idempotent (self : DataCleaner.t)
    (df : DataFrame) :
  wf df →
  ∃ df', handle_missing_values self df "auto" = Ok df' ∧
         handle_missing_values self df' "auto" = Ok df'.
Proof.
  intros Hwf. rewrite handle_missing_values_auto_run by done.
  eexists. split; [done|].
  assert (Hwf' : wf (frame_fillna_str "Unknown" (fill_numbers nanmedian df))).
  { apply frame_fillna_str_shape. by apply fill_numbers_shape. }
  rewrite handle_missing_values_auto_run by done. f_equal.
  unfold frame_fillna_str, fill_numbers. cbn [data index_len]. f_equal.
  rewrite <- !list_fmap_compose. apply list_fmap_ext. intros i [c s] _.
  cbn [compose fst snd]. destruct s as [xs|xs|bs]; cbn [fst snd]; [| |done].
  - do 2 f_equal.
    destruct (decide (dropna xs = [])) as [Hnil|Hne].
    + rewrite (nanmedian_missing xs Hnil). cbn [Float.to_cell].
      rewrite fill_cell_none. rewrite (nanmedian_missing xs Hnil).
      apply fill_cell_none.
    + destruct (nanmedian_value xs Hne) as [m ->]. cbn [Float.to_cell].
      apply fill_cell_complete, fill_cell_some.
  - do 2 f_equal. apply fill_cell_complete, fill_cell_some.
Qed.

Lemma handle_missing_values_auto_idempotent_witness :
  ∃ df', handle_missing_values (DataCleaner.init default_config)
           repeated_table "auto" = Ok df' ∧
         handle_missing_values (DataCleaner.init default_config) df' "auto"
         = Ok df'.
Proof.
  apply (handle_missing_values_auto_idempotent (DataCleaner.init default_config)
           repeated_table repeated_table_wf).
Defined.

(** Filling with the mean. *)
(** Under the strategy [mean] every gap of a numeric column takes the
    mean of the values of that column and no value present changes: a
    column with at least one value has no gap left, a column without
    any value stays as it is.  Text columns keep their gaps. *)
Theorem handle_missing_values_mean (self : DataCleaner.t) (df : DataFrame) :
  wf df →
  ∃ df', handle_missing_values self df "mean" = Ok df' ∧
    (∀ c xs, assoc c (data df) = Some (NumSeries xs) →
       ∃ xs', assoc c (data df') = Some (NumSeries xs') ∧
         length xs' = length xs ∧
         (∀ i x, xs !! i = Some (Some x) → xs' !! i = Some (Some x)) ∧
         (∀ i, xs !! i = Some None →
               xs' !! i = Some (Float.to_cell (nanmean xs))) ∧
         (dropna xs ≠ [] → None ∉ xs') ∧
         (dropna xs = [] → xs' = xs)) ∧
    (∀ c xs, assoc c (data df) = Some (ObjSeries xs) →
       assoc c (data df') = Some (ObjSeries xs)).
Proof.
  intros Hwf. rewrite handle_missing_values_mean_run by done.
  eexists. split; [done|]. split.
  - intros c xs Hs. exists (fill_cell (Float.to_cell (nanmean xs)) <$> xs).
    split; [by rewrite (fill_numbers_assoc _ _ _ _ Hs)|].
    split; [apply length_fmap|]. split; [|split; [|split]].
    + intros i x Hi. by rewrite fill_cell_lookup, Hi.
    + intros i Hi. by rewrite fill_cell_lookup, Hi.
    + intros Hne. unfold nanmean. rewrite decide_False.
      * apply fill_cell_some.
      * rewrite count_length_dropna. by destruct (dropna xs).
    + intros Hnil. unfold nanmean.
      rewrite decide_True by (by rewrite count_length_dropna, Hnil).
      apply fill_cell_none.
  - intros c xs Hs. by rewrite (fill_numbers_assoc _ _ _ _ Hs).
Qed.

(** Handle times 300, 280, 300 and a gap: the gap is filled. *)
Lemma handle_missing_values_mean_witness :
  ∃ df' xs', handle_missing_values (DataCleaner.init default_config)
               repeated_table "mean" = Ok df' ∧
             assoc "handle_time" (data df') = Some (NumSeries xs') ∧
             xs' !! 0%nat = Some (Some 300%R) ∧
             None ∉ xs'.
Proof.
  destruct (handle_missing_values_mean (DataCleaner.init default_config)
              repeated_table repeated_table_wf) as (df' & Hrun & Hnum & _).
  destruct (Hnum "handle_time" [Some 300%R; Some 280%R; Some 300%R; None] eq_refl)
    as (xs' & Hs & _ & Hkeep & _ & Hfull & _).
  exists df', xs'. split; [exact Hrun|]. split; [exact Hs|].
  split; [by apply Hkeep|]. apply Hfull. rewrite dropna_cons_Some. discriminate.
Defined.

End FillStrategies.

(** ** Cleaner: column names and the cleaning pipeline *)

Section Names.
Import DataCleaner.

(** Replacing one character by another goes character by character. *)
Lemma replace_char (c d x : ascii) (s : string) :
  Py.replace (String c "") (String d "") (String x s)
  = String (if decide (x = c) then d else x)
           (Py.replace (String c "") (String d "") s).
Proof.
  unfold Py.replace. cbn [Py.replace_from String.prefix String.length Nat.sub].
  destruct (ascii_dec c x) as [->|Hne].
  - rewrite decide_True by done. by destruct s.
  - rewrite decide_False by done. by destruct s.
Qed.

Lemma replace_char_empty (c d : ascii) :
  Py.replace (String c "") (String d "") "" = "".
Proof. done. Qed.

Lemma lower_char_plain (c : ascii) :
  ¬ (65 ≤ nat_of_ascii (Py.lower_char c) ≤ 90).
Proof.
  unfold Py.lower_char. case_decide as Hc; [|done].
  rewrite nat_ascii_embedding by lia. lia.
Qed.

Lemma lower_char_lower (c : ascii) :
  ¬ (65 ≤ nat_of_ascii c ≤ 90) → Py.lower_char c = c.
Proof. intros H. unfold Py.lower_char. by rewrite decide_False. Qed.

Lemma standard_name_cons (c : ascii) (s : string) :
  standard_name (String c s) = String (standard_char c) (standard_name s).
Proof.
  unfold standard_name. cbn [Py.lower]. by rewrite !replace_char.
Qed.

Lemma standard_char_plain (c : ascii) : plain_char (standard_char c).
Proof.
  unfold standard_char, plain_char. cbn zeta.
  pose proof (lower_char_plain c) as Hl.
  assert (Hu : plain_char "_"%char).
  { repeat split; [done | done |]. change (nat_of_ascii "_") with 95. lia. }
  destruct (decide (Py.lower_char c = " "%char)) as [Hs|Hs].
  - by rewrite decide_False.
  - by destruct (decide (Py.lower_char c = "-"%char)).
Qed.

Lemma standard_char_idem (c : ascii) :
  standard_char (standard_char c) = standard_char c.
Proof.
  destruct (standard_char_plain c) as (Hs & Hh & Hu).
  unfold standard_char at 1. cbn zeta. rewrite lower_char_lower by done.
  rewrite (decide_False (P := standard_char c = " "%char)) by done.
  by rewrite decide_False.
Qed.

Lemma standard_name_idem (s : string) :
  standard_name (standard_name s) = standard_name s.
Proof.
  induction s as [|c s IH]; [done|].
  by rewrite !standard_name_cons, standard_char_idem, IH.
Qed.

Lemma standard_name_chars (s : string) :
  Forall plain_char (list_ascii_of_string (standard_name s)).
Proof.
  induction s as [|c s IH]; [constructor|].
  rewrite standard_name_cons. cbn [list_ascii_of_string].
  constructor; [apply standard_char_plain | done].
Qed.

Lemma standard_name_length (s : string) :
  String.length (standard_name s) = String.length s.
Proof.
  induction s as [|c s IH]; [done|].
  rewrite standard_name_cons. simpl. by rewrite IH.
Qed.

Lemma standardize_rows (self : DataCleaner.t) (df : DataFrame) :
  rows (standardize_column_names self df) = rows df.
Proof.
  unfold rows, standardize_column_names. cbn [index_len].
  apply list_fmap_ext. intros _ i _. unfold row. cbn [data].
  rewrite <- list_fmap_compose. by apply list_fmap_ext.
Qed.

(** [standardize_column_names] renames the columns in place, keeping
    contents, order and rows.  Every new name is the old one in lower
    case with "_" for each space and each hyphen: it has the length of
    the old name and contains no space, no hyphen and no capital
    letter; standardizing once more changes nothing. *)
Theorem standardize_column_names_normal (self : DataCleaner.t) (df : DataFrame) :
  ascii_names df →
  columns (standardize_column_names self df) = standard_name <$> columns df ∧
  (data (standardize_column_names self df)).*2 = (data df).*2 ∧
  rows (standardize_column_names self df) = rows df ∧
  Forall (λ c : string,
            Forall plain_char (list_ascii_of_string c))
         (columns (standardize_column_names self df)) ∧
  Forall2 (λ c c' : string, String.length c' = String.length c)
          (columns df) (columns (standardize_column_names self df)) ∧
  standardize_column_names self (standardize_column_names self df)
  = standardize_column_names self df.
Proof.
  intros _.
  assert (Hcols : columns (standardize_column_names self df)
                  = standard_name <$> columns df).
  { unfold columns, standardize_column_names. cbn [data].
    by rewrite <- !list_fmap_compose. }
  split; [done|]. split; [|split; [apply standardize_rows|split; [|split]]].
  - unfold standardize_column_names. cbn [data].
    by rewrite <- list_fmap_compose.
  - rewrite Hcols. apply Forall_fmap, Forall_forall. intros c _.
    apply standard_name_chars.
  - rewrite Hcols. apply Forall2_fmap_r, Forall_Forall2_diag, Forall_forall.
    intros c _. apply standard_name_length.
  - unfold standardize_column_names. cbn [data index_len]. f_equal.
    rewrite <- list_fmap_compose. apply list_fmap_ext. intros i [c s] _.
    cbn [compose fst snd]. by rewrite standard_name_idem.
Qed.

(** The export with the display names "Handle Time" and "Agent-Name". *)
Lemma standardize_column_names_normal_witness :
  columns (standardize_column_names (DataCleaner.init default_config)
             export_table)
  = ["handle_time"; "agent_name"].
Proof.
  destruct (standardize_column_names_normal (DataCleaner.init default_config)
              export_table) as (Hcols & _).
  - repeat constructor.
  - rewrite Hcols. reflexivity.
Defined.

End Names.

Section Pipeline.
Import DataCleaner.

Lemma standardize_wf (self : DataCleaner.t) (df : DataFrame) :
  wf df → NoDup (standard_name <$> columns df) →
  wf (standardize_column_names self df).
Proof.
  intros [_ Hwf] Hnd. split.
  - unfold columns, standardize_column_names in *. cbn [data].
    by rewrite <- !list_fmap_compose in *.
  - unfold standardize_column_names. cbn [data index_len].
    apply Forall_fmap. eapply Forall_impl; [exact Hwf|]. by intros [c s].
Qed.

Lemma standardize_duplicated_sum (self : DataCleaner.t) (df : DataFrame) :
  duplicated_sum (standardize_column_names self df) = duplicated_sum df.
Proof.
  unfold duplicated_sum. rewrite standardize_rows.
  unfold standardize_column_names. cbn [data]. by destruct (data df).
Qed.

Lemma assoc_present {A} (l : list (string * A)) c :
  c ∈ l.*1 → ∃ v, assoc c l = Some v.
Proof.
  intros Hin. destruct (assoc c l) as [v|] eqn:E; [eauto|].
  by apply assoc_None_not_elem in E.
Qed.

(** The columns of a table whose gaps were filled by [auto]. *)
Lemma auto_filled_columns (df : DataFrame) :
  wf df →
  (∀ c xs,
     assoc c (data (frame_fillna_str "Unknown" (fill_numbers nanmedian df)))
     = Some (ObjSeries xs) → None ∉ xs) ∧
  (∀ c xs,
     assoc c (data (frame_fillna_str "Unknown" (fill_numbers nanmedian df)))
     = Some (NumSeries xs) → None ∈ xs → dropna xs = []).
Proof.
  intros Hwf.
  assert (Hcol : ∀ c s',
    assoc c (data (frame_fillna_str "Unknown" (fill_numbers nanmedian df)))
    = Some s' →
    ∃ s, assoc c (data df) = Some s ∧
         s' = match s with
              | NumSeries xs =>
                  NumSeries (fill_cell (Float.to_cell (nanmedian xs)) <$> xs)
              | ObjSeries xs => ObjSeries (fill_cell (Some "Unknown") <$> xs)
              | BoolSeries bs => BoolSeries bs
              end).
  { intros c s' Hs'.
    destruct (fill_numbers_shape nanmedian df Hwf) as (Hw1 & Hc1 & _).
    destruct (frame_fillna_str_shape "Unknown" _ Hw1) as (_ & Hc2 & _).
    assert (Hin : c ∈ (data df).*1).
    { fold (columns df). rewrite <- Hc1, <- Hc2. by eapply assoc_Some_elem. }
    destruct (assoc_present _ _ Hin) as [s Hs]. exists s. split; [done|].
    erewrite frame_fillna_str_assoc in Hs'; [|by apply fill_numbers_assoc].
    injection Hs' as <-. by destruct s. }
  split.
  - intros c xs Hs. destruct (Hcol c _ Hs) as (s & _ & Heq).
    destruct s; try done. injection Heq as ->. apply fill_cell_some.
  - intros c xs Hs Hmiss. destruct (Hcol c _ Hs) as (s & _ & Heq).
    destruct s as [ys| |]; try done. injection Heq as ->.
    destruct (decide (dropna ys = [])) as [Hnil|Hne].
    + rewrite (nanmedian_missing ys Hnil). cbn [Float.to_cell].
      by rewrite fill_cell_none.
    + destruct (nanmedian_value ys Hne) as [m Hm]. rewrite Hm in Hmiss.
      by apply fill_cell_some in Hmiss.
Qed.

(** The pipeline [clean_data] on a table whose standardized column
    names are pairwise different: it returns a well-formed table under
    the standardized names; without outlier removal the table has lost
    exactly the duplicated rows of the input, its text columns have no
    gap, and a numeric column keeps a gap only if it holds no value at
    all.  With outlier removal the result is that table with its
    outliers removed. *)
Theorem clean_data_pipeline (self : DataCleaner.t) (df : DataFrame) :
  wf df → ascii_names df → NoDup (standard_name <$> columns df) →
  ∃ df', clean_data self df false = Ok df' ∧
    wf df' ∧
    columns df' = standard_name <$> columns df ∧
    (len df' + duplicated_sum df = len df)%nat ∧
    (∀ c xs, assoc c (data df') = Some (ObjSeries xs) → None ∉ xs) ∧
    (∀ c xs, assoc c (data df') = Some (NumSeries xs) →
             None ∈ xs → dropna xs = []) ∧
    clean_data self df true = Ok (remove_outliers self df' None).
Proof.
  intros Hwf _ Hnd. unfold clean_data.
  set (d1 := standardize_column_names self df).
  assert (Hwf1 : wf d1) by (by apply standardize_wf).
  destruct (remove_duplicates_shape self d1 Hwf1) as (Hwf2 & Hc2 & Hl2).
  set (d2 := remove_duplicates self d1) in *.
  rewrite handle_missing_values_auto_run by done.
  cbn [mbind Py.result_bind].
  eexists. split; [done|].
  destruct (fill_numbers_shape nanmedian d2 Hwf2) as (Hw3 & Hc3 & _).
  destruct (frame_fillna_str_shape "Unknown" _ Hw3) as (Hw4 & Hc4 & _).
  split; [done|]. split; [|split; [|split; [|split]]].
  - rewrite Hc4, Hc3, Hc2. unfold d1, columns, standardize_column_names.
    cbn [data]. by rewrite <- !list_fmap_compose.
  - unfold d1 in Hl2. rewrite standardize_duplicated_sum in Hl2.
    unfold len in *. cbn [frame_fillna_str fill_numbers index_len].
    fold d1 d2 in Hl2. cbn [standardize_column_names index_len] in Hl2. done.
  - apply (auto_filled_columns d2 Hwf2).
  - apply (auto_filled_columns d2 Hwf2).
  - done.
Qed.

Lemma export_table_wf : wf export_table.
Proof. solve_wf. Qed.

(** The export with display names and a repeated call: two rows are
    left under the names [handle_time] and [agent_name]. *)
Lemma clean_data_pipeline_witness :
  ∃ df', clean_data (DataCleaner.init default_config) export_table false
         = Ok df' ∧
         columns df' = ["handle_time"; "agent_name"] ∧
         (len df' + duplicated_sum export_table = 3)%nat.
Proof.
  destruct (clean_data_pipeline (DataCleaner.init default_config) export_table
              export_table_wf)
    as (df' & Hrun & _ & Hcols & Hlen & _).
  - repeat constructor.
  - simpl. repeat (apply NoDup_cons; split; [set_solver|]). apply NoDup_nil_2.
  - exists df'. split; [exact Hrun|]. split; [|exact Hlen].
    rewrite Hcols. reflexivity.
Defined.

End Pipeline.

(** ** KPI analyzer: quality indicators and the default targets *)

Section Indicators.
Import KPIAnalyzer.
Local Open Scope R_scope.

Ltac block_result H :=
  repeat match type of H with
  | (if ?b then _ else _) = Ok _ => destruct b
  | (?m ≫= _) = Ok _ =>
      let E := fresh "E" in
      destruct m eqn:E; cbn [mbind Py.result_bind] in H; [|discriminate H]
  end;
  try (injection H as <-).

Ltac lookup_added Hk :=
  repeat (apply lookup_insert_is_Some in Hk as [<-|[_ Hk]];
          [right; set_solver|]);
  by left.

Lemma handle_time_among df :
  adds_among ["aht"; "aht_median"; "aht_std"] (handle_time_kpis df).
Proof.
  intros kpis kpis' k H Hk. unfold handle_time_kpis in H.
  block_result H; [lookup_added Hk | by left].
Qed.

Lemma fcr_among df : adds_among ["fcr_rate"] (fcr_kpis df).
Proof.
  intros kpis kpis' k H Hk. unfold fcr_kpis in H.
  block_result H; [lookup_added Hk | by left].
Qed.

Lemma service_level_among df :
  adds_among ["service_level"] (service_level_kpis df).
Proof.
  intros kpis kpis' k H Hk. unfold service_level_kpis in H.
  block_result H; [lookup_added Hk | lookup_added Hk | by left].
Qed.

Lemma occupancy_among df : adds_among ["occupancy_rate"] (occupancy_kpis df).
Proof.
  intros kpis kpis' k H Hk. unfold occupancy_kpis in H.
  block_result H; [lookup_added Hk | lookup_added Hk | by left].
Qed.

Lemma adherence_among df : adds_among ["adherence"] (adherence_kpis df).
Proof.
  intros kpis kpis' k H Hk. unfold adherence_kpis in H.
  block_result H; [lookup_added Hk | lookup_added Hk | by left].
Qed.

Lemma qa_score_among df :
  adds_among ["qa_score_avg"; "qa_score_median"; "qa_score_std"]
             (qa_score_kpis df).
Proof.
  intros kpis kpis' k H Hk. unfold qa_score_kpis in H.
  block_result H; [lookup_added Hk | by left].
Qed.

Lemma csat_among df : adds_among ["csat_avg"; "csat_median"] (csat_kpis df).
Proof.
  intros kpis kpis' k H Hk. unfold csat_kpis in H.
  block_result H; [lookup_added Hk | by left].
Qed.

Lemma nps_among df : adds_among ["nps_avg"] (nps_kpis df).
Proof.
  intros kpis kpis' k H Hk. unfold nps_kpis in H.
  block_result H; [lookup_added Hk | by left].
Qed.

Lemma compliance_among df : adds_among ["compliance_rate"] (compliance_kpis df).
Proof.
  intros kpis kpis' k H Hk. unfold compliance_kpis in H.
  block_result H; [lookup_added Hk | by left].
Qed.

Lemma error_rate_among df : adds_among ["error_rate"] (error_rate_kpis df).
Proof.
  intros kpis kpis' k H Hk. unfold error_rate_kpis in H.
  block_result H; [lookup_added Hk | lookup_added Hk | by left].
Qed.

(** The indicators of the two KPI functions come from fixed lists. *)
Lemma performance_kpis_names self df kpis k :
  calculate_performance_kpis self df = Ok kpis →
  is_Some (kpis !! k) → k ∈ performance_indicators.
Proof.
  unfold calculate_performance_kpis. intros H Hk.
  destruct (handle_time_kpis df ∅) as [k1|] eqn:E1; [|done].
  cbn [mbind Py.result_bind] in H.
  destruct (fcr_kpis df k1) as [k2|] eqn:E2; [|done].
  cbn [mbind Py.result_bind] in H.
  destruct (service_level_kpis df k2) as [k3|] eqn:E3; [|done].
  cbn [mbind Py.result_bind] in H.
  destruct (occupancy_kpis df k3) as [k4|] eqn:E4; [|done].
  cbn [mbind Py.result_bind] in H.
  destruct (adherence_kpis df k4) as [k5|] eqn:E5; [|done].
  cbn [mbind Py.result_bind] in H. injection H as <-.
  unfold performance_indicators.
  destruct (adherence_among df _ _ k E5 Hk) as [Hk4|?]; [|set_solver].
  destruct (occupancy_among df _ _ k E4 Hk4) as [Hk3|?]; [|set_solver].
  destruct (service_level_among df _ _ k E3 Hk3) as [Hk2|?]; [|set_solver].
  destruct (fcr_among df _ _ k E2 Hk2) as [Hk1|?]; [|set_solver].
  destruct (handle_time_among df _ _ k E1 Hk1) as [Hk0|?]; [|set_solver].
  rewrite lookup_empty in Hk0. by destruct Hk0.
Qed.

Lemma quality_kpis_names self df kpis k :
  calculate_quality_kpis self df = Ok kpis →
  is_Some (kpis !! k) → k ∈ quality_indicators.
Proof.
  unfold calculate_quality_kpis. intros H Hk.
  destruct (qa_score_kpis df ∅) as [k1|] eqn:E1; [|done].
  cbn [mbind Py.result_bind] in H.
  destruct (csat_kpis df k1) as [k2|] eqn:E2; [|done].
  cbn [mbind Py.result_bind] in H.
  destruct (nps_kpis df k2) as [k3|] eqn:E3; [|done].
  cbn [mbind Py.result_bind] in H.
  destruct (compliance_kpis df k3) as [k4|] eqn:E4; [|done].
  cbn [mbind Py.result_bind] in H.
  destruct (error_rate_kpis df k4) as [k5|] eqn:E5; [|done].
  cbn [mbind Py.result_bind] in H. injection H as <-.
  unfold quality_indicators.
  destruct (error_rate_among df _ _ k E5 Hk) as [Hk4|?]; [|set_solver].
  destruct (compliance_among df _ _ k E4 Hk4) as [Hk3|?]; [|set_solver].
  destruct (nps_among df _ _ k E3 Hk3) as [Hk2|?]; [|set_solver].
  destruct (csat_among df _ _ k E2 Hk2) as [Hk1|?]; [|set_solver].
  destruct (qa_score_among df _ _ k E1 Hk1) as [Hk0|?]; [|set_solver].
  rewrite lookup_empty in Hk0. by destruct Hk0.
Qed.

End Indicators.

Section DefaultTargets.
Import KPIAnalyzer.
Local Open Scope R_scope.

(** The thresholds of the default configuration are all stored under
    names ending in [_target]. *)
Lemma default_targets_names kpi_type targets k :
  thresholds (KPIAnalyzer.init default_config) !! kpi_type = Some targets →
  is_Some (targets !! k) → k ∈ default_target_names.
Proof.
  cbn [KPIAnalyzer.init default_config kpi_thresholds default from_option
       thresholds].
  unfold Datatypes.id. intros Ht Hk. unfold default_target_names.
  apply lookup_insert_Some in Ht as [[_ <-]|[_ Ht]].
  { repeat (apply lookup_insert_is_Some in Hk as [<-|[_ Hk]]; [set_solver|]).
    apply lookup_singleton_is_Some in Hk as <-. set_solver. }
  apply lookup_singleton_Some in Ht as [_ <-].
  repeat (apply lookup_insert_is_Some in Hk as [<-|[_ Hk]]; [set_solver|]).
  apply lookup_singleton_is_Some in Hk as <-. set_solver.
Qed.

(** No indicator of the analyzer resolves to one of these names. *)
Lemma indicators_unresolved :
  Forall (λ k, target_key k ∉ default_target_names)
         (performance_indicators ++ quality_indicators).
Proof.
  apply (bool_decide_unpack _). vm_compute. exact I.
Qed.

(** With the default configuration the comparison with the targets is
    empty for the indicators the analyzer itself computes, whatever the
    table and the category: an indicator is looked up under its name
    without [_avg] and [_rate] ("aht", "fcr", "qa_score", ...), the
    default thresholds are stored under "aht_target", "fcr_target",
    "qa_score_target", ..., and no lookup succeeds. *)
Theorem default_targets_never_compared (df : DataFrame)
    (results : gmap string (gmap string float)) (category kpi_type : string)
    (kpis : gmap string float) :
  calculate_all_kpis (KPIAnalyzer.init default_config) df = Ok results →
  results !! category = Some kpis →
  compare_to_targets (KPIAnalyzer.init default_config) kpis kpi_type = ∅.
Proof.
  intros Hrun Hcat.
  assert (Hnames : ∀ k, is_Some (kpis !! k) →
                        k ∈ performance_indicators ++ quality_indicators).
  { intros k Hk. unfold calculate_all_kpis in Hrun.
    destruct (calculate_performance_kpis _ df) as [p|] eqn:Ep; [|done].
    cbn [mbind Py.result_bind] in Hrun.
    destruct (calculate_quality_kpis _ df) as [q|] eqn:Eq; [|done].
    cbn [mbind Py.result_bind] in Hrun. injection Hrun as <-.
    apply elem_of_app.
    apply lookup_insert_Some in Hcat as [[_ <-]|[_ Hcat]].
    - right. by eapply quality_kpis_names.
    - apply lookup_insert_Some in Hcat as [[_ <-]|[_ Hcat]].
      + left. by eapply performance_kpis_names.
      + by rewrite lookup_empty in Hcat. }
  apply map_eq. intros k. rewrite lookup_empty, compare_to_targets_lookup.
  destruct (kpis !! k) as [v|] eqn:Hv; [|done]. cbn [mbind option_bind].
  destruct (thresholds (KPIAnalyzer.init default_config) !! kpi_type)
    as [targets|] eqn:Ht; cbn [default from_option]; unfold Datatypes.id;
    [|by rewrite lookup_empty].
  destruct (targets !! target_key k) as [t|] eqn:Hk; [|done].
  exfalso.
  pose proof indicators_unresolved as Hun. rewrite Forall_forall in Hun.
  apply (Hun k); [apply Hnames; by rewrite Hv|].
  by eapply default_targets_names.
Qed.

End DefaultTargets.

Lemma quality_table_wf : wf quality_table.
Proof. solve_wf. Qed.

Section RecognisedColumns.
Import KPIAnalyzer.

Lemma column_access_ext (df df' : DataFrame) (c : string) :
  assoc c (data df) = assoc c (data df') →
  has_column df c = has_column df' c ∧ getitem df c = getitem df' c.
Proof.
  intros H. split; [|unfold getitem; by rewrite H].
  destruct (has_column df c) eqn:E.
  - apply has_column_getitem in E as [s Hs]. symmetry.
    apply has_column_getitem. exists s. unfold getitem in *. by rewrite <- H.
  - destruct (has_column df' c) eqn:E'; [|done].
    apply has_column_getitem in E' as [s Hs].
    assert (has_column df c = true); [|congruence].
    apply has_column_getitem. exists s. unfold getitem in *. by rewrite H.
Qed.

(** The indicators depend on the columns the analyzer knows, and on
    nothing else: two tables that agree on those columns (both lack a
    column, or both have it with the same content) get the same result,
    be it a mapping of indicators or an exception.  Other columns, the
    order of the columns and the index never matter. *)
Theorem kpis_depend_on_known_columns (self : KPIAnalyzer.t)
    (df df' : DataFrame) :
  (∀ c, c ∈ performance_columns ++ quality_columns →
        assoc c (data df) = assoc c (data df')) →
  calculate_all_kpis self df = calculate_all_kpis self df'.
Proof.
  intros Hagree.
  assert (Hall : Forall (λ c, has_column df c = has_column df' c
                              ∧ getitem df c = getitem df' c)
                        (performance_columns ++ quality_columns)).
  { apply Forall_forall. intros c Hc. by apply column_access_ext, Hagree. }
  unfold performance_columns, quality_columns in Hall. cbn [app] in Hall.
  repeat (apply Forall_cons in Hall as [[? ?] Hall]).
  unfold calculate_all_kpis, calculate_performance_kpis, calculate_quality_kpis.
  unfold handle_time_kpis, fcr_kpis, service_level_kpis, occupancy_kpis,
    adherence_kpis, qa_score_kpis, csat_kpis, nps_kpis, compliance_kpis,
    error_rate_kpis.
  repeat match goal with
  | H : has_column df ?c = _ |- _ => rewrite ?H; clear H
  | H : getitem df ?c = _ |- _ => rewrite ?H; clear H
  end.
  done.
Qed.

(** The table of offered and answered calls, and the same two columns
    in the other order next to a column of agent names. *)
Lemma kpis_depend_on_known_columns_witness :
  calculate_all_kpis (KPIAnalyzer.init default_config) calls_table
  = calculate_all_kpis (KPIAnalyzer.init default_config)
      {| data := ("agent", ObjSeries [Some "ann"; Some "bob"])
                 :: reverse (data calls_table);
         index_len := 2 |}.
Proof.
  apply (kpis_depend_on_known_columns (KPIAnalyzer.init default_config)).
  intros c Hc. unfold performance_columns, quality_columns in Hc.
  repeat (apply elem_of_cons in Hc as [->|Hc]; [reflexivity|]).
  by apply elem_of_nil in Hc.
Defined.

End RecognisedColumns.

Section QualityIndicators.
Import KPIAnalyzer.
Local Open Scope R_scope.

Lemma has_column_assoc df c :
  has_column df c = bool_decide (is_Some (assoc c (data df))).
Proof.
  destruct (assoc c (data df)) as [s|] eqn:E.
  - rewrite (bool_decide_eq_true_2 (is_Some (Some s))) by eauto.
    apply has_column_getitem. exists s. by apply getitem_assoc.
  - rewrite (bool_decide_eq_false_2 (is_Some None)) by (by intros [? ?]).
    unfold has_column. apply bool_decide_eq_false_2.
    by apply assoc_None_not_elem.
Qed.

Ltac column df c Hnum s Hs Hn :=
  rewrite ?(has_column_assoc df c); unfold getitem;
  destruct (assoc c (data df)) as [s|] eqn:Hs;
  [ assert (Hn : is_numeric_dtype s = true)
      by (apply (Hnum c s); [unfold quality_columns; set_solver
                            | by apply getitem_assoc]);
    rewrite ?(bool_decide_eq_true_2 (is_Some (Some s))) by eauto
  | rewrite ?(bool_decide_eq_false_2 (is_Some None)) by (by intros [? ?]) ];
  cbn [andb mbind Py.result_bind].

Ltac reduce_numeric :=
  unfold series_mean, series_median, series_std, series_sum;
  repeat match goal with
  | Hn : is_numeric_dtype ?s = true |- _ =>
      rewrite !(numeric_values_numeric s Hn)
  end;
  cbn [mbind Py.result_bind].

Lemma qa_score_block df kpis :
  numeric_if_present df quality_columns →
  qa_score_kpis df kpis
  = Ok (match assoc "qa_score" (data df) with
        | Some s =>
            <["qa_score_std" := nanstd 1 (values s)]>
              (<["qa_score_median" := nanmedian (values s)]>
                 (<["qa_score_avg" := nanmean (values s)]> kpis))
        | None => kpis
        end).
Proof.
  intros Hnum. unfold qa_score_kpis.
  column df "qa_score" Hnum s Hs Hn; [|done]. by reduce_numeric.
Qed.

Lemma csat_block df kpis :
  numeric_if_present df quality_columns →
  csat_kpis df kpis
  = Ok (match assoc "csat_score" (data df) with
        | Some s =>
            <["csat_median" := nanmedian (values s)]>
              (<["csat_avg" := nanmean (values s)]> kpis)
        | None => kpis
        end).
Proof.
  intros Hnum. unfold csat_kpis.
  column df "csat_score" Hnum s Hs Hn; [|done]. by reduce_numeric.
Qed.

Lemma nps_block df kpis :
  numeric_if_present df quality_columns →
  nps_kpis df kpis
  = Ok (match assoc "nps_score" (data df) with
        | Some s => <["nps_avg" := nanmean (values s)]> kpis
        | None => kpis
        end).
Proof.
  intros Hnum. unfold nps_kpis.
  column df "nps_score" Hnum s Hs Hn; [|done]. by reduce_numeric.
Qed.

Lemma compliance_block df kpis :
  numeric_if_present df quality_columns →
  compliance_kpis df kpis
  = Ok (match assoc "compliance_pass" (data df) with
        | Some s => <["compliance_rate" := nanmean (values s)]> kpis
        | None => kpis
        end).
Proof.
  intros Hnum. unfold compliance_kpis.
  column df "compliance_pass" Hnum s Hs Hn; [|done]. by reduce_numeric.
Qed.

Lemma error_rate_block df kpis :
  numeric_if_present df quality_columns →
  error_rate_kpis df kpis
  = Ok (match assoc "error_count" (data df),
              assoc "total_interactions" (data df) with
        | Some errors, Some interactions =>
            <["error_rate" :=
                if decide (0 < nansum (values interactions))
                then Fin (nansum (values errors) / nansum (values interactions))
                else Fin 0]> kpis
        | _, _ => kpis
        end).
Proof.
  intros Hnum. unfold error_rate_kpis.
  column df "error_count" Hnum er Her Hner;
    column df "total_interactions" Hnum ti Hti Hnti; try done.
  reduce_numeric. do 2 f_equal.
  unfold Float.gtb, Float.ltb, Float.div.
  destruct (decide (0 < nansum (values ti))) as [Hpos|Hneg].
  - rewrite bool_decide_eq_true_2 by done. by rewrite decide_False by lra.
  - by rewrite bool_decide_eq_false_2.
Qed.

(** Looking past a block that adds other indicators. *)
Lemma lookup_block1 (o : option Series) k1 (v1 : Series → float)
    (m : gmap string float) k :
  k ≠ k1 →
  (match o with Some s => <[k1 := v1 s]> m | None => m end) !! k = m !! k.
Proof. intros. destruct o; [by rewrite lookup_insert_ne|done]. Qed.

Lemma lookup_block2 (o : option Series) k1 k2 (v1 v2 : Series → float)
    (m : gmap string float) k :
  k ≠ k1 → k ≠ k2 →
  (match o with
   | Some s => <[k2 := v2 s]> (<[k1 := v1 s]> m)
   | None => m
   end) !! k = m !! k.
Proof. intros. destruct o; [by rewrite !lookup_insert_ne|done]. Qed.

Lemma lookup_block3 (o : option Series) k1 k2 k3 (v1 v2 v3 : Series → float)
    (m : gmap string float) k :
  k ≠ k1 → k ≠ k2 → k ≠ k3 →
  (match o with
   | Some s => <[k3 := v3 s]> (<[k2 := v2 s]> (<[k1 := v1 s]> m))
   | None => m
   end) !! k = m !! k.
Proof. intros. destruct o; [by rewrite !lookup_insert_ne|done]. Qed.

Lemma lookup_block_pair (o o' : option Series) k1 (v : Series → Series → float)
    (m : gmap string float) k :
  k ≠ k1 →
  (match o, o' with
   | Some s, Some s' => <[k1 := v s s']> m
   | _, _ => m
   end) !! k = m !! k.
Proof. intros. destruct o, o'; try done. by rewrite lookup_insert_ne. Qed.

(** On numeric columns, the two columns of the error rate holding
    integers that are added exactly, [calculate_quality_kpis] returns.
    An indicator exists exactly when the table has its column (for the
    error rate: both columns), with the mean, median or standard
    deviation of the values present; the error rate is the sum of the
    errors over the sum of the interactions when that sum is positive
    and 0 otherwise, so that no division by zero occurs; and no other
    indicator is produced. *)
Theorem quality_kpis_indicators (self : KPIAnalyzer.t) (df : DataFrame) :
  numeric_if_present df quality_columns →
  exactly_summed df error_rate_columns →
  ∃ kpis, calculate_quality_kpis self df = Ok kpis ∧
    kpis !! "qa_score_avg"
    = (s ← assoc "qa_score" (data df); Some (nanmean (values s))) ∧
    kpis !! "qa_score_median"
    = (s ← assoc "qa_score" (data df); Some (nanmedian (values s))) ∧
    kpis !! "qa_score_std"
    = (s ← assoc "qa_score" (data df); Some (nanstd 1 (values s))) ∧
    kpis !! "csat_avg"
    = (s ← assoc "csat_score" (data df); Some (nanmean (values s))) ∧
    kpis !! "csat_median"
    = (s ← assoc "csat_score" (data df); Some (nanmedian (values s))) ∧
    kpis !! "nps_avg"
    = (s ← assoc "nps_score" (data df); Some (nanmean (values s))) ∧
    kpis !! "compliance_rate"
    = (s ← assoc "compliance_pass" (data df); Some (nanmean (values s))) ∧
    kpis !! "error_rate"
    = (errors ← assoc "error_count" (data df);
       interactions ← assoc "total_interactions" (data df);
       Some (if decide (0 < nansum (values interactions))
             then Fin (nansum (values errors) / nansum (values interactions))
             else Fin 0)) ∧
    (∀ k, k ∉ quality_indicators → kpis !! k = None).
Proof.
  intros Hnum _. unfold calculate_quality_kpis.
  rewrite qa_score_block by done. cbn [mbind Py.result_bind].
  rewrite csat_block by done. cbn [mbind Py.result_bind].
  rewrite nps_block by done. cbn [mbind Py.result_bind].
  rewrite compliance_block by done. cbn [mbind Py.result_bind].
  rewrite error_rate_block by done. cbn [mbind Py.result_bind].
  eexists. split; [done|].
  repeat match goal with |- _ ∧ _ => split end.
  - rewrite lookup_block_pair, !lookup_block1, lookup_block2 by done.
    destruct (assoc "qa_score" (data df)); [|done].
    by rewrite !lookup_insert_ne, lookup_insert_eq by done.
  - rewrite lookup_block_pair, !lookup_block1, lookup_block2 by done.
    destruct (assoc "qa_score" (data df)); [|done].
    by rewrite !lookup_insert_ne, lookup_insert_eq by done.
  - rewrite lookup_block_pair, !lookup_block1, lookup_block2 by done.
    destruct (assoc "qa_score" (data df)); [|done].
    by rewrite lookup_insert_eq.
  - rewrite lookup_block_pair, !lookup_block1 by done.
    destruct (assoc "csat_score" (data df)).
    + by rewrite !lookup_insert_ne, lookup_insert_eq by done.
    + by rewrite lookup_block3.
  - rewrite lookup_block_pair, !lookup_block1 by done.
    destruct (assoc "csat_score" (data df)).
    + by rewrite lookup_insert_eq.
    + by rewrite lookup_block3.
  - rewrite lookup_block_pair, lookup_block1 by done.
    destruct (assoc "nps_score" (data df)).
    + by rewrite lookup_insert_eq.
    + by rewrite lookup_block2, lookup_block3.
  - rewrite lookup_block_pair by done.
    destruct (assoc "compliance_pass" (data df)).
    + by rewrite lookup_insert_eq.
    + by rewrite lookup_block1, lookup_block2, lookup_block3.
  - destruct (assoc "error_count" (data df)) as [e|],
      (assoc "total_interactions" (data df)) as [i|];
      cbn [mbind option_bind];
      first [ by rewrite lookup_insert_eq
            | by rewrite !lookup_block1, lookup_block2, lookup_block3 ].
  - intros k Hk.
    assert (Hne : Forall (λ name, k ≠ name) quality_indicators).
    { apply Forall_forall. by intros name Hname ->. }
    unfold quality_indicators in Hne.
    repeat (apply Forall_cons in Hne as [? Hne]).
    rewrite lookup_block_pair, !lookup_block1, lookup_block2, lookup_block3
      by done.
    apply lookup_empty.
Qed.

(** Qa scores 90, 80 and a gap; 4 errors in 200 interactions. *)
Lemma quality_kpis_indicators_witness :
  ∃ kpis, calculate_quality_kpis (KPIAnalyzer.init default_config) quality_table
          = Ok kpis ∧
    kpis !! "error_rate" = Some (Fin (4 / 200)) ∧
    kpis !! "csat_avg" = None.
Proof.
  destruct (quality_kpis_indicators (KPIAnalyzer.init default_config)
              quality_table)
    as (kpis & Hrun & _ & _ & _ & Hcsat & _ & _ & _ & Herr & _).
  - intros c s _ Hs. unfold getitem in Hs. simpl in Hs.
    repeat case_decide; by simplify_eq.
  - solve_exactly_summed.
  - exists kpis. split; [exact Hrun|]. split; [|exact Hcsat].
    rewrite Herr.
    change (assoc "error_count" (data quality_table))
      with (Some (NumSeries [Some 1; Some 3; Some 0])).
    change (assoc "total_interactions" (data quality_table))
      with (Some (NumSeries [Some 50; Some 100; Some 50])).
    cbn [mbind option_bind values nansum].
    rewrite decide_True by lra. do 2 f_equal. lra.
Defined.

End QualityIndicators.

(** Three evaluations: the quality indicators exist, none is compared. *)
Lemma default_targets_never_compared_witness :
  ∃ results kpis,
    KPIAnalyzer.calculate_all_kpis (KPIAnalyzer.init default_config)
      quality_table = Ok results ∧
    results !! "quality" = Some kpis ∧
    is_Some (kpis !! "qa_score_avg") ∧
    KPIAnalyzer.compare_to_targets (KPIAnalyzer.init default_config)
      kpis "quality" = ∅.
Proof.
  assert (Hnum : numeric_if_present quality_table quality_columns).
  { intros c s _ Hs. unfold getitem in Hs. simpl in Hs.
    repeat case_decide; by simplify_eq. }
  assert (Hrun : ∃ kpis,
            KPIAnalyzer.calculate_all_kpis (KPIAnalyzer.init default_config)
              quality_table
            = Ok (<["quality" := kpis]> (<["performance" := ∅]> ∅)) ∧
            is_Some (kpis !! "qa_score_avg")).
  { unfold KPIAnalyzer.calculate_all_kpis.
    assert (Hperf : KPIAnalyzer.calculate_performance_kpis
                      (KPIAnalyzer.init default_config) quality_table = Ok ∅)
      by reflexivity.
    rewrite Hperf. cbn [mbind Py.result_bind].
    unfold KPIAnalyzer.calculate_quality_kpis.
    rewrite qa_score_block by done. cbn [mbind Py.result_bind].
    rewrite csat_block by done. cbn [mbind Py.result_bind].
    rewrite nps_block by done. cbn [mbind Py.result_bind].
    rewrite compliance_block by done. cbn [mbind Py.result_bind].
    rewrite error_rate_block by done. cbn [mbind Py.result_bind].
    eexists. split; [reflexivity|].
    rewrite lookup_block_pair, !lookup_block1, lookup_block2 by done.
    change (assoc "qa_score" (data quality_table))
      with (Some (NumSeries [Some 90%R; Some 80%R; None])).
    cbv beta iota.
    rewrite !lookup_insert_ne, lookup_insert_eq by done. by eexists. }
  destruct Hrun as (kpis & Hrun & Hqa).
  eexists _, kpis. split; [exact Hrun|]. split; [apply lookup_insert_eq|].
  split; [exact Hqa|].
  eapply (default_targets_never_compared quality_table)
    with (category := "quality"); [exact Hrun | apply lookup_insert_eq].
Defined.

(** ** Correlation analyzer: the drivers of an indicator *)

Section Drivers.
Import CorrelationAnalyzer.
Local Open Scope R_scope.
Variable corr_of_text : list (option string) → list (option R) → result float.

Lemma series_corr_numeric (a b : Series) :
  is_numeric_dtype a = true →
  series_corr corr_of_text a b = Ok (nancorr (values a) (values b)).
Proof.
  intros Hn. unfold series_corr. case_decide as Hlen.
  - rewrite <- values_length in Hlen. apply length_zero_iff_nil in Hlen.
    rewrite Hlen. done.
  - by destruct a.
Qed.

Lemma identify_kpi_drivers_run (self : CorrelationAnalyzer.t) (df : DataFrame)
    (target_kpi : string) (min_correlation : float) (target : Series) :
  wf df →
  assoc target_kpi (data df) = Some target →
  is_numeric_dtype target = true →
  identify_kpi_drivers corr_of_text self df target_kpi min_correlation
  = Ok (Py.sort_desc (λ x, Float.abs x.2)
          (select_dtypes_number df
             ≫= driver_of df target_kpi (values target) min_correlation)).
Proof.
  intros Hwf Ht Hn. unfold identify_kpi_drivers.
  assert (Hhas : has_column df target_kpi = true)
    by (apply has_column_getitem; exists target; by apply getitem_assoc).
  rewrite Hhas. cbn [negb].
  rewrite (for_each_append _ _
             (driver_of df target_kpi (values target) min_correlation)).
  { done. }
  intros col acc Hcol.
  apply select_dtypes_number_elem in Hcol as [xs Hxs]; [|done].
  unfold driver_of. rewrite Hxs. case_decide as Hne; [|by rewrite app_nil_r].
  rewrite (getitem_assoc _ _ _ Ht), (getitem_assoc _ _ _ Hxs).
  cbn [mbind Py.result_bind]. rewrite series_corr_numeric by done.
  cbn [mbind Py.result_bind].
  by destruct (Float.geb _ _); rewrite ?app_nil_r.
Qed.

Lemma driver_of_elem df target_kpi target min_correlation cols col r :
  (col, r) ∈ cols ≫= driver_of df target_kpi target min_correlation ↔
  col ∈ cols ∧ col ≠ target_kpi ∧
  ∃ other, assoc col (data df) = Some other ∧
           r = nancorr target (values other) ∧
           Float.geb (Float.abs r) min_correlation = true.
Proof.
  rewrite list_elem_of_bind. unfold driver_of. split.
  - intros (c & Hin & Hc).
    destruct (assoc c (data df)) as [other|] eqn:Ho;
      [|by apply elem_of_nil in Hin].
    case_decide as Hne; [|by apply elem_of_nil in Hin].
    destruct (Float.geb _ _) eqn:Hge; [|by apply elem_of_nil in Hin].
    apply list_elem_of_singleton in Hin. injection Hin as -> ->.
    split; [done|]. split; [done|]. by exists other.
  - intros (Hc & Hne & other & Ho & -> & Hge). exists col. split; [|done].
    rewrite Ho, decide_True by done. rewrite Hge. left.
Qed.

Lemma driver_of_keys df target_kpi target min_correlation cols :
  (cols ≫= driver_of df target_kpi target min_correlation).*1 `sublist_of` cols.
Proof.
  induction cols as [|c cols IH]; [done|]. csimpl. rewrite fmap_app.
  unfold driver_of at 1.
  destruct (assoc c (data df)); [|by apply sublist_cons].
  case_decide; [|by apply sublist_cons].
  destruct (Float.geb _ _); [|by apply sublist_cons].
  cbn [fmap list_fmap app fst]. by apply sublist_skip.
Qed.

(** [identify_kpi_drivers] raises the error of a missing target when
    the target is not a column.  For a numeric or boolean target it
    returns: the list holds exactly the numeric columns other than the
    target whose correlation with the target has an absolute value of
    at least the minimum, each once and with that correlation; columns
    whose correlation is undefined (NaN) are left out; and the list is
    sorted by absolute correlation, greatest first. *)
Theorem identify_kpi_drivers_sorted (self : CorrelationAnalyzer.t)
    (df : DataFrame) (target_kpi : string) (min_correlation : float) :
  wf df →
  (target_kpi ∉ columns df →
   identify_kpi_drivers corr_of_text self df target_kpi min_correlation
   = Raise (ValueError ("Target KPI '" +:+ target_kpi
                        +:+ "' not found in DataFrame"))) ∧
  (∀ target, assoc target_kpi (data df) = Some target →
     is_numeric_dtype target = true →
     ∃ l, identify_kpi_drivers corr_of_text self df target_kpi min_correlation
          = Ok l ∧
       (∀ col r, (col, r) ∈ l ↔
          col ≠ target_kpi ∧
          ∃ xs, assoc col (data df) = Some (NumSeries xs) ∧
                r = nancorr (values target) xs ∧
                Float.geb (Float.abs r) min_correlation = true) ∧
       (∀ col r, (col, r) ∈ l → r ≠ NaN) ∧
       NoDup l.*1 ∧
       StronglySorted
         (λ x y, Float.geb (Float.abs x.2) (Float.abs y.2) = true) l).
Proof.
  intros Hwf. split.
  { intros Hmiss. unfold identify_kpi_drivers, has_column.
    by rewrite bool_decide_eq_false_2. }
  intros target Ht Hn. eexists. split; [by apply identify_kpi_drivers_run|].
  set (found := select_dtypes_number df
                  ≫= driver_of df target_kpi (values target) min_correlation).
  assert (Helem : ∀ col r, (col, r) ∈ found ↔
            col ≠ target_kpi ∧
            ∃ xs, assoc col (data df) = Some (NumSeries xs) ∧
                  r = nancorr (values target) xs ∧
                  Float.geb (Float.abs r) min_correlation = true).
  { intros col r. unfold found. rewrite driver_of_elem. split.
    - intros (Hc & Hne & other & Ho & Hr & Hge).
      apply select_dtypes_number_elem in Hc as [xs Hxs]; [|done].
      split; [done|]. exists xs. rewrite Hxs in Ho. injection Ho as <-. done.
    - intros (Hne & xs & Hxs & Hr & Hge). split; [|split; [done|]].
      + apply select_dtypes_number_elem; eauto.
      + exists (NumSeries xs). done. }
  assert (Hnan : ∀ col r, (col, r) ∈ found → r ≠ NaN).
  { intros col r H. apply Helem in H as (_ & xs & _ & _ & Hge).
    unfold Float.geb in Hge. apply leb_not_nan in Hge as [_ Hge].
    by destruct r. }
  split; [|split; [|split]].
  - intros col r. by rewrite sort_desc_perm.
  - intros col r. rewrite sort_desc_perm. apply Hnan.
  - rewrite sort_desc_perm. eapply sublist_NoDup.
    + unfold select_dtypes_number.
      apply (NoDup_filter_keys (λ p : string * Series, is_number p.2 = true)), Hwf.
    + apply driver_of_keys.
  - apply (sort_desc_sorted (λ x : string * float, Float.abs x.2)).
    apply Forall_forall. intros [col r] H. cbn [snd].
    apply Hnan in H. by destruct r.
Qed.

End Drivers.

Lemma driver_table_wf : wf driver_table.
Proof. solve_wf. Qed.

(** Handle times as the target: the coefficients listed are defined and
    the list is sorted. *)
Lemma identify_kpi_drivers_sorted_witness :
  ∃ l, CorrelationAnalyzer.identify_kpi_drivers (λ _ _, Raise TypeError)
         (CorrelationAnalyzer.init default_config) driver_table "handle_time"
         (Fin 0.3%R) = Ok l ∧
       (∀ col r, (col, r) ∈ l → r ≠ NaN) ∧
       NoDup l.*1.
Proof.
  destruct (identify_kpi_drivers_sorted (λ _ _, Raise TypeError)
              (CorrelationAnalyzer.init default_config) driver_table
              "handle_time" (Fin 0.3%R) driver_table_wf) as [_ Hrun].
  destruct (Hrun (NumSeries [Some 300%R; Some 200%R; Some 100%R]) eq_refl eq_refl)
    as (l & Hl & _ & Hnan & Hnd & _).
  exists l. split; [exact Hl|]. split; [exact Hnan | exact Hnd].
Defined.

(** ** Correlation analyzer: the methods of the matrix and the report *)

Section MatrixMethods.
Import CorrelationAnalyzer.
Local Open Scope R_scope.

Lemma clip_bounded (v : R) : -1 <= clip v <= 1.
Proof.
  unfold clip. unfold Rmin, Rmax.
  repeat (destruct (Rle_dec _ _)); lra.
Qed.

Lemma kendall_bounded (ps : list (R * R)) (r : R) :
  kendall ps = Some r → -1 <= r <= 1.
Proof.
  unfold kendall. cbv zeta. case_decide; [done|]. intros [= <-].
  apply clip_bounded.
Qed.

Lemma parse_method_known method :
  method ∈ known_methods → ∃ m, parse_method method = Ok m.
Proof.
  intros H. unfold known_methods in H. unfold parse_method.
  repeat case_decide; eauto. exfalso. set_solver.
Qed.

Lemma parse_method_unknown method :
  method ∉ known_methods →
  parse_method method
  = Raise (ValueError
             ("method must be either 'pearson', 'spearman', 'kendall', or a callable, '"
              +:+ method +:+ "' was supplied")).
Proof.
  intros H. unfold known_methods in H. unfold parse_method.
  repeat case_decide; try done; exfalso; set_solver.
Qed.

(** [calculate_correlation_matrix] on a well-formed table raises only
    for a method name that [DataFrame.corr] does not know, and then the
    [ValueError] of pandas; for the three known methods it returns.
    With the method [kendall], whose coefficient is cut to the range
    from -1 to 1 where it is computed, every entry of the matrix is NaN
    or a number between -1 and 1. *)
Theorem correlation_matrix_methods (self : CorrelationAnalyzer.t)
    (df : DataFrame) (method : string) :
  wf df →
  (method ∉ known_methods →
   calculate_correlation_matrix self df method
   = Raise (ValueError
              ("method must be either 'pearson', 'spearman', 'kendall', or a callable, '"
               +:+ method +:+ "' was supplied"))) ∧
  (method ∈ known_methods →
   ∃ M, calculate_correlation_matrix self df method = Ok M) ∧
  (∀ M, calculate_correlation_matrix self df "kendall" = Ok M →
        ∀ i j, (i < length (columns M))%nat → (j < length (columns M))%nat →
               is_coefficient (iloc M i j)).
Proof.
  intros Hwf. split; [|split].
  - intros Hun. unfold calculate_correlation_matrix.
    rewrite getitems_numeric by done. cbn [mbind Py.result_bind].
    unfold corr. by rewrite parse_method_unknown.
  - intros Hkn. destruct (parse_method_known method Hkn) as [m Hm].
    unfold calculate_correlation_matrix.
    rewrite getitems_numeric by done. cbn [mbind Py.result_bind].
    unfold corr. rewrite Hm. cbn [mbind Py.result_bind]. eauto.
  - intros M Hrun.
    destruct (correlation_matrix_entries self df "kendall" M Hwf Hrun)
      as (m & Hm & Hcols & _ & Hread).
    injection Hm as <-.
    intros i j Hi Hj. rewrite Hcols, length_fmap in Hi, Hj.
    rewrite Hread, decide_True by done. unfold corr_entry. cbv zeta.
    cbn [coefficient]. case_decide; [by left|].
    case_decide; [right; exists 1; split; [done | lra]|].
    destruct (kendall _) as [x|] eqn:Hx; [right|by left].
    exists x. split; [done|]. by apply kendall_bounded in Hx.
Qed.

(** Kendall coefficients of handle times with a gap and QA scores. *)
Lemma correlation_matrix_methods_witness :
  ∃ M, calculate_correlation_matrix (CorrelationAnalyzer.init default_config)
         gap_table "kendall" = Ok M ∧
       is_coefficient (iloc M 0 1).
Proof.
  destruct (correlation_matrix_methods (CorrelationAnalyzer.init default_config)
              gap_table "kendall" gap_table_wf) as (_ & Hrun & Hbound).
  destruct Hrun as [M HM].
  { unfold known_methods. right. right. left. }
  exists M. split; [exact HM|].
  assert (Hcols : length (columns M) = 2%nat).
  { destruct (correlation_matrix_entries _ _ _ M gap_table_wf HM)
      as (_ & _ & -> & _). reflexivity. }
  apply (Hbound M HM); rewrite Hcols; lia.
Defined.

End MatrixMethods.

Section Report.
Import CorrelationAnalyzer.
Context {PCA : Type}.
Variable perform_pca : DataFrame → nat → result PCA.

(** On a well-formed table the first two steps of
    [analyze_relationships] cannot fail: the Pearson matrix is computed
    and searched with the threshold of the analyzer.  The principal
    components are requested exactly when the table has three numeric
    columns or more; an exception of [perform_pca] is the only one the
    report can raise, and with fewer columns the report has no [pca]
    entry. *)
Theorem analyze_relationships_outcome (self : CorrelationAnalyzer.t)
    (df : DataFrame) :
  wf df →
  ∃ M pairs,
    calculate_correlation_matrix self df "pearson" = Ok M ∧
    find_strong_correlations self M None = Ok pairs ∧
    (length (select_dtypes_number df) < 3 →
     analyze_relationships perform_pca self df
     = Ok {| correlation_matrix := M; strong_correlations := pairs;
             pca := None |}) ∧
    (3 ≤ length (select_dtypes_number df) →
     (∀ e, perform_pca df 3 = Raise e →
           analyze_relationships perform_pca self df = Raise e) ∧
     (∀ results, perform_pca df 3 = Ok results →
           analyze_relationships perform_pca self df
           = Ok {| correlation_matrix := M; strong_correlations := pairs;
                   pca := Some results |})).
Proof.
  intros Hwf.
  destruct (correlation_matrix_runs self df Hwf) as [M HM].
  pose proof (correlation_matrix_readable self df "pearson" M Hwf HM) as Hread.
  exists M. eexists. split; [done|].
  split; [by apply find_strong_correlations_run|].
  cbn [default from_option]. unfold Datatypes.id.
  unfold analyze_relationships. rewrite HM. cbn [mbind Py.result_bind].
  rewrite (find_strong_correlations_run self M None Hread).
  cbn [mbind Py.result_bind default from_option].
  split.
  - intros Hfew. by rewrite decide_False by lia.
  - intros Hmany. rewrite decide_True by done.
    split; [intros e He | intros results He]; by rewrite He.
Qed.

End Report.

(** Three numeric columns: the principal components are part of the
    report. *)
Lemma analyze_relationships_outcome_witness :
  ∃ M pairs,
    CorrelationAnalyzer.analyze_relationships (λ _ n, Ok n)
      (CorrelationAnalyzer.init default_config) driver_table
    = Ok {| CorrelationAnalyzer.correlation_matrix := M;
            CorrelationAnalyzer.strong_correlations := pairs;
            CorrelationAnalyzer.pca := Some 3 |}.
Proof.
  destruct (analyze_relationships_outcome (λ _ n, Ok n)
              (CorrelationAnalyzer.init default_config) driver_table
              driver_table_wf) as (M & pairs & _ & _ & _ & Hmany).
  exists M, pairs. apply Hmany; [simpl; lia | reflexivity].
Defined.

(** ** Statistical analyzer: inter-quartile anomalies *)

Section Quartiles.
Local Open Scope R_scope.

Lemma insert_asc_perm x l : insert_asc x l ≡ₚ x :: l.
Proof.
  induction l as [|y l IH]; cbn [insert_asc]; [done|].
  case_decide; [done|]. rewrite IH. apply Permutation_swap.
Qed.

Lemma sort_asc_perm l : sort_asc l ≡ₚ l.
Proof.
  unfold sort_asc. induction l as [|x l IH]; cbn [foldr]; [done|].
  by rewrite insert_asc_perm, IH.
Qed.

Lemma insert_asc_sorted x l :
  StronglySorted Rle l → StronglySorted Rle (insert_asc x l).
Proof.
  induction 1 as [|y l Hs IH Hy]; cbn [insert_asc].
  - repeat constructor.
  - case_decide as Hxy.
    + constructor; [by constructor|]. constructor; [done|].
      eapply Forall_impl; [exact Hy|]. intros z Hz. cbn beta in *. lra.
    + constructor; [done|]. rewrite insert_asc_perm.
      constructor; [lra | done].
Qed.

Lemma sort_asc_sorted l : StronglySorted Rle (sort_asc l).
Proof.
  unfold sort_asc. induction l as [|x l IH]; cbn [foldr]; [constructor|].
  by apply insert_asc_sorted.
Qed.

Lemma sorted_nth_le (s : list R) (i j : nat) :
  StronglySorted Rle s → (i ≤ j < length s)%nat → nth i s 0 <= nth j s 0.
Proof.
  intros Hs. revert i j. induction Hs as [|y l Hs IH Hy]; intros i j Hij.
  - simpl in Hij. lia.
  - destruct i as [|i], j as [|j]; cbn [nth]; [lra| |lia|].
    + rewrite Forall_forall in Hy. apply Hy. apply list_elem_of_In, nth_In.
      simpl in Hij. lia.
    + apply IH. simpl in Hij. lia.
Qed.

Lemma sort_asc_length l : length (sort_asc l) = length l.
Proof. by rewrite sort_asc_perm. Qed.

(** A quantile lies between the two order statistics it interpolates. *)
Lemma nanquantile_between (num den : nat) (xs : list (option R)) :
  dropna xs ≠ [] → (0 < den)%nat → (num ≤ den)%nat →
  let s := sort_asc (dropna xs) in
  let lo := ((length s - 1) * num / den)%nat in
  ∃ q, nanquantile num den xs = Fin q ∧
       (lo < length s)%nat ∧
       nth lo s 0 <= q <= nth (Nat.min (S lo) (length s - 1)) s 0.
Proof.
  intros Hne Hden Hnum s lo. unfold nanquantile. fold s. cbv zeta.
  assert (Hlen : length s ≠ 0%nat).
  { unfold s. rewrite sort_asc_length. by destruct (dropna xs). }
  rewrite decide_False by done. fold lo. eexists. split; [done|].
  set (h := ((length s - 1) * num)%nat). fold h in lo.
  assert (Hlo : (lo ≤ length s - 1)%nat).
  { unfold lo, h. apply Nat.Div0.div_le_upper_bound. nia. }
  split; [lia|].
  set (a := nth lo s 0). set (b := nth (Nat.min (S lo) (length s - 1)) s 0).
  assert (Hab : a <= b).
  { apply sorted_nth_le; [apply sort_asc_sorted | lia]. }
  assert (Hfrac : 0 <= INR (h mod den) / INR den <= 1).
  { assert (0 < INR den) by (apply lt_0_INR; lia).
    pose proof (pos_INR (h mod den)).
    assert (INR (h mod den) <= INR den)
      by (apply le_INR; pose proof (Nat.mod_upper_bound h den); lia).
    split.
    - unfold Rdiv. apply Rmult_le_pos; [lra|].
      left. apply Rinv_0_lt_compat. lra.
    - apply (Rmult_le_reg_r (INR den)); [lra|].
      unfold Rdiv. rewrite Rmult_assoc, Rinv_l by lra. lra. }
  nra.
Qed.

(** The first quartile is not above the third. *)
Lemma quartiles_ordered (xs : list (option R)) :
  dropna xs ≠ [] →
  ∃ q1 q3, nanquantile 1 4 xs = Fin q1 ∧ nanquantile 3 4 xs = Fin q3 ∧ q1 <= q3.
Proof.
  intros Hne.
  destruct (nanquantile_between 1 4 xs Hne ltac:(lia) ltac:(lia))
    as (q1 & Hq1 & _ & Hlo1 & Hhi1).
  destruct (nanquantile_between 3 4 xs Hne ltac:(lia) ltac:(lia))
    as (q3 & Hq3 & _ & Hlo3 & Hhi3).
  exists q1, q3. split; [done|]. split; [done|].
  set (s := sort_asc (dropna xs)) in *.
  assert (Hs : StronglySorted Rle s) by apply sort_asc_sorted.
  assert (Hlen : length s ≠ 0%nat).
  { unfold s. rewrite sort_asc_length. by destruct (dropna xs). }
  set (m := (length s - 1)%nat) in *.
  destruct (decide (m < 2)%nat) as [Hsmall|Hbig].
  - (* one or two values: both quartiles interpolate the same pair *)
    unfold nanquantile in Hq1, Hq3. fold s in Hq1, Hq3. cbv zeta in Hq1, Hq3.
    rewrite decide_False in Hq1, Hq3 by done. fold m in Hq1, Hq3.
    assert (E1 : (m * 1 / 4 = 0)%nat)
      by (destruct m as [|[|m']]; [reflexivity | reflexivity | lia]).
    assert (E3 : (m * 3 / 4 = 0)%nat)
      by (destruct m as [|[|m']]; [reflexivity | reflexivity | lia]).
    assert (Hfr : INR ((m * 1) mod 4) <= INR ((m * 3) mod 4)).
    { apply le_INR. destruct m as [|[|m']]; [reflexivity | cbv; lia | lia]. }
    rewrite E1 in Hq1. rewrite E3 in Hq3.
    assert (Hab : nth 0 s 0 <= nth (Nat.min 1 m) s 0)
      by (apply sorted_nth_le; [done | lia]).
    assert (H4 : 0 < INR 4) by (apply lt_0_INR; lia).
    assert (Hfr' : INR ((m * 1) mod 4) / INR 4 <= INR ((m * 3) mod 4) / INR 4).
    { unfold Rdiv. apply Rmult_le_compat_r; [|done].
      left. by apply Rinv_0_lt_compat. }
    assert (Heq1 : q1 = nth 0 s 0 + (nth (Nat.min 1 m) s 0 - nth 0 s 0)
                                    * (INR ((m * 1) mod 4) / INR 4))
      by congruence.
    assert (Heq3 : q3 = nth 0 s 0 + (nth (Nat.min 1 m) s 0 - nth 0 s 0)
                                    * (INR ((m * 3) mod 4) / INR 4))
      by congruence.
    rewrite Heq1, Heq3. nra.
  - (* otherwise the third quartile starts where the first ends, or later *)
    assert (Hdiv : (Nat.min (S (m * 1 / 4)) m ≤ m * 3 / 4 ∧ m * 3 / 4 < length s)%nat).
    { pose proof (Nat.div_mod_eq (m * 1) 4). pose proof (Nat.div_mod_eq (m * 3) 4).
      pose proof (Nat.mod_upper_bound (m * 1) 4 ltac:(lia)).
      pose proof (Nat.mod_upper_bound (m * 3) 4 ltac:(lia)).
      unfold m in *. lia. }
    assert (Hmid : nth (Nat.min (S (m * 1 / 4)) m) s 0 <= nth (m * 3 / 4) s 0)
      by (apply sorted_nth_le; [done | lia]).
    lra.
Qed.

(** Every quantile of a column with one value only is that value. *)
Lemma nanquantile_constant (num den : nat) (xs : list (option R)) (v : R) :
  (0 < den)%nat → (num ≤ den)%nat →
  v ∈ dropna xs → (∀ a, a ∈ dropna xs → a = v) →
  nanquantile num den xs = Fin v.
Proof.
  intros Hden Hnum Hv Hall.
  assert (Hne : dropna xs ≠ []) by (intros E; rewrite E in Hv; by apply elem_of_nil in Hv).
  destruct (nanquantile_between num den xs Hne Hden Hnum)
    as (q & Hq & Hlo & Hle & Hge).
  set (s := sort_asc (dropna xs)) in *.
  assert (Hnth : ∀ k, (k < length s)%nat → nth k s 0 = v).
  { intros k Hk. apply Hall. rewrite <- (sort_asc_perm (dropna xs)).
    apply list_elem_of_In, nth_In, Hk. }
  rewrite Hnth in Hle by done. rewrite Hnth in Hge by lia.
  rewrite Hq. f_equal. lra.
Qed.

End Quartiles.

Section InterQuartile.
Import StatisticalAnalyzer.
Local Open Scope R_scope.

Lemma numeric_column_length (df : DataFrame) c xs :
  wf df → assoc c (data df) = Some (NumSeries xs) → length xs = index_len df.
Proof.
  intros [_ Hwf] Hcol. rewrite Forall_forall in Hwf.
  specialize (Hwf _ (assoc_elem _ _ _ Hcol)). cbn [snd] in Hwf.
  unfold series_len in Hwf. cbn [cells] in Hwf. by rewrite length_fmap in Hwf.
Qed.

Lemma iqr_flags_length xs threshold :
  length (iqr_flags xs threshold) = length xs.
Proof. unfold iqr_flags. cbv zeta. by rewrite length_fmap. Qed.

(** The inter-quartile branch: one flag per row is assigned as the
    column [is_anomaly]. *)
Lemma detect_anomalies_iqr_run df column threshold xs :
  wf df →
  assoc column (data df) = Some (NumSeries xs) →
  detect_anomalies df column "iqr" threshold
  = Ok {| data := assoc_set "is_anomaly"
                    (BoolSeries (iqr_flags xs threshold)) (data df);
          index_len := index_len df |}.
Proof.
  intros Hwf Hcol. pose proof (numeric_column_length df column xs Hwf Hcol) as Hlen.
  apply getitem_assoc in Hcol.
  unfold detect_anomalies. cbv zeta.
  rewrite decide_False by done. rewrite decide_True by done.
  rewrite Hcol. cbn [mbind Py.result_bind numeric_values values].
  fold (iqr_flags xs threshold).
  unfold setitem, series_len. cbn [cells].
  rewrite length_fmap, iqr_flags_length, decide_True by done.
  cbn [mbind Py.result_bind]. unfold getitem. cbn [data].
  rewrite assoc_set_lookup. done.
Qed.

Lemma iqr_flags_lookup xs threshold i :
  iqr_flags xs threshold !! i
  = (λ c, Float.ltb (Float.of_cell c)
            (Float.sub (nanquantile 1 4 xs)
               (Float.mul threshold
                  (Float.sub (nanquantile 3 4 xs) (nanquantile 1 4 xs))))
          || Float.gtb (Float.of_cell c)
               (Float.add (nanquantile 3 4 xs)
                  (Float.mul threshold
                     (Float.sub (nanquantile 3 4 xs) (nanquantile 1 4 xs)))))
      <$> xs !! i.
Proof. unfold iqr_flags. cbv zeta. apply list_lookup_fmap. Qed.

(** With the method [iqr] a numeric column with gaps is accepted: the
    table comes back with a flag for every row in the boolean column
    [is_anomaly].  A missing value is never flagged, and in a column
    whose values are all the same nothing is flagged, whatever the
    threshold. *)
Theorem detect_anomalies_iqr_flags (df : DataFrame) (column : string)
    (threshold : float) (xs : list (option R)) :
  wf df →
  assoc column (data df) = Some (NumSeries xs) →
  ∃ flags,
    detect_anomalies df column "iqr" threshold
    = Ok {| data := assoc_set "is_anomaly" (BoolSeries flags) (data df);
            index_len := index_len df |} ∧
    length flags = len df ∧
    (∀ i, xs !! i = Some None → flags !! i = Some false) ∧
    ((∀ a b, a ∈ dropna xs → b ∈ dropna xs → a = b) →
     ∀ i, (i < len df)%nat → flags !! i = Some false).
Proof.
  intros Hwf Hcol. exists (iqr_flags xs threshold).
  pose proof (numeric_column_length df column xs Hwf Hcol) as Hlen.
  split; [by apply detect_anomalies_iqr_run|].
  split; [by rewrite iqr_flags_length|]. split.
  - intros i Hi. rewrite iqr_flags_lookup, Hi.
    cbn [fmap option_fmap option_map Float.of_cell Float.ltb orb].
    unfold Float.gtb. by destruct (Float.add _ _).
  - intros Hconst i Hi. unfold len in Hi. rewrite <- Hlen in Hi.
    destruct (lookup_lt_is_Some_2 xs i Hi) as [c Hc].
    rewrite iqr_flags_lookup, Hc. cbn [fmap option_fmap option_map].
    destruct c as [x|];
      [|cbn [Float.of_cell Float.ltb orb]; unfold Float.gtb;
        by destruct (Float.add _ _)].
    f_equal.
    assert (Hx : x ∈ dropna xs).
    { apply dropna_elem. by eapply list_elem_of_lookup_2. }
    assert (Hall : ∀ a, a ∈ dropna xs → a = x) by (intros a Ha; by apply Hconst).
    rewrite !(nanquantile_constant _ 4 xs x) by (done || lia).
    cbn [Float.of_cell Float.sub Float.add Float.neg].
    replace (x + - x) with 0 by ring.
    destruct threshold as [t| | |]; cbn [Float.mul Float.add Float.neg Float.ltb Float.gtb].
    + rewrite !bool_decide_eq_false_2 by lra. done.
    + rewrite decide_True by done. done.
    + rewrite decide_True by done. done.
    + done.
Qed.

(** Six handle times, one of them missing: six flags, none for the
    gap. *)
Lemma detect_anomalies_iqr_flags_witness :
  ∃ flags,
    detect_anomalies long_call_table "handle_time" "iqr" (Fin 1.5)
    = Ok {| data := assoc_set "is_anomaly" (BoolSeries flags)
                      (data long_call_table);
            index_len := 6 |} ∧
    length flags = 6%nat ∧ flags !! 2%nat = Some false.
Proof.
  assert (Hwf : wf long_call_table) by solve_wf.
  destruct (detect_anomalies_iqr_flags long_call_table "handle_time" (Fin 1.5)
              [Some 100; Some 110; None; Some 120; Some 130; Some 900]
              Hwf eq_refl) as (flags & Hrun & Hlen & Hgap & _).
  exists flags. split; [exact Hrun|]. split; [exact Hlen|].
  apply Hgap. reflexivity.
Defined.

(** With a threshold that is not negative, every row flagged by the
    method [iqr] holds a value below the first quartile or above the
    third; the first quartile is never above the third. *)
Theorem detect_anomalies_iqr_quartiles (df : DataFrame) (column : string)
    (t : R) (xs : list (option R)) (out : DataFrame) (flags : list bool) :
  wf df →
  assoc column (data df) = Some (NumSeries xs) →
  0 <= t →
  detect_anomalies df column "iqr" (Fin t) = Ok out →
  assoc "is_anomaly" (data out) = Some (BoolSeries flags) →
  ∀ i, flags !! i = Some true →
    ∃ x q1 q3, xs !! i = Some (Some x) ∧
               nanquantile 1 4 xs = Fin q1 ∧ nanquantile 3 4 xs = Fin q3 ∧
               q1 <= q3 ∧ (x < q1 ∨ q3 < x).
Proof.
  intros Hwf Hcol Ht Hrun Hflags i Hi.
  rewrite (detect_anomalies_iqr_run df column (Fin t) xs Hwf Hcol) in Hrun.
  injection Hrun as <-. cbn [data] in Hflags.
  rewrite assoc_set_lookup in Hflags. injection Hflags as <-.
  rewrite iqr_flags_lookup in Hi.
  destruct (xs !! i) as [[x|]|] eqn:Hx; [| | done].
  2:{ exfalso. cbn [fmap option_fmap option_map Float.of_cell Float.ltb orb] in Hi.
      unfold Float.gtb in Hi. by destruct (Float.add _ _). }
  cbn [fmap option_fmap option_map] in Hi. injection Hi as Hi.
  assert (Hne : dropna xs ≠ []).
  { intros E. assert (Hin : x ∈ dropna xs)
      by (apply dropna_elem; by eapply list_elem_of_lookup_2).
    rewrite E in Hin. by apply elem_of_nil in Hin. }
  destruct (quartiles_ordered xs Hne) as (q1 & q3 & Hq1 & Hq3 & Hle).
  exists x, q1, q3. split; [done|]. split; [done|]. split; [done|].
  split; [done|]. rewrite Hq1, Hq3 in Hi.
  cbn [Float.of_cell Float.sub Float.add Float.neg Float.mul Float.ltb
       Float.gtb] in Hi.
  apply orb_true_iff in Hi as [Hi|Hi]; apply bool_decide_eq_true in Hi.
  - left. nra.
  - right. nra.
Qed.

Lemma long_call_sorted :
  sort_asc (dropna [Some 100; Some 110; None; Some 120; Some 130; Some 900])
  = [100; 110; 120; 130; 900].
Proof.
  rewrite !dropna_cons_Some, dropna_cons_None, !dropna_cons_Some.
  change (dropna []) with (@nil R). unfold sort_asc.
  repeat (cbn [foldr insert_asc]; rewrite ?decide_True by lra). done.
Qed.

Lemma long_call_quartiles :
  nanquantile 1 4 [Some 100; Some 110; None; Some 120; Some 130; Some 900]
  = Fin 110 ∧
  nanquantile 3 4 [Some 100; Some 110; None; Some 120; Some 130; Some 900]
  = Fin 130.
Proof.
  unfold nanquantile. rewrite long_call_sorted. cbv zeta.
  rewrite decide_False by done. cbn [length].
  change ((5 - 1) * 1 / 4)%nat with 1%nat.
  change ((5 - 1) * 3 / 4)%nat with 3%nat.
  change (((5 - 1) * 1) mod 4)%nat with 0%nat.
  change (((5 - 1) * 3) mod 4)%nat with 0%nat.
  change (Nat.min 2 (5 - 1)) with 2%nat. change (Nat.min 4 (5 - 1)) with 4%nat.
  cbn [nth]. change (INR 0) with 0. unfold Rdiv. rewrite !Rmult_0_l, !Rmult_0_r.
  split; f_equal; lra.
Qed.

(** The long call is flagged, and it lies above the third quartile. *)
Lemma detect_anomalies_iqr_quartiles_witness :
  ∃ x q1 q3,
    [Some 100; Some 110; None; Some 120; Some 130; Some 900] !! 5%nat
    = Some (Some x) ∧
    nanquantile 1 4 [Some 100; Some 110; None; Some 120; Some 130; Some 900]
    = Fin q1 ∧
    nanquantile 3 4 [Some 100; Some 110; None; Some 120; Some 130; Some 900]
    = Fin q3 ∧
    q1 <= q3 ∧ (x < q1 ∨ q3 < x).
Proof.
  assert (Hwf : wf long_call_table) by solve_wf.
  assert (Hpos : 0 <= 1.5) by lra.
  apply (detect_anomalies_iqr_quartiles long_call_table "handle_time" 1.5
           [Some 100; Some 110; None; Some 120; Some 130; Some 900]
           _ _ Hwf eq_refl Hpos
           (detect_anomalies_iqr_run long_call_table "handle_time" (Fin 1.5)
              [Some 100; Some 110; None; Some 120; Some 130; Some 900]
              Hwf eq_refl)
           (assoc_set_lookup _ _ _)).
  rewrite iqr_flags_lookup.
  destruct long_call_quartiles as [-> ->].
  cbn [lookup list_lookup fmap option_fmap option_map Float.of_cell Float.sub
       Float.add Float.neg Float.mul Float.ltb Float.gtb].
  f_equal. apply orb_true_iff. right. apply bool_decide_eq_true. lra.
Defined.

End InterQuartile.

Section AnomalyMethods.
Import StatisticalAnalyzer.
Local Open Scope R_scope.

Lemma assoc_set_absent {A} (k : string) (v : A) (l : list (string * A)) :
  k ∉ l.*1 → assoc_set k v l = l ++ [(k, v)].
Proof.
  induction l as [|[k' v'] l IH]; intros Hk; [done|].
  rewrite fmap_cons in Hk. apply not_elem_of_cons in Hk as [Hne Hk].
  cbn [assoc_set]. rewrite decide_False by done. cbn [app]. f_equal. by apply IH.
Qed.

Lemma assoc_set_other {A} (k c : string) (v : A) (l : list (string * A)) :
  c ≠ k → assoc c (assoc_set k v l) = assoc c l.
Proof.
  intros Hne. induction l as [|[k' v'] l IH]; cbn [assoc_set assoc].
  - by rewrite decide_False.
  - case_decide as Hk; subst.
    + cbn [assoc]. by rewrite !decide_False by done.
    + cbn [assoc]. case_decide; [done | exact IH].
Qed.

(** A table with one more column of the length of its index. *)
Lemma flag_column_added (df : DataFrame) (flags : list bool) :
  wf df → "is_anomaly" ∉ columns df → length flags = index_len df →
  let out := {| data := assoc_set "is_anomaly" (BoolSeries flags) (data df);
                index_len := index_len df |} in
  wf out ∧ columns out = columns df ++ ["is_anomaly"] ∧ len out = len df ∧
  ∀ c, c ≠ "is_anomaly" → getitem out c = getitem df c.
Proof.
  intros [Hnd Hlen] Hnew Hflags out. unfold out, wf, columns, len, getitem.
  cbn [data index_len]. rewrite assoc_set_absent by done.
  rewrite fmap_app. cbn [fmap list_fmap fst].
  split; [split|split; [done|split; [done|]]].
  - apply NoDup_app. split; [done|]. split; [|apply NoDup_singleton].
    intros c Hc Hin. apply list_elem_of_singleton in Hin. by subst.
  - apply Forall_app. split; [done|]. constructor; [|done].
    cbn [snd]. unfold series_len. cbn [cells]. by rewrite length_fmap.
  - intros c Hc. rewrite <- assoc_set_absent by done.
    by rewrite assoc_set_other.
Qed.

(** For a numeric column of a table that has no column [is_anomaly]
    yet, [detect_anomalies] returns exactly with the method [iqr], and
    with the method [zscore] when the column has no missing value.  Any
    other method name ends in the [KeyError] of the flag column that was
    never written.  A table returned is the input with the column
    [is_anomaly] added at the end: the same rows, the other columns
    untouched. *)
Theorem detect_anomalies_outcome (df : DataFrame) (column method : string)
    (threshold : float) (xs : list (option R)) :
  wf df →
  assoc column (data df) = Some (NumSeries xs) →
  "is_anomaly" ∉ columns df →
  (method ∉ anomaly_methods →
   detect_anomalies df column method threshold = Raise (KeyError "is_anomaly")) ∧
  ((∃ out, detect_anomalies df column method threshold = Ok out) ↔
   method = "iqr" ∨ (method = "zscore" ∧ None ∉ xs)) ∧
  (∀ out, detect_anomalies df column method threshold = Ok out →
     wf out ∧ columns out = columns df ++ ["is_anomaly"] ∧ len out = len df ∧
     ∀ c, c ≠ "is_anomaly" → getitem out c = getitem df c).
Proof.
  intros Hwf Hcol Hnew.
  pose proof (numeric_column_length df column xs Hwf Hcol) as Hlen.
  assert (Hother : method ≠ "zscore" → method ≠ "iqr" →
            detect_anomalies df column method threshold
            = Raise (KeyError "is_anomaly")).
  { intros Hz Hi. unfold detect_anomalies. cbv zeta.
    rewrite !decide_False by done. cbn [mbind Py.result_bind].
    unfold getitem. apply assoc_None_not_elem in Hnew. by rewrite Hnew. }
  assert (Hzs : detect_anomalies df column "zscore" threshold
            = if decide (None ∈ xs)
              then Raise (ValueError
                     ("Length of values (" +:+ pretty (count xs) +:+
                      ") does not match length of index (" +:+
                      pretty (index_len df) +:+ ")"))
              else Ok {| data := assoc_set "is_anomaly"
                                   (BoolSeries (zscore_flags xs threshold))
                                   (data df);
                         index_len := index_len df |}).
  { rewrite (detect_anomalies_zscore_run df column threshold xs Hcol).
    unfold setitem, series_len. cbn [cells].
    rewrite length_fmap, zscore_flags_length, count_length_dropna.
    destruct (decide (None ∈ xs)) as [Hmiss|Hmiss].
    - apply dropna_length_missing in Hmiss. by rewrite decide_False by lia.
    - apply dropna_length_complete in Hmiss. rewrite decide_True by lia.
      cbn [mbind Py.result_bind]. unfold getitem. cbn [data].
      rewrite assoc_set_lookup. done. }
  pose proof (detect_anomalies_iqr_run df column threshold xs Hwf Hcol) as Hiqr.
  split; [|split].
  - intros Hun. unfold anomaly_methods in Hun.
    apply Hother; intros ->; apply Hun; [left | right; left].
  - split.
    + intros [out Hout].
      destruct (decide (method = "iqr")) as [->|Hi]; [by left|].
      destruct (decide (method = "zscore")) as [->|Hz].
      * right. split; [done|]. intros Hmiss.
        rewrite Hzs, decide_True in Hout by done. done.
      * by rewrite Hother in Hout.
    + intros [-> | [-> Hfull]]; [eauto|].
      rewrite Hzs, decide_False by done. eauto.
  - intros out Hout.
    destruct (decide (method = "iqr")) as [->|Hi].
    { rewrite Hiqr in Hout. injection Hout as <-.
      apply flag_column_added; [done | done |].
      by rewrite iqr_flags_length. }
    destruct (decide (method = "zscore")) as [->|Hz].
    { rewrite Hzs in Hout. case_decide as Hmiss; [done|].
      injection Hout as <-.
      apply flag_column_added; [done | done |].
      rewrite zscore_flags_length. rewrite <- Hlen.
      by apply dropna_length_complete. }
    by rewrite Hother in Hout.
Qed.

(** The long-call table: the method [iqr] returns, a misspelt method
    raises [KeyError]. *)
Lemma detect_anomalies_outcome_witness :
  detect_anomalies long_call_table "handle_time" "IQR" (Fin 1.5)
  = Raise (KeyError "is_anomaly") ∧
  ∃ out, detect_anomalies long_call_table "handle_time" "iqr" (Fin 1.5) = Ok out.
Proof.
  assert (Hwf : wf long_call_table) by solve_wf.
  assert (Hnew : "is_anomaly" ∉ columns long_call_table).
  { apply (bool_decide_unpack _). vm_compute. exact I. }
  split.
  - destruct (detect_anomalies_outcome long_call_table "handle_time" "IQR"
                (Fin 1.5) _ Hwf eq_refl Hnew) as [Hun _].
    apply Hun. apply (bool_decide_unpack _). vm_compute. exact I.
  - destruct (detect_anomalies_outcome long_call_table "handle_time" "iqr"
                (Fin 1.5) _ Hwf eq_refl Hnew) as (_ & Hiff & _).
    apply Hiff. by left.
Defined.

End AnomalyMethods.

(** ** Configuration: [get], [set] and [update] *)

Section Config.
Import ConfigManager.

Lemma get_nil config d : get config [] d = config.
Proof. done. Qed.

Lemma get_dict items k ks d :
  get (VDict items) (k :: ks) d
  = match assoc k items with
    | Some c => match c with VNone => d | _ => get c ks d end
    | None => d
    end.
Proof. cbn [get]. destruct (assoc k items) as [[]|]; done. Qed.

Lemma get_scalar config k ks d :
  (∀ items, config ≠ VDict items) → get config (k :: ks) d = d.
Proof. intros H. destruct config; try done. by destruct (H items). Qed.

Lemma snoc_inv {A} (l : list A) : l ≠ [] → ∃ init last, l = init ++ [last].
Proof. induction l using rev_ind; [done | eauto]. Qed.

Lemma set_snoc config v init last :
  set config v (init ++ [last]) = set_from config init last v.
Proof. unfold set. by rewrite reverse_snoc, reverse_involutive. Qed.

Lemma set_from_dict config init last v :
  (set_from config init last v).2 = None →
  ∃ items, (set_from config init last v).1 = VDict items.
Proof.
  destruct init as [|key init]; cbn [set_from]; unfold setitem;
    destruct config; try done; cbn [fst snd]; eauto.
Qed.

Lemma set_from_none config init last v :
  (set_from config init last v).1 = VNone ↔ config = VNone.
Proof.
  destruct init as [|key init]; cbn [set_from]; unfold setitem;
    destruct config; done.
Qed.

Lemma set_from_no_index_error init : ∀ config last v,
  (set_from config init last v).2 ≠ Some IndexError.
Proof.
  induction init as [|key init IH]; intros config last v; cbn [set_from].
  - unfold setitem. by destruct config.
  - destruct config; try done. cbn [snd]. apply IH.
Qed.

Lemma set_from_round_trip init : ∀ config last v d,
  (set_from config init last v).2 = None →
  get (set_from config init last v).1 (init ++ [last]) d = or_default d v.
Proof.
  induction init as [|key init IH]; intros config last v d Hok.
  - cbn [set_from] in *. unfold setitem in *.
    destruct config; try done. cbn [fst app].
    rewrite get_dict, assoc_set_lookup. by destruct v.
  - cbn [set_from] in *. destruct config; try done.
    cbn [fst snd] in *. cbn [app]. rewrite get_dict, assoc_set_lookup.
    destruct (set_from_dict _ _ _ _ Hok) as [its Hits].
    specialize (IH _ last v d Hok). rewrite Hits in *. exact IH.
Qed.

(** [set] without keys raises [IndexError] and changes nothing.  When
    [set] returns, [get] with the same keys returns the value that was
    set, or the default of [get] if that value is [None]. *)
Theorem set_get_round_trip (config v : value) (keys : list string)
    (d : value) :
  (keys = [] ↔ (set config v keys).2 = Some IndexError) ∧
  (keys = [] → (set config v keys).1 = config) ∧
  ((set config v keys).2 = None →
   get (set config v keys).1 keys d = or_default d v).
Proof.
  destruct (decide (keys = [])) as [->|Hne].
  - unfold set. cbn [reverse rev_append fst snd].
    split; [by split|]. split; [done|]. intros Hok. discriminate Hok.
  - destruct (snoc_inv keys Hne) as (init & last & ->). rewrite set_snoc.
    split; [|split; [done|]].
    + split; [intros Hnil; by destruct init|]. intros Herr. exfalso.
      by apply set_from_no_index_error in Herr.
    + apply set_from_round_trip.
Qed.

(** The correlation threshold is set to 0.5 and read back. *)
Lemma set_get_round_trip_witness :
  get (set analysis_config (VFloat (Fin 0.5))
         ["analysis"; "correlation_threshold"]).1
      ["analysis"; "correlation_threshold"] VNone
  = VFloat (Fin 0.5).
Proof.
  destruct (set_get_round_trip analysis_config (VFloat (Fin 0.5))
              ["analysis"; "correlation_threshold"] VNone) as (_ & _ & Hget).
  apply Hget. reflexivity.
Defined.

Lemma get_assoc_set_other items key k c ks d :
  k ≠ key →
  get (VDict (assoc_set key c items)) (k :: ks) d = get (VDict items) (k :: ks) d.
Proof. intros Hne. by rewrite !get_dict, assoc_set_other. Qed.

Lemma set_from_diverge p : ∀ config init last v k ks' k' rest d,
  init ++ [last] = p ++ k' :: rest → k ≠ k' →
  get (set_from config init last v).1 (p ++ k :: ks') d
  = get config (p ++ k :: ks') d.
Proof.
  induction p as [|a p IH]; intros config init last v k ks' k' rest d Hpath Hne.
  - cbn [app] in *. destruct init as [|key init]; cbn [app] in Hpath.
    + injection Hpath as -> _. cbn [set_from]. unfold setitem.
      destruct config; try done. cbn [fst]. by apply get_assoc_set_other.
    + injection Hpath as -> _. cbn [set_from].
      destruct config; try done. cbn [fst]. by apply get_assoc_set_other.
  - destruct init as [|key init]; cbn [app] in Hpath.
    { injection Hpath as _ Hnil. by destruct p. }
    injection Hpath as -> Hpath. cbn [app set_from].
    destruct config; try done. cbn [fst].
    rewrite !get_dict, assoc_set_lookup.
    set (child := default (VDict []) (assoc a items)).
    pose proof (IH child init last v k ks' k' rest d Hpath Hne) as Hrec.
    pose proof (set_from_none child init last v) as Hnone.
    destruct (assoc a items) as [c|] eqn:Hc; cbn [default from_option] in child.
    + unfold Datatypes.id in child. subst child.
      destruct (set_from c init last v).1 eqn:Hr.
      1:{ assert (c = VNone) by (by apply Hnone). by subst c. }
      all: destruct c; try done; by (exfalso; assert (E : VNone = VNone) by done;
             apply Hnone in E; done) || (by rewrite <- Hrec).
    + subst child. rewrite Hrec.
      assert (Hempty : get (VDict []) (p ++ k :: ks') d = d) by (by destruct p).
      rewrite Hempty. by destruct (set_from (VDict []) init last v).1.
Qed.

(** [set] changes nothing off its path: a path that parts from the
    keys of [set] at some key reads the same before and after, whether
    [set] returns or raises. *)
Theorem set_keeps_other_paths (config v : value) (keys ks : list string)
    (d : value) :
  diverge ks keys →
  get (set config v keys).1 ks d = get config ks d.
Proof.
  intros (p & k & ks' & k' & rest & -> & -> & Hne).
  destruct (snoc_inv (p ++ k' :: rest)) as (init & last & Hsnoc);
    [by destruct p|].
  rewrite Hsnoc, set_snoc.
  by apply (set_from_diverge p config init last v k ks' k' rest d).
Qed.

(** Setting the correlation threshold leaves the outlier threshold. *)
Lemma set_keeps_other_paths_witness :
  get (set analysis_config (VFloat (Fin 0.5))
         ["analysis"; "correlation_threshold"]).1
      ["analysis"; "outlier_std_threshold"] VNone
  = VInt 3.
Proof.
  rewrite (set_keeps_other_paths analysis_config (VFloat (Fin 0.5))
             ["analysis"; "correlation_threshold"]
             ["analysis"; "outlier_std_threshold"] VNone).
  - reflexivity.
  - exists ["analysis"], "outlier_std_threshold", [],
      "correlation_threshold", []. done.
Defined.

End Config.

Section ConfigUpdate.
Import ConfigManager.

(** Induction on a configuration value and on the values under it. *)
Lemma value_nested_ind (P : value → Prop) :
  P VNone → (∀ b, P (VBool b)) → (∀ n, P (VInt n)) → (∀ x, P (VFloat x)) →
  (∀ s, P (VStr s)) → (∀ l, P (VList l)) →
  (∀ items, Forall (λ p, P p.2) items → P (VDict items)) →
  ∀ v, P v.
Proof.
  intros HNone HBool HInt HFloat HStr HList HDict.
  fix IH 1. intros [|b|n|x|s|l|items];
    [exact HNone | apply HBool | apply HInt | apply HFloat | apply HStr
    | apply HList | ].
  apply HDict. induction items as [|[k v] items IHitems]; constructor.
  - apply IH.
  - exact IHitems.
Qed.

Lemma mentions_cons_dict k ks u :
  mentions (VDict u) (k :: ks)
  = existsb (λ p : string * value, String.eqb p.1 k && mentions p.2 ks) u.
Proof.
  cbn [mentions]. induction u as [|[k' v] u IH]; [done|].
  cbn [existsb fst snd]. by rewrite IH.
Qed.

(** A path the update does not mention leads nowhere in the update. *)
Lemma get_unmentioned upd : ∀ ks d, mentions upd ks = false → get upd ks d = d.
Proof.
  induction upd as [| | | | | |u IH] using value_nested_ind;
    intros [|k ks] d Hm; try done.
  rewrite mentions_cons_dict in Hm. rewrite get_dict.
  induction u as [|[k' v] u IHu]; [done|].
  apply Forall_cons in IH as [Hv IH]. cbn [snd] in Hv.
  cbn [existsb fst snd] in Hm. apply orb_false_iff in Hm as [Hkv Hm].
  cbn [assoc]. case_decide as Hk.
  - subst k'. rewrite String.eqb_refl in Hkv. cbn [andb] in Hkv.
    rewrite (Hv ks d Hkv). by destruct v.
  - by apply IHu.
Qed.

Lemma deep_update_with_dict u base_dict :
  deep_update_with (VDict u) base_dict = update_loop u base_dict.
Proof. done. Qed.

Lemma deep_update_with_scalar upd base_dict :
  (∀ u, upd ≠ VDict u) → deep_update_with upd base_dict = (base_dict, None).
Proof. intros H. destruct upd; try done. by destruct (H items). Qed.

Lemma update_loop_nil base_dict : update_loop [] base_dict = (base_dict, None).
Proof. done. Qed.

Lemma update_loop_scalar key value rest base_dict :
  (∀ items, base_dict ≠ VDict items) →
  update_loop ((key, value) :: rest) base_dict = (base_dict, Some TypeError).
Proof. intros H. destruct base_dict; try done. by destruct (H items). Qed.

(** A base that is no dict is never replaced by the update. *)
Lemma update_loop_keeps_scalar u base_dict :
  (∀ items, base_dict ≠ VDict items) → (update_loop u base_dict).1 = base_dict.
Proof.
  intros H. destruct u as [|[key value] rest]; [done|].
  by rewrite update_loop_scalar.
Qed.

Lemma update_loop_dict u : ∀ items,
  ∃ items', (update_loop u (VDict items)).1 = VDict items'.
Proof.
  induction u as [|[key value] rest IH]; intros items; [by eexists|].
  cbn [update_loop].
  destruct value; try apply IH.
  destruct (assoc key items) as [child|]; [|apply IH].
  cbv zeta. destruct (deep_update_with _ child).2; [by eexists | apply IH].
Qed.

Lemma dict_or_scalar (v : value) :
  (∃ items, v = VDict items) ∨ (∀ items, v ≠ VDict items).
Proof. destruct v; eauto. Qed.

Lemma get_stored c ks d :
  ks ≠ [] → match c with VNone => d | _ => get c ks d end = get c ks d.
Proof. intros Hne. destruct c; try done. by destruct ks. Qed.

Lemma mentions_nil upd : mentions upd [] = true.
Proof. by destruct upd. Qed.

Lemma mentions_scalar upd ks : (∀ u, upd ≠ VDict u) → mentions upd ks = true.
Proof. intros H. destruct upd, ks; try done. by destruct (H items). Qed.

Lemma update_loop_unmentioned u k ks d :
  Forall (λ p : string * value, ∀ base ks d,
            mentions p.2 ks = false →
            get (deep_update_with p.2 base).1 ks d = get base ks d) u →
  existsb (λ p : string * value, String.eqb p.1 k && mentions p.2 ks) u = false →
  ∀ base, get (update_loop u base).1 (k :: ks) d = get base (k :: ks) d.
Proof.
  induction u as [|[key value] rest IHu]; intros Hall Hm base; [done|].
  apply Forall_cons in Hall as [Hv Hall]. cbn [snd] in Hv.
  cbn [existsb fst snd] in Hm. apply orb_false_iff in Hm as [Hkv Hm].
  specialize (IHu Hall Hm).
  destruct (dict_or_scalar base) as [[items ->]|Hscalar];
    [|by rewrite update_loop_keeps_scalar].
  destruct (decide (key = k)) as [->|Hne].
  - (* the entry is for the first key of the path, and goes on below *)
    rewrite String.eqb_refl in Hkv. cbn [andb] in Hkv.
    assert (Hks : ks ≠ []) by (intros ->; by rewrite mentions_nil in Hkv).
    destruct (dict_or_scalar value) as [[u' ->]|Hleaf];
      [|by rewrite mentions_scalar in Hkv].
    cbn [update_loop]. destruct (assoc k items) as [child|] eqn:Hchild.
    + cbv zeta.
      assert (Hnew : get (VDict (assoc_set k (deep_update_with (VDict u') child).1
                                   items)) (k :: ks) d
                     = get (VDict items) (k :: ks) d).
      { rewrite !get_dict, assoc_set_lookup, Hchild.
        rewrite !get_stored by done. by apply Hv. }
      destruct (deep_update_with (VDict u') child).2; [exact Hnew|].
      by rewrite IHu.
    + rewrite IHu, !get_dict, assoc_set_lookup, Hchild. cbv beta iota.
      by apply get_unmentioned.
  - (* an entry for another key *)
    assert (Hnew : ∀ c, get (VDict (assoc_set key c items)) (k :: ks) d
                        = get (VDict items) (k :: ks) d)
      by (intros c; by apply get_assoc_set_other).
    cbn [update_loop].
    destruct value; try (rewrite IHu; apply Hnew).
    destruct (assoc key items) as [child|]; [|rewrite IHu; apply Hnew].
    cbv zeta. destruct (deep_update_with _ child).2; [apply Hnew|].
    rewrite IHu. apply Hnew.
Qed.

Lemma deep_update_unmentioned upd : ∀ base ks d,
  mentions upd ks = false →
  get (deep_update_with upd base).1 ks d = get base ks d.
Proof.
  induction upd as [| | | | | |u IH] using value_nested_ind;
    intros base [|k ks] d Hm; try done.
  rewrite mentions_cons_dict in Hm. rewrite deep_update_with_dict.
  by apply update_loop_unmentioned.
Qed.

(** [update] merges: a path that the update does not mention reads the
    same before and after, at any depth and also when [update] raises.
    In particular the settings beside an updated one are kept. *)
Theorem update_keeps_unmentioned (config : value)
    (updates : list (string * value)) (ks : list string) (d : value) :
  mentions (VDict updates) ks = false →
  get (update config updates).1 ks d = get config ks d.
Proof.
  intros Hm. unfold update, deep_update.
  destruct ks as [|k ks]; [by rewrite mentions_nil in Hm|].
  rewrite mentions_cons_dict in Hm. rewrite deep_update_with_dict.
  apply update_loop_unmentioned; [|done].
  apply Forall_forall. intros p _ base ks' d'. apply deep_update_unmentioned.
Qed.

(** A new correlation threshold: the outlier threshold beside it is
    kept. *)
Lemma update_keeps_unmentioned_witness :
  get (update analysis_config
         [("analysis", VDict [("correlation_threshold", VFloat (Fin 0.5))])]).1
      ["analysis"; "outlier_std_threshold"] VNone
  = VInt 3.
Proof.
  rewrite (update_keeps_unmentioned analysis_config
             [("analysis", VDict [("correlation_threshold", VFloat (Fin 0.5))])]
             ["analysis"; "outlier_std_threshold"] VNone).
  - reflexivity.
  - reflexivity.
Defined.

End ConfigUpdate.

Section ConfigLeaf.
Import ConfigManager.

Lemma update_loop_app u1 : ∀ u2 base,
  update_loop (u1 ++ u2) base
  = match (update_loop u1 base).2 with
    | Some e => update_loop u1 base
    | None => update_loop u2 (update_loop u1 base).1
    end.
Proof.
  induction u1 as [|[key value] u1 IH]; intros u2 base; [done|].
  cbn [app update_loop]. destruct base; try done.
  destruct value; try apply IH.
  destruct (assoc key items) as [child|]; [|apply IH].
  cbv zeta. destruct (deep_update_with _ child).2; [done | apply IH].
Qed.

Lemma assoc_app_absent {A} (k : string) (l1 l2 : list (string * A)) :
  k ∉ l1.*1 → assoc k (l1 ++ l2) = assoc k l2.
Proof.
  induction l1 as [|[k' v'] l1 IH]; intros Hk; [done|].
  rewrite fmap_cons in Hk. apply not_elem_of_cons in Hk as [Hne Hk].
  cbn [app assoc]. rewrite decide_False by done. by apply IH.
Qed.

Lemma absent_unmentioned (u : list (string * value)) k ks :
  k ∉ u.*1 →
  existsb (λ p : string * value, String.eqb p.1 k && mentions p.2 ks) u = false.
Proof.
  induction u as [|[k' v] u IH]; intros Hk; [done|].
  rewrite fmap_cons in Hk. apply not_elem_of_cons in Hk as [Hne Hk].
  cbn [existsb fst snd]. rewrite IH by done.
  assert (Hkk : String.eqb k' k = false) by (apply String.eqb_neq; intros ->; by apply Hne).
  by rewrite Hkk.
Qed.

Lemma update_loop_absent u k ks d base :
  k ∉ u.*1 → get (update_loop u base).1 (k :: ks) d = get base (k :: ks) d.
Proof.
  intros Hk. apply update_loop_unmentioned; [|by apply absent_unmentioned].
  apply Forall_forall. intros p _ base' ks' d'. apply deep_update_unmentioned.
Qed.

(** Reading a leaf of the update from the update itself, and from a
    configuration the update was merged into. *)
Lemma leaf_at_get upd ks v d :
  leaf_at upd ks v →
  match upd with VNone => d | _ => get upd ks d end = or_default d v ∧
  (ks ≠ [] → ∀ base,
     (deep_update_with upd base).2 = None →
     get (deep_update_with upd base).1 ks d = or_default d v).
Proof.
  induction 1 as [v Hleaf | u1 k c u2 ks v Hk1 Hk2 Hc [IHget IHupd]].
  - split; [by destruct v | done].
  - split.
    + rewrite get_dict, assoc_app_absent by done. cbn [assoc].
      by rewrite decide_True.
    + intros _ base Hok.
      rewrite deep_update_with_dict, update_loop_app in Hok.
      rewrite deep_update_with_dict, update_loop_app.
      destruct (update_loop u1 base).2 eqn:H1; [congruence|].
      set (base1 := (update_loop u1 base).1) in *.
      destruct (dict_or_scalar base1) as [[items Hitems]|Hscalar];
        [|by rewrite update_loop_scalar in Hok].
      rewrite Hitems in *.
      assert (Hstep : ∀ stored,
                match stored with VNone => d | _ => get stored ks d end
                = or_default d v →
                get (update_loop u2 (VDict (assoc_set k stored items))).1
                    (k :: ks) d = or_default d v).
      { intros stored Hstored. rewrite update_loop_absent by done.
        by rewrite get_dict, assoc_set_lookup. }
      destruct (dict_or_scalar c) as [[u' ->]|Hleaf].
      * cbn [update_loop] in *.
        destruct (assoc k items) as [child|] eqn:Hchild.
        -- cbv zeta in *.
           assert (Hks : ks ≠ []).
           { inversion Hc as [v' Hv'|]; [by destruct (Hv' u')|done]. }
           destruct (deep_update_with (VDict u') child).2 eqn:Hr; [done|].
           apply Hstep. rewrite get_stored by done.
           by apply IHupd.
        -- by apply Hstep.
      * assert (Hsame : update_loop ((k, c) :: u2) (VDict items)
                        = update_loop u2 (VDict (assoc_set k c items))).
        { cbn [update_loop]. destruct c; try done. by destruct (Hleaf items0). }
        rewrite Hsame. by apply Hstep.
Qed.

(** When [update] returns, a value the update gives for a path is the
    one [get] returns for that path afterwards (the default of [get]
    in place of [None]). *)
Theorem update_get_leaf (config : value) (updates : list (string * value))
    (ks : list string) (v d : value) :
  leaf_at (VDict updates) ks v →
  (update config updates).2 = None →
  get (update config updates).1 ks d = or_default d v.
Proof.
  intros Hleaf Hok. unfold update, deep_update in *.
  assert (Hks : ks ≠ []).
  { inversion Hleaf as [v' Hscalar|]; [|done]. by destruct (Hscalar updates). }
  destruct (leaf_at_get (VDict updates) ks v d Hleaf) as [_ Hupd].
  by apply Hupd.
Qed.

(** A new correlation threshold is read back. *)
Lemma update_get_leaf_witness :
  get (update analysis_config
         [("analysis", VDict [("correlation_threshold", VFloat (Fin 0.5))])]).1
      ["analysis"; "correlation_threshold"] VNone
  = VFloat (Fin 0.5).
Proof.
  apply (update_get_leaf analysis_config
           [("analysis", VDict [("correlation_threshold", VFloat (Fin 0.5))])]
           ["analysis"; "correlation_threshold"] (VFloat (Fin 0.5)) VNone).
  - apply (leaf_below [] "analysis" _ [] _ _); [apply not_elem_of_nil..|].
    apply (leaf_below [] "correlation_threshold" _ [] _ _);
      [apply not_elem_of_nil..|].
    by apply leaf_here.
  - reflexivity.
Defined.

End ConfigLeaf.

(** ** KPI analyzer: the performance indicators *)

Section PerformanceIndicators.
Import KPIAnalyzer.
Local Open Scope R_scope.

Ltac perf_column df c Hnum s Hs Hn :=
  rewrite ?(has_column_assoc df c); unfold getitem;
  destruct (assoc c (data df)) as [s|] eqn:Hs;
  [ assert (Hn : is_numeric_dtype s = true)
      by (apply (Hnum c s); [unfold performance_columns; set_solver
                            | by apply getitem_assoc]);
    rewrite ?(bool_decide_eq_true_2 (is_Some (Some s))) by eauto
  | rewrite ?(bool_decide_eq_false_2 (is_Some None)) by (by intros [? ?]) ];
  cbn [andb mbind Py.result_bind].

Ltac perf_reduce :=
  unfold series_mean, series_median, series_std, series_sum;
  repeat match goal with
  | Hn : is_numeric_dtype ?s = true |- _ =>
      rewrite !(numeric_values_numeric s Hn)
  end;
  cbn [mbind Py.result_bind].

(** The quotient of two sums behind a guard on the divisor. *)
Lemma guarded_quotient (num den : R) :
  (if Float.gtb (Fin den) (Fin 0)
   then Float.div (Fin num) (Fin den) else Fin 0)
  = if decide (0 < den) then Fin (num / den) else Fin 0.
Proof.
  unfold Float.gtb, Float.ltb, Float.div.
  destruct (decide (0 < den)) as [Hpos|Hneg].
  - rewrite bool_decide_eq_true_2 by done. by rewrite decide_False by lra.
  - by rewrite bool_decide_eq_false_2.
Qed.

Lemma handle_time_block df kpis :
  numeric_if_present df performance_columns →
  handle_time_kpis df kpis
  = Ok (match assoc "handle_time" (data df) with
        | Some s =>
            <["aht_std" := nanstd 1 (values s)]>
              (<["aht_median" := nanmedian (values s)]>
                 (<["aht" := nanmean (values s)]> kpis))
        | None => kpis
        end).
Proof.
  intros Hnum. unfold handle_time_kpis.
  perf_column df "handle_time" Hnum s Hs Hn; [|done]. by perf_reduce.
Qed.

Lemma fcr_block df kpis :
  numeric_if_present df performance_columns →
  fcr_kpis df kpis
  = Ok (match assoc "first_call_resolution" (data df) with
        | Some s => <["fcr_rate" := nanmean (values s)]> kpis
        | None => kpis
        end).
Proof.
  intros Hnum. unfold fcr_kpis.
  perf_column df "first_call_resolution" Hnum s Hs Hn; [|done]. by perf_reduce.
Qed.

Lemma service_level_block df kpis :
  numeric_if_present df performance_columns →
  service_level_kpis df kpis
  = Ok (match assoc "calls_offered" (data df),
              assoc "calls_answered" (data df) with
        | Some offered, Some answered =>
            <["service_level" :=
                if decide (0 < nansum (values offered))
                then Fin (nansum (values answered) / nansum (values offered))
                else Fin 0]> kpis
        | _, _ => kpis
        end).
Proof.
  intros Hnum. unfold service_level_kpis.
  perf_column df "calls_offered" Hnum o Ho Hno;
    perf_column df "calls_answered" Hnum a Ha Hna; try done.
  perf_reduce. rewrite <- guarded_quotient.
  destruct (Float.gtb _ _); [|done]. by perf_reduce.
Qed.

Lemma occupancy_block df kpis :
  numeric_if_present df performance_columns →
  occupancy_kpis df kpis
  = Ok (match assoc "logged_time" (data df),
              assoc "productive_time" (data df) with
        | Some logged, Some productive =>
            <["occupancy_rate" :=
                if decide (0 < nansum (values logged))
                then Fin (nansum (values productive) / nansum (values logged))
                else Fin 0]> kpis
        | _, _ => kpis
        end).
Proof.
  intros Hnum. unfold occupancy_kpis.
  perf_column df "logged_time" Hnum l Hl Hnl;
    perf_column df "productive_time" Hnum p Hp Hnp; try done.
  perf_reduce. rewrite <- guarded_quotient.
  destruct (Float.gtb _ _); [|done]. by perf_reduce.
Qed.

Lemma adherence_block df kpis :
  numeric_if_present df performance_columns →
  adherence_kpis df kpis
  = Ok (match assoc "scheduled_time" (data df),
              assoc "actual_time" (data df) with
        | Some scheduled, Some actual =>
            <["adherence" :=
                if decide (0 < nansum (values scheduled))
                then Fin (nansum (values actual) / nansum (values scheduled))
                else Fin 0]> kpis
        | _, _ => kpis
        end).
Proof.
  intros Hnum. unfold adherence_kpis.
  perf_column df "scheduled_time" Hnum s1 Hs1 Hn1;
    perf_column df "actual_time" Hnum s2 Hs2 Hn2; try done.
  perf_reduce. rewrite <- guarded_quotient.
  destruct (Float.gtb _ _); [|done]. by perf_reduce.
Qed.

(** A block raises nothing but the [TypeError] of a reduction: the
    columns it reads are columns of the table. *)
Lemma numeric_values_cases s :
  numeric_values s = Ok (values s) ∨ numeric_values s = Raise TypeError.
Proof. destruct s; cbn [numeric_values]; auto. by destruct (forallb _ _); auto. Qed.

Ltac guarded_column df c s :=
  rewrite ?(has_column_assoc df c); unfold getitem;
  destruct (assoc c (data df)) as [s|];
  [ rewrite ?(bool_decide_eq_true_2 (is_Some (Some s))) by eauto
  | rewrite ?(bool_decide_eq_false_2 (is_Some None)) by (by intros [? ?]) ];
  cbn [andb mbind Py.result_bind].

Ltac type_error_only :=
  unfold series_mean, series_median, series_std, series_sum;
  repeat match goal with
  | |- context [numeric_values ?s] =>
      destruct (numeric_values_cases s) as [-> | ->];
      cbn [mbind Py.result_bind]
  | |- context [if ?b then _ else _] => destruct b
  end;
  intros H; first [discriminate H | by injection H as <-].

Lemma handle_time_type_error df kpis e :
  handle_time_kpis df kpis = Raise e → e = TypeError.
Proof.
  unfold handle_time_kpis. guarded_column df "handle_time" s1; type_error_only.
Qed.

Lemma fcr_type_error df kpis e :
  fcr_kpis df kpis = Raise e → e = TypeError.
Proof.
  unfold fcr_kpis. guarded_column df "first_call_resolution" s1;
    type_error_only.
Qed.

Lemma service_level_type_error df kpis e :
  service_level_kpis df kpis = Raise e → e = TypeError.
Proof.
  unfold service_level_kpis.
  guarded_column df "calls_offered" s1; guarded_column df "calls_answered" s2;
    type_error_only.
Qed.

Lemma occupancy_type_error df kpis e :
  occupancy_kpis df kpis = Raise e → e = TypeError.
Proof.
  unfold occupancy_kpis.
  guarded_column df "logged_time" s1; guarded_column df "productive_time" s2;
    type_error_only.
Qed.

Lemma adherence_type_error df kpis e :
  adherence_kpis df kpis = Raise e → e = TypeError.
Proof.
  unfold adherence_kpis.
  guarded_column df "scheduled_time" s1; guarded_column df "actual_time" s2;
    type_error_only.
Qed.

Lemma performance_kpis_type_error self df e :
  calculate_performance_kpis self df = Raise e → e = TypeError.
Proof.
  unfold calculate_performance_kpis. intros H.
  apply bind_Raise_inv in H as [H|(k1 & _ & H)];
    [by apply handle_time_type_error in H|].
  apply bind_Raise_inv in H as [H|(k2 & _ & H)];
    [by apply fcr_type_error in H|].
  apply bind_Raise_inv in H as [H|(k3 & _ & H)];
    [by apply service_level_type_error in H|].
  apply bind_Raise_inv in H as [H|(k4 & _ & H)];
    [by apply occupancy_type_error in H|].
  apply bind_Raise_inv in H as [H|(k5 & _ & H)];
    [by apply adherence_type_error in H|].
  discriminate H.
Qed.

(** [calculate_performance_kpis] raises nothing but [TypeError]: no
    division error and no missing column.  When the columns it reads
    are numeric, those of the three ratios holding integers that are
    added exactly, it returns.  An indicator exists exactly when the table
    has its column or, for a ratio, both its columns: the handle time
    has its mean, median and standard deviation, the resolution rate is
    a mean, and service level, occupancy and adherence are the quotient
    of two column sums when the sum of the divisor column is positive
    and 0 otherwise.  No other indicator is produced. *)
Theorem performance_kpis_indicators (self : KPIAnalyzer.t) (df : DataFrame) :
  (∀ e, calculate_performance_kpis self df = Raise e → e = TypeError) ∧
  (numeric_if_present df performance_columns →
   exactly_summed df performance_ratio_columns →
   ∃ kpis, calculate_performance_kpis self df = Ok kpis ∧
     kpis !! "aht"
     = (s ← assoc "handle_time" (data df); Some (nanmean (values s))) ∧
     kpis !! "aht_median"
     = (s ← assoc "handle_time" (data df); Some (nanmedian (values s))) ∧
     kpis !! "aht_std"
     = (s ← assoc "handle_time" (data df); Some (nanstd 1 (values s))) ∧
     kpis !! "fcr_rate"
     = (s ← assoc "first_call_resolution" (data df);
        Some (nanmean (values s))) ∧
     kpis !! "service_level"
     = (offered ← assoc "calls_offered" (data df);
        answered ← assoc "calls_answered" (data df);
        Some (if decide (0 < nansum (values offered))
              then Fin (nansum (values answered) / nansum (values offered))
              else Fin 0)) ∧
     kpis !! "occupancy_rate"
     = (logged ← assoc "logged_time" (data df);
        productive ← assoc "productive_time" (data df);
        Some (if decide (0 < nansum (values logged))
              then Fin (nansum (values productive) / nansum (values logged))
              else Fin 0)) ∧
     kpis !! "adherence"
     = (scheduled ← assoc "scheduled_time" (data df);
        actual ← assoc "actual_time" (data df);
        Some (if decide (0 < nansum (values scheduled))
              then Fin (nansum (values actual) / nansum (values scheduled))
              else Fin 0)) ∧
     (∀ k, k ∉ performance_indicators → kpis !! k = None)).
Proof.
  split; [intros e; apply performance_kpis_type_error|].
  intros Hnum _. unfold calculate_performance_kpis.
  rewrite handle_time_block by done. cbn [mbind Py.result_bind].
  rewrite fcr_block by done. cbn [mbind Py.result_bind].
  rewrite service_level_block by done. cbn [mbind Py.result_bind].
  rewrite occupancy_block by done. cbn [mbind Py.result_bind].
  rewrite adherence_block by done. cbn [mbind Py.result_bind].
  eexists. split; [done|].
  repeat match goal with |- _ ∧ _ => split end.
  - rewrite !lookup_block_pair, lookup_block1 by done.
    destruct (assoc "handle_time" (data df)); [|done].
    by rewrite !lookup_insert_ne, lookup_insert_eq by done.
  - rewrite !lookup_block_pair, lookup_block1 by done.
    destruct (assoc "handle_time" (data df)); [|done].
    by rewrite !lookup_insert_ne, lookup_insert_eq by done.
  - rewrite !lookup_block_pair, lookup_block1 by done.
    destruct (assoc "handle_time" (data df)); [|done].
    by rewrite lookup_insert_eq.
  - rewrite !lookup_block_pair by done.
    destruct (assoc "first_call_resolution" (data df)).
    + by rewrite lookup_insert_eq.
    + by rewrite lookup_block3.
  - rewrite !lookup_block_pair by done.
    destruct (assoc "calls_offered" (data df)) as [o|],
      (assoc "calls_answered" (data df)) as [a|];
      cbn [mbind option_bind];
      first [ by rewrite lookup_insert_eq
            | by rewrite lookup_block1, lookup_block3 ].
  - rewrite lookup_block_pair by done.
    destruct (assoc "logged_time" (data df)) as [l|],
      (assoc "productive_time" (data df)) as [p|];
      cbn [mbind option_bind];
      first [ by rewrite lookup_insert_eq
            | by rewrite lookup_block_pair, lookup_block1, lookup_block3 ].
  - destruct (assoc "scheduled_time" (data df)) as [sch|],
      (assoc "actual_time" (data df)) as [act|];
      cbn [mbind option_bind];
      first [ by rewrite lookup_insert_eq
            | by rewrite !lookup_block_pair, lookup_block1, lookup_block3 ].
  - intros k Hk.
    assert (Hne : Forall (λ name, k ≠ name) performance_indicators).
    { apply Forall_forall. by intros name Hname ->. }
    unfold performance_indicators in Hne.
    repeat (apply Forall_cons in Hne as [? Hne]).
    rewrite !lookup_block_pair, lookup_block1, lookup_block3 by done.
    apply lookup_empty.
Qed.

(** 140 answered of 150 offered, no handle times. *)
Lemma performance_kpis_indicators_witness :
  ∃ kpis, calculate_performance_kpis (KPIAnalyzer.init default_config)
            calls_table = Ok kpis ∧
    kpis !! "service_level" = Some (Fin (140 / 150)) ∧
    kpis !! "aht" = None.
Proof.
  destruct (performance_kpis_indicators (KPIAnalyzer.init default_config)
              calls_table) as [_ Hrun].
  destruct Hrun as (kpis & Hrun & Haht & _ & _ & _ & Hsl & _).
  - intros c s _ Hs. unfold getitem in Hs. simpl in Hs.
    repeat case_decide; by simplify_eq.
  - solve_exactly_summed.
  - exists kpis. split; [exact Hrun|]. split; [|exact Haht].
    rewrite Hsl.
    change (assoc "calls_offered" (data calls_table))
      with (Some (NumSeries [Some 100; Some 50])).
    change (assoc "calls_answered" (data calls_table))
      with (Some (NumSeries [Some 90; Some 50])).
    cbn [mbind option_bind values nansum].
    rewrite decide_True by lra. do 2 f_equal. lra.
Defined.

End PerformanceIndicators.
